(** * Brewery data lake: Silver transforms, quality gate and Gold aggregations

    A shallow embedding of [src/silver.py], [src/data_quality.py] and
    [src/gold.py].  The Python code drives pandas; the parts of pandas the
    code calls are embedded here as functions on a small tabular model:

    - a scalar cell is [VNull] (None / NaN, which pandas treats alike),
      a text, a number or a boolean;
    - a record is a finite map from field names to cells, a missing field
      reading as null (this is what [pd.DataFrame(records)] does);
    - a [DataFrame] is the ordered list of its columns, each with the dtype
      pandas keeps for it, and the ordered list of its rows.

    Numbers are exact rationals, texts are byte strings: floating point
    rounding and non-ASCII white space, digits and letter case are outside
    the model.  The pandas behaviour assumed is that of pandas 3 (the [str]
    dtype that [select_dtypes(include="str")] selects, copy-on-write). *)

From stdpp Require Import gmap strings list fin_maps numbers pretty sorting.
From Stdlib Require Import Ascii QArith Qcanon Qround.

Close Scope Qc_scope.
Close Scope Q_scope.

(** ** Scalars, records, frames *)

Inductive value : Type :=
  | VNull
  | VStr (s : string)
  | VNum (x : Qc)
  | VBool (b : bool).

Global Instance value_eq_dec : EqDecision value.
Proof. solve_decision. Defined.

Global Instance value_inhabited : Inhabited value := populate VNull.

(** [pd.isna] / [pd.notna] on a scalar. *)
Definition isna (v : value) : bool :=
  match v with VNull => true | _ => false end.
Definition notna (v : value) : bool := negb (isna v).

(** The dtypes the code can meet: [str], a numeric dtype, [bool], [object]. *)
Inductive dtype : Type := DStr | DNum | DBool | DObject.

Global Instance dtype_eq_dec : EqDecision dtype.
Proof. solve_decision. Defined.

Record DataFrame : Type := mkDF {
  columns : list (string * dtype);
  rows : list (gmap string value)
}.

Record Series : Type := mkSeries {
  sdtype : dtype;
  svalues : list value
}.

(** The cell of a row under a column name: a field the record lacks is null. *)
Definition cell (r : gmap string value) (c : string) : value :=
  default VNull (r !! c).

Definition column_names (df : DataFrame) : list string := (columns df).*1.

(** [c in df.columns] *)
Definition has_column (df : DataFrame) (c : string) : bool :=
  bool_decide (c ∈ column_names df).

(** [len(df)] *)
Definition len (df : DataFrame) : nat := length (rows df).

(** [df.empty]: one of the two axes has length zero. *)
Definition df_empty (df : DataFrame) : bool :=
  match columns df, rows df with
  | [], _ | _, [] => true
  | _, _ => false
  end.

Definition column_dtype (df : DataFrame) (c : string) : option dtype :=
  (λ p, p.2.2) <$> list_find (λ cd, cd.1 = c) (columns df).

(** ** Exceptions and the effect monad

    A call either returns or raises; on the way it writes log lines and
    prints.  [Py S A] threads a state [S] through both outcomes, so that what
    was written (or mutated) before an exception stays written. *)

Inductive exn : Type :=
  | KeyError (key : string)
  | AttributeError (msg : string)
  | ValueError (msg : string)
  | TypeError (msg : string)
  | OverflowError (msg : string)
  | ArrowInvalid (msg : string)
  | FileNotFoundError (msg : string)
  | JSONDecodeError (path : string)
  | IsADirectoryError (path : string).

Inductive result (A : Type) : Type :=
  | Ok (a : A)
  | Raise (e : exn).
Arguments Ok {A} a.
Arguments Raise {A} e.

Definition is_ok {A} (r : result A) : bool :=
  match r with Ok _ => true | Raise _ => false end.

Global Instance result_ret : MRet result := λ A a, Ok a.
Global Instance result_bind : MBind result := λ A B f m,
  match m with Ok a => f a | Raise e => Raise e end.

Definition Py (S A : Type) : Type := S → result A * S.

Global Instance Py_ret {S} : MRet (Py S) := λ A a s, (Ok a, s).
Global Instance Py_bind {S} : MBind (Py S) := λ A B f m s,
  match m s with
  | (Ok a, s') => f a s'
  | (Raise e, s') => (Raise e, s')
  end.

Definition raise {S A} (e : exn) : Py S A := λ s, (Raise e, s).
Definition lift {S A} (r : result A) : Py S A := λ s, (r, s).
Definition get {S} : Py S S := λ s, (Ok s, s).
Definition put {S} (s : S) : Py S unit := λ _, (Ok tt, s).

Inductive level : Type := INFO | WARNING.

(** What a run leaves behind on the log file and on standard output. *)
Record Console : Type := mkConsole {
  logged : list (level * string);
  printed : list string
}.

Definition console0 : Console := mkConsole [] [].

(** [logger.log(lvl, msg)], [logger.info(msg)] and [print(msg)]. *)
Definition log (lvl : level) (msg : string) : Py Console unit :=
  λ c, (Ok tt, mkConsole (logged c ++ [(lvl, msg)]) (printed c)).
Definition info (msg : string) : Py Console unit := log INFO msg.
Definition print (msg : string) : Py Console unit :=
  λ c, (Ok tt, mkConsole (logged c) (printed c ++ [msg])).

(** ** The pandas operations the code calls *)

Definition is_str (v : value) : bool :=
  match v with VStr _ => true | _ => false end.
Definition is_num (v : value) : bool :=
  match v with VNum _ => true | _ => false end.
Definition is_bool (v : value) : bool :=
  match v with VBool _ => true | _ => false end.

(** The dtype pandas infers for a column built from Python scalars: all
    null (or no value at all) stays [object]; texts, with or without nulls,
    give [str]; numbers, with or without nulls, a numeric dtype; booleans
    without nulls [bool]; anything mixed is [object]. *)
Definition infer_dtype (vs : list value) : dtype :=
  let nn := filter (λ v, notna v = true) vs in
  match nn with
  | [] => DObject
  | _ =>
    if forallb is_str nn then DStr
    else if forallb is_num nn then DNum
    else if forallb is_bool vs then DBool
    else DObject
  end.

(** A raw record as [json.load] yields it: the fields in the order of the
    file, a repeated field keeping its last value. *)
Definition raw_record : Type := list (string * value).

Definition record_of_raw (r : raw_record) : gmap string value :=
  list_to_map (reverse r).

(** The elements of a list, each once, in the order of first appearance
    (the key order of a Python [dict], and [Series.unique]). *)
Definition first_appearance `{EqDecision A} (ks : list A) : list A :=
  foldl (λ acc k, if decide (k ∈ acc) then acc else acc ++ [k]) [] ks.

(** [pd.DataFrame(records)]: the columns are the fields met, in the order of
    first appearance; a record lacking a field holds null there.  The null
    of a lacking field is the float NaN, so a column with nothing but nulls is
    numeric as soon as one record lacks the field, and [object] when every
    record gives it as [None]. *)
Definition DataFrame_of_records (records : list raw_record) : DataFrame :=
  let rs := record_of_raw <$> records in
  let names := first_appearance (records ≫= λ r, r.*1) in
  let dtype_of (c : string) : dtype :=
    let vs := (λ r, cell r c) <$> rs in
    if forallb isna vs && existsb (λ r : raw_record, bool_decide (c ∉ r.*1)) records
    then DNum
    else infer_dtype vs in
  mkDF ((λ c, (c, dtype_of c)) <$> names)
       ((λ r, list_to_map ((λ c, (c, cell r c)) <$> names)) <$> rs).

(** [df[c]]: the column, or [KeyError]. *)
Definition getitem (df : DataFrame) (c : string) : result Series :=
  match column_dtype df c with
  | Some d => Ok (mkSeries d ((λ r, cell r c) <$> rows df))
  | None => Raise (KeyError c)
  end.

Definition set_dtype (c : string) (d : dtype) (cols : list (string * dtype))
  : list (string * dtype) :=
  if bool_decide (c ∈ cols.*1)
  then (λ cd, if decide (cd.1 = c) then (c, d) else cd) <$> cols
  else cols ++ [(c, d)].

(** [df[c] = s]: replaces the column, or appends it when it is new.  pandas
    refuses a series whose length is not that of the frame. *)
Definition setitem (df : DataFrame) (c : string) (s : Series) : result DataFrame :=
  if bool_decide (length (svalues s) = len df)
  then Ok (mkDF (set_dtype c (sdtype s) (columns df))
                (zip_with (λ r v, <[c := v]> r) (rows df) (svalues s)))
  else Raise (ValueError "Length of values does not match length of index").

(** [df[c] = v] with a scalar [v]: the value is repeated on every row. *)
Definition setitem_scalar (df : DataFrame) (c : string) (v : value) : DataFrame :=
  mkDF (set_dtype c (infer_dtype [v]) (columns df)) (<[c := v]> <$> rows df).

(** [df.drop(columns=cs)], every name of [cs] being a column. *)
Definition drop_columns (df : DataFrame) (cs : list string) : DataFrame :=
  mkDF (filter (λ cd, cd.1 ∉ cs) (columns df))
       ((λ r, foldr delete r cs) <$> rows df).

(** [df.select_dtypes(include="str").columns] *)
Definition select_dtypes_str (df : DataFrame) : list string :=
  (filter (λ cd, cd.2 = DStr) (columns df)).*1.

(** What pandas' hash table files a scalar under: Python's [==] and [hash]
    make [True] the number 1 and [False] the number 0, and nulls count as
    equal to each other. *)
Definition hash_key (v : value) : value :=
  match v with
  | VBool true => VNum (Q2Qc (inject_Z 1))
  | VBool false => VNum (Q2Qc (inject_Z 0))
  | _ => v
  end.

(** Rows marked by [df.duplicated(subset=c, keep="last")] are those followed
    by a row with an equal key. *)
Fixpoint keep_last (c : string) (rs : list (gmap string value))
  : list (gmap string value) :=
  match rs with
  | [] => []
  | r :: rest =>
    if existsb (λ r', bool_decide (hash_key (cell r' c) = hash_key (cell r c))) rest
    then keep_last c rest
    else r :: keep_last c rest
  end.

(** [df.drop_duplicates(subset=c, keep="last")]: an empty frame is copied
    before the subset is even looked at; otherwise a missing column is a
    [KeyError], raised with the index of the missing names. *)
Definition drop_duplicates_last (df : DataFrame) (c : string) : result DataFrame :=
  if df_empty df then Ok df
  else if has_column df c then Ok (mkDF (columns df) (keep_last c (rows df)))
  else Raise (KeyError ("Index(['" +:+ c +:+ "'], dtype='str')")).

(** *** Text methods *)

(** [str.isspace] on the ASCII range: tab to carriage return, the four
    separators 28 to 31, and the space. *)
Definition py_isspace (a : ascii) : bool :=
  let n := nat_of_ascii a in
  ((9 <=? n) && (n <=? 13)) || ((28 <=? n) && (n <=? 31)) || (n =? 32).

Definition string_to_list (s : string) : list ascii :=
  Stdlib.Strings.String.list_ascii_of_string s.
Definition string_of_list (l : list ascii) : string :=
  Stdlib.Strings.String.string_of_list_ascii l.

Fixpoint lstrip_list (l : list ascii) : list ascii :=
  match l with
  | a :: l' => if py_isspace a then lstrip_list l' else l
  | [] => []
  end.

(** [s.strip()] *)
Definition strip (s : string) : string :=
  string_of_list (reverse (lstrip_list (reverse (lstrip_list (string_to_list s))))).

Definition ascii_upper (a : ascii) : ascii :=
  let n := nat_of_ascii a in
  if (97 <=? n) && (n <=? 122) then ascii_of_nat (n - 32) else a.
Definition ascii_lower (a : ascii) : ascii :=
  let n := nat_of_ascii a in
  if (65 <=? n) && (n <=? 90) then ascii_of_nat (n + 32) else a.

(** [s.upper()] and [s.lower()] *)
Definition upper (s : string) : string :=
  string_of_list (ascii_upper <$> string_to_list s).
Definition lower (s : string) : string :=
  string_of_list (ascii_lower <$> string_to_list s).

Definition is_digit (a : ascii) : bool :=
  let n := nat_of_ascii a in (48 <=? n) && (n <=? 57).

(** [re.sub(r"\D", "", s)] *)
Definition digits_only (s : string) : string :=
  string_of_list (filter (λ a, is_digit a = true) (string_to_list s)).

(** [s.replace(old, new)] for an [old] that is not empty: the occurrences
    of [old] are taken from left to right, without overlap; [skip] counts the
    characters of an occurrence still to pass over. *)
Fixpoint replace_from (old new : list ascii) (skip : nat) (l : list ascii)
  : list ascii :=
  match l with
  | [] => []
  | a :: l' =>
    match skip with
    | S k => replace_from old new k l'
    | O =>
      if bool_decide (take (length old) l = old)
      then new ++ replace_from old new (length old - 1) l'
      else a :: replace_from old new 0 l'
    end
  end.

Definition replace (old new s : string) : string :=
  string_of_list
    (replace_from (string_to_list old) (string_to_list new) 0 (string_to_list s)).

(** The [.str] accessor exists on a [str] column, and on an [object] column
    unless all its non-null values are numbers or all are booleans. *)
Definition str_accessor (s : Series) : result (list value) :=
  let nn := filter (λ v, notna v = true) (svalues s) in
  let ok :=
    match sdtype s with
    | DStr => true
    | DObject =>
      match nn with
      | [] => true
      | _ => negb (forallb is_num nn || forallb is_bool nn)
      end
    | _ => false
    end in
  if ok then Ok (svalues s)
  else Raise (AttributeError "Can only use .str accessor with string values!").

(** A [.str] method works element by element; an element that is not a text
    gives null. *)
Definition str_method (f : string → string) (v : value) : value :=
  match v with VStr s => VStr (f s) | _ => VNull end.

(** [f"{xs}"] for a list of plain names: Python's [repr] of a list of [str]. *)
Fixpoint join (sep : string) (xs : list string) : string :=
  match xs with
  | [] => ""
  | [x] => x
  | x :: rest => x +:+ sep +:+ join sep rest
  end.
Definition repr_list (xs : list string) : string :=
  "[" +:+ join ", " ((λ x, "'" +:+ x +:+ "'") <$> xs) +:+ "]".



Section DropDuplicates.

(** What pandas makes of a subset that is the empty list is left open. *)
Variable empty_subset : DataFrame → result DataFrame.


End DropDuplicates.

(** [df.loc[mask, c] = v] on an existing column. *)
Definition loc_setitem (df : DataFrame) (mask : list bool) (c : string) (v : value)
  : DataFrame :=
  mkDF (columns df)
       (zip_with (λ r (m : bool), if m then <[c := v]> r else r) (rows df) mask).

(** An integer constant of the code as a number. *)
Definition num (z : Z) : Qc := Q2Qc (inject_Z z).

(** [series.between(lo, hi, inclusive="both")] on a numeric or boolean
    series: false on a null, a boolean counting as 0 or 1. *)
Definition between (lo hi : Qc) (v : value) : bool :=
  match v with
  | VNum x => bool_decide (lo ≤ x)%Qc && bool_decide (x ≤ hi)%Qc
  | VBool b =>
    let x := if b then num 1 else num 0 in
    bool_decide (lo ≤ x)%Qc && bool_decide (x ≤ hi)%Qc
  | _ => false
  end.

(** [df.loc[mask, c] = None] on an existing column.  A [bool] column cannot
    hold the null and pandas raises [TypeError], whatever the mask, unless the
    frame has no rows; a numeric column takes it as NaN. *)
Definition loc_setitem_none (df : DataFrame) (mask : list bool) (c : string)
  : result DataFrame :=
  if bool_decide (column_dtype df c = Some DBool) && negb (bool_decide (len df = 0%nat))
  then Raise (TypeError "Invalid value 'None' for dtype 'bool'")
  else Ok (loc_setitem df mask c VNull).

(** From this number on a Python [int] is too large for a float:
    [float(n)] raises [OverflowError].  No float is that large. *)
Definition float_limit : Z := (2 ^ 1024 - 2 ^ 970)%Z.

Definition overflows (v : value) : bool :=
  match v with
  | VNum x => bool_decide (num float_limit ≤ x)%Qc
              || bool_decide (x ≤ num (- float_limit))%Qc
  | _ => false
  end.

(** [mask.sum()] *)
Definition count_true (mask : list bool) : nat :=
  length (filter (λ b : bool, b = true) mask).

(** *** Directories

    A data directory has two levels: partitions, and the files inside them.
    A directory is the list of its entries in the order the operating system
    lists them, every name once.  A regular file is given by what reading it
    yields, [None] when it cannot be decoded; of a directory met where a file
    is expected nothing more is needed. *)
Inductive leaf (C : Type) : Type :=
  | RegularFile (content : option C)
  | SubDirectory.
Arguments RegularFile {C} content.
Arguments SubDirectory {C}.

Inductive node (C : Type) : Type :=
  | File (content : option C)
  | Directory (entries : list (string * leaf C)).
Arguments File {C} content.
Arguments Directory {C} entries.

Definition children {C} (n : node C) : list (string * leaf C) :=
  match n with Directory es => es | File _ => [] end.

Definition starts_with (p s : string) : bool :=
  Stdlib.Strings.String.prefix p s.
Definition ends_with (p s : string) : bool :=
  Stdlib.Strings.String.prefix (String.rev p) (String.rev s).

(** [os.path.join(a, b)] for a relative [b]. *)
Definition path_join (a b : string) : string :=
  if decide (a = "") then b
  else if ends_with "/" a then a +:+ b
  else a +:+ "/" +:+ b.

(** A name against the pattern [pre*suf]: the star stands for any text, and
    a pattern that begins with the star skips hidden names. *)
Definition glob_match (pre suf name : string) : bool :=
  starts_with pre name && ends_with suf name
  && (String.length pre + String.length suf <=? String.length name)
  && negb (bool_decide (pre = "") && starts_with "." name).

(** [glob.glob(os.path.join(dir, pre + "*" + suf))] in a directory whose
    entries are [es]: the matching paths, in listing order, each with the
    node it names. *)
Definition glob {N} (dir pre suf : string) (es : list (string * N))
  : list (string * N) :=
  (λ e, (path_join dir e.1, e.2))
    <$> filter (λ e, glob_match pre suf e.1 = true) es.

Definition path_le {N} : relation (string * N) :=
  λ a b, (a.1 ≤ b.1)%string.

(** [sorted(paths)], each path carrying its node along. *)
Definition sorted {N} (ps : list (string * N)) : list (string * N) :=
  merge_sort path_le ps.

(** *** Grouping, sorting and arithmetic *)

(** The order pandas sorts by: numbers (a boolean counting as 0 or 1) by
    value, texts by code point, numbers before texts; nulls are handled by
    the callers, which always put them last. *)
Definition numeric (v : value) : Qc :=
  match v with
  | VNum x => x
  | VBool true => num 1
  | _ => num 0
  end.

Definition value_compare (a b : value) : comparison :=
  match a, b with
  | VNull, VNull => Eq
  | VNull, _ => Gt
  | _, VNull => Lt
  | VStr s, VStr t => Stdlib.Strings.String.compare s t
  | VStr _, _ => Gt
  | _, VStr _ => Lt
  | _, _ => (numeric a ?= numeric b)%Qc
  end.

(** One sort key: ascending or descending, nulls last either way. *)
Definition directed_compare (ascending : bool) (a b : value) : comparison :=
  match a, b with
  | VNull, _ | _, VNull => value_compare a b
  | _, _ => if ascending then value_compare a b else value_compare b a
  end.

Fixpoint rows_compare (ks : list (string * bool)) (r1 r2 : gmap string value)
  : comparison :=
  match ks with
  | [] => Eq
  | (c, ascending) :: rest =>
    match directed_compare ascending (cell r1 c) (cell r2 c) with
    | Eq => rows_compare rest r1 r2
    | o => o
    end
  end.

Definition rows_le (ks : list (string * bool)) : relation (gmap string value) :=
  λ r1 r2, rows_compare ks r1 r2 ≠ Gt.

(** [table.sort_values(cols, ascending=flags)], every column of [ks] being a
    column of the table.  Rows that compare equal come in the order the merge
    sort gives them, which is not the order pandas gives them (that one
    depends on the sorting algorithm of numpy): what is proved below holds
    for either order of such rows. *)
Definition sort_values (ks : list (string * bool)) (df : DataFrame) : DataFrame :=
  mkDF (columns df) (merge_sort (rows_le ks) (rows df)).

(** [table.head(n)]: the first [n] rows, all but the last [-n] when [n] is
    negative. *)
Definition head_rows (n : Z) (df : DataFrame) : DataFrame :=
  mkDF (columns df)
       (if bool_decide (0 ≤ n)%Z then take (Z.to_nat n) (rows df)
        else take (len df - Z.to_nat (- n)) (rows df)).

(** The key of a row under the group-ks columns. *)
Definition key_of (ks : list string) (r : gmap string value) : list value :=
  cell r <$> ks.

Definition keys_le (ks : list string) : relation (list value) :=
  λ k1 k2,
    rows_compare ((λ c, (c, true)) <$> ks)
      (list_to_map (zip ks k1)) (list_to_map (zip ks k2)) ≠ Gt.

(** [df.groupby(ks, dropna=...)]: a [KeyError] for a key that is no column;
    the groups in the order of their keys, each with its rows in the order of
    the frame.  With [dropna] (the default of pandas) a row with a null in
    its key belongs to no group. *)
Definition groupby (df : DataFrame) (ks : list string) (dropna : bool)
  : result (list (list value * list (gmap string value))) :=
  match filter (λ c, has_column df c = false) ks with
  | c :: _ => Raise (KeyError c)
  | [] =>
    let rs :=
      if dropna
      then filter (λ r, forallb notna (key_of ks r) = true) (rows df)
      else rows df in
    let keys := merge_sort (keys_le ks) (first_appearance (key_of ks <$> rs)) in
    Ok ((λ k, (k, filter (λ r, key_of ks r = k) rs)) <$> keys)
  end.

(** The group aggregations: [count] (non-null cells), [size], [nunique]
    (distinct non-null cells), [sum] of a boolean column and [mean]. *)
Definition agg_count (c : string) (g : list (gmap string value)) : nat :=
  length (filter (λ r, notna (cell r c) = true) g).
Definition agg_size (g : list (gmap string value)) : nat := length g.
Definition agg_nunique (c : string) (g : list (gmap string value)) : nat :=
  length (first_appearance (filter (λ v, notna v = true) ((λ r, cell r c) <$> g))).
Definition agg_sum_bool (c : string) (g : list (gmap string value)) : nat :=
  length (filter (λ r, cell r c = VBool true) g).
Definition agg_mean (c : string) (g : list (gmap string value)) : value :=
  match filter (λ v, notna v = true) ((λ r, cell r c) <$> g) with
  | [] => VNull
  | vs =>
    VNum (foldr (λ v acc, numeric v + acc) (num 0) vs
          / num (Z.of_nat (length vs)))%Qc
  end.

Definition of_nat (n : nat) : value := VNum (num (Z.of_nat n)).

Definition round_half_even (q : Q) : Z :=
  let f := Qfloor q in
  match (q - inject_Z f ?= 1 # 2)%Q with
  | Lt => f
  | Gt => (f + 1)%Z
  | Eq => if Z.even f then f else (f + 1)%Z
  end.

(** [x.round(2)], on the exact value, half to even.  The code rounds the
    binary float, so a score can differ from this one in its last digit
    (14.37 for 23 of 160, where the exact 14.375 rounds to 14.38): what is
    proved below about a score is stated only where the two agree. *)
Definition round2 (x : Qc) : Qc :=
  Q2Qc (Qmake (round_half_even (this x * 100)%Q) 100).

(** [a / b * 100] rounded to two decimals, on exact rationals; a division
    by zero, which gives NaN or an infinity in Python, gives null here.
    Nothing is proved below about the value of this score. *)
Definition percentage (a b : Qc) : value :=
  if decide (b = num 0) then VNull
  else VNum (round2 (a / b * num 100)%Qc).

(** [.reset_index()] after an aggregation: the key columns, with the dtype
    they have in the frame, then the aggregated columns. *)
Definition reset_index (df : DataFrame) (ks : list string)
    (aggregated : list (string * dtype))
    (body : list (list value * list value)) : DataFrame :=
  mkDF (((λ c, (c, default DObject (column_dtype df c))) <$> ks) ++ aggregated)
       ((λ kv, list_to_map (zip ks kv.1 ++ zip aggregated.*1 kv.2)) <$> body).

(** ** silver.py *)

Module silver.


Section Bronze.

(** [fnmatch.fnmatch(name, pattern)] for a pattern that holds one of the
    characters [*], [?] and [[]: the matcher belongs to the library and is
    left open. *)
Variable fnmatch : string → string → bool.





End Bronze.

Section Silver.

(** How pandas reads a text as a number ([pd.to_numeric]), [None] when it
    cannot; and Python's [str] on a number.  Both belong to the libraries
    and are left open: what is proved holds whatever they compute. *)
Variable parse_number : string → option Qc.
Variable str_of_number : Qc → string.

Definition KNOWN_BREWERY_TYPES : gset string :=
  {[ "micro"; "nano"; "regional"; "brewpub"; "large";
     "planning"; "bar"; "contract"; "proprietor"; "taproom"; "closed" ]}.

(** The number a cell stands for, if any: what
    [pd.to_numeric(..., errors="coerce")] keeps. *)
Definition to_number (v : value) : option Qc :=
  match v with
  | VNum x => Some x
  | VStr s => parse_number s
  | VBool b => Some (if b then num 1 else num 0)
  | VNull => None
  end.

(** [pd.to_numeric(series, errors="coerce")].  A series of a numeric or
    boolean dtype comes back as it is.  Otherwise the values are converted one
    by one, a text that is no number becoming null: an integer too large for
    a float raises [OverflowError] all the same; values that are all
    booleans make a [bool] series; anything else a numeric one, a boolean
    counting as 0 or 1. *)
Definition to_numeric_coerce (s : Series) : result Series :=
  match sdtype s with
  | DNum | DBool => Ok s
  | DStr | DObject =>
    if existsb overflows (svalues s)
    then Raise (OverflowError "int too large to convert to float")
    else
      match svalues s with
      | _ :: _ =>
        if forallb is_bool (svalues s) then Ok (mkSeries DBool (svalues s))
        else Ok (mkSeries DNum
                   ((λ v, from_option VNum VNull (to_number v)) <$> svalues s))
      | [] => Ok (mkSeries DNum [])
      end
  end.

(** [str(x)] on a non-null cell. *)
Definition py_str (v : value) : string :=
  match v with
  | VStr s => s
  | VNum x => str_of_number x
  | VBool true => "True"
  | VBool false => "False"
  | VNull => "None"
  end.

Definition deduplicate (df : DataFrame) : Py Console DataFrame :=
  let before := len df in
  df ← lift (drop_duplicates_last df "id");
  let dropped := (Z.of_nat before - Z.of_nat (len df))%Z in
  info ("Deduplicação: removidos " +:+ pretty dropped
        +:+ " duplicado(s). Restantes: " +:+ pretty (len df));;
  mret df.

(** [df[col] = df[col].str.strip()] *)
Definition strip_column (df : DataFrame) (col : string) : result DataFrame :=
  s ← getitem df col;
  vs ← str_accessor s;
  setitem df col (mkSeries (sdtype s) (str_method strip <$> vs)).

(** [for x in xs: df = body(df, x)] *)
Fixpoint for_each {A} (xs : list A) (body : DataFrame → A → result DataFrame)
    (df : DataFrame) : result DataFrame :=
  match xs with
  | [] => Ok df
  | x :: rest => df' ← body df x; for_each rest body df'
  end.

Definition clean_strings (df : DataFrame) : Py Console DataFrame :=
  let str_cols := select_dtypes_str df in
  df ← lift (for_each str_cols strip_column df);
  info "Colunas de texto limpas (espaços removidos).";;
  mret df.

Definition normalize_phone (df : DataFrame) : Py Console DataFrame :=
  df ← (if has_column df "phone" then
          s ← lift (getitem df "phone");
          let applied :=
            (λ x, if notna x then VStr (digits_only (py_str x)) else VNull)
              <$> svalues s in
          df ← lift (setitem df "phone" (mkSeries (infer_dtype applied) applied));
          s ← lift (getitem df "phone");
          lift (setitem df "phone"
                  (mkSeries (sdtype s)
                     ((λ v, if decide (v = VStr "") then VNull else v) <$> svalues s)))
        else mret df);
  info "Números de telefone normalizados (apenas dígitos).";;
  mret df.

Definition normalize_postal_code (df : DataFrame) : Py Console DataFrame :=
  df ← (if has_column df "postal_code" then
          s ← lift (getitem df "postal_code");
          vs ← lift (str_accessor s);
          let stripped := mkSeries (sdtype s) (str_method strip <$> vs) in
          vs ← lift (str_accessor stripped);
          lift (setitem df "postal_code"
                  (mkSeries (sdtype s) (str_method upper <$> vs)))
        else mret df);
  info "Códigos postais normalizados.";;
  mret df.

(** One of the two blocks of [validate_coordinates]. *)
Definition validate_axis (c : string) (lo hi : Qc) (what : string)
    (df : DataFrame) : Py Console DataFrame :=
  if has_column df c then
    s ← lift (getitem df c);
    converted ← lift (to_numeric_coerce s);
    df ← lift (setitem df c converted);
    s ← lift (getitem df c);
    let invalid := (λ v, negb (between lo hi v)) <$> svalues s in
    df ← lift (loc_setitem_none df invalid c);
    info ("Coordenadas: " +:+ pretty (count_true invalid) +:+ " " +:+ what
          +:+ " inválida(s) anulada(s).");;
    mret df
  else mret df.

Definition validate_coordinates (df : DataFrame) : Py Console DataFrame :=
  df ← validate_axis "longitude" (num (-180)) (num 180) "longitude(s)" df;
  df ← validate_axis "latitude" (num (-90)) (num 90) "latitude(s)" df;
  mret df.

Definition standardize_brewery_type (df : DataFrame) : Py Console DataFrame :=
  df ← (if has_column df "brewery_type" then
          s ← lift (getitem df "brewery_type");
          vs ← lift (str_accessor s);
          let lowered := mkSeries (sdtype s) (str_method lower <$> vs) in
          vs ← lift (str_accessor lowered);
          df ← lift (setitem df "brewery_type"
                       (mkSeries (sdtype s) (str_method strip <$> vs)));
          s ← lift (getitem df "brewery_type");
          let applied :=
            (λ x, match x with
                  | VStr t => if decide (t ∈ KNOWN_BREWERY_TYPES) then x
                              else VStr "unknown"
                  | _ => VStr "unknown"
                  end) <$> svalues s in
          lift (setitem df "brewery_type" (mkSeries (infer_dtype applied) applied))
        else mret df);
  info "Tipo de cervejaria (brewery_type) padronizado.";;
  mret df.

Definition drop_redundant_columns (df : DataFrame) : Py Console DataFrame :=
  let cols_to_drop :=
    filter (λ c, has_column df c = true) ["address_2"; "address_3"; "street"] in
  let df := drop_columns df cols_to_drop in
  info ("Colunas redundantes removidas: " +:+ repr_list cols_to_drop);;
  mret df.

(** [now] is the reading of the UTC clock, already formatted. *)
Definition add_metadata (now : string) (df : DataFrame) : Py Console DataFrame :=
  let df := setitem_scalar df "processed_at" (VStr now) in
  info "Metadados (processed_at) adicionados.";;
  mret df.

Definition transform (now : string) (df : DataFrame) : Py Console DataFrame :=
  df ← deduplicate df;
  df ← clean_strings df;
  df ← normalize_phone df;
  df ← normalize_postal_code df;
  df ← validate_coordinates df;
  df ← standardize_brewery_type df;
  df ← drop_redundant_columns df;
  df ← add_metadata now df;
  mret df.

(** What [save_silver] works on: the console, and the files it writes
    (path to content).  Creating the directories is not modelled, nor is a
    write that the file system refuses. *)
Record Store : Type := mkStore {
  store_console : Console;
  silver_files : gmap string DataFrame
}.

Definition on_store_console {A} (m : Py Console A) : Py Store A :=
  λ st, let '(r, c) := m (store_console st) in (r, mkStore c (silver_files st)).

(** What the Parquet engine makes of a frame: [None] when it takes it, or
    the exception it raises before it writes anything (pyarrow refuses, for
    one, an [object] column that mixes texts and numbers).  The engine
    belongs to the libraries and is left open: what is proved holds whatever
    it refuses. *)
Variable parquet_refuses : DataFrame → option exn.

(** [group.to_parquet(path, index=False, engine="pyarrow")] *)
Definition to_parquet (path : string) (df : DataFrame) : Py Store unit :=
  λ st,
    match parquet_refuses df with
    | Some e => (Raise e, st)
    | None => (Ok tt, mkStore (store_console st) (<[path := df]> (silver_files st)))
    end.

(** [group.to_csv(path, index=False)] *)
Definition to_csv (path : string) (df : DataFrame) : Py Store unit :=
  λ st, (Ok tt, mkStore (store_console st) (<[path := df]> (silver_files st))).

(** The loop of [save_silver] over the groups of [df.groupby("brewery_type")],
    each a key and its rows. *)
Fixpoint save_groups (df : DataFrame) (silver_dir timestamp : string)
    (groups : list (list value * list (gmap string value)))
    (total_written : nat) : Py Store nat :=
  match groups with
  | [] => mret total_written
  | (key, group_rows) :: rest =>
    let brewery_type := default VNull (head key) in
    let group := mkDF (columns df) group_rows in
    let partition_dir :=
      path_join silver_dir ("brewery_type=" +:+ py_str brewery_type) in
    let file_path :=
      path_join partition_dir ("breweries_" +:+ timestamp +:+ ".parquet") in
    to_parquet file_path group;;
    let csv_path := replace ".parquet" ".csv" file_path in
    to_csv csv_path group;;
    on_store_console
      (info ("Salvos " +:+ pretty (len group) +:+ " registros -> " +:+ file_path
             +:+ " (Parquet & CSV)"));;
    save_groups df silver_dir timestamp rest (total_written + len group)
  end.

(** [timestamp] is the reading of the local clock, already formatted. *)
Definition save_silver (timestamp : string) (df : DataFrame) (silver_dir : string)
    : Py Store unit :=
  groups ← lift (groupby df ["brewery_type"] true);
  total_written ← save_groups df silver_dir timestamp groups 0;
  on_store_console
    (info ("Camada Silver concluida. Total de registros gravados: "
           +:+ pretty total_written));;
  on_store_console
    (print ("Camada Silver concluida! " +:+ pretty total_written
            +:+ " registros gravados em: " +:+ silver_dir)).

End Silver.
End silver.

(** ** data_quality.py *)

Module dq.

(** The dictionary every check returns. *)
Record CheckResult : Type := mkCheck {
  check_name : string;
  passed : bool;
  details : string
}.

Definition _log (result : CheckResult) : Py Console unit :=
  let lvl := if passed result then INFO else WARNING in
  log lvl ("[" +:+ check_name result +:+ "] " +:+ details result).

(** [series.dropna()] *)
Definition dropna (vs : list value) : list value :=
  filter (λ v, notna v = true) vs.

(** [series.isna().mean()]: no value on an empty series (NaN). *)
Definition null_rate (vs : list value) : option Qc :=
  match vs with
  | [] => None
  | _ =>
    Some (Q2Qc (Qmake (Z.of_nat (length (filter (λ v, isna v = true) vs)))
                      (Pos.of_nat (length vs))))
  end.

(** [s * n] on a text. *)
Fixpoint repeat_string (s : string) (n : nat) : string :=
  match n with 0 => "" | S n' => s +:+ repeat_string s n' end.

Section Checks.

(** Python's formatting of a ratio as a percentage with two decimals
    ([:.2%]) and its [repr] of a scalar; both belong to the language. *)
Variable format_percent : Qc → string.
Variable repr_value : value → string.

(** [df.drop_duplicates(subset=[])], which belongs to pandas. *)
Variable drop_duplicates_no_column : DataFrame → result DataFrame.

(** The body of the loop of [check_nulls], for one column. *)
Definition check_nulls_column (df : DataFrame) (threshold : Qc)
    (issues : list string) (col : string) : result (list string) :=
  if negb (has_column df col)
  then Ok (issues ++ ["Coluna '" +:+ col +:+ "' não encontrada no DataFrame."])
  else
    s ← getitem df col;
    match null_rate (svalues s) with
    | Some rate =>
      if bool_decide (threshold < rate)%Qc
      then Ok (issues ++
               ["Taxa de nulos em '" +:+ col +:+ "' (" +:+ format_percent rate
                +:+ ") excede o limite de " +:+ format_percent threshold +:+ "."])
      else Ok issues
    | None => Ok issues
    end.

Fixpoint check_nulls_loop (df : DataFrame) (threshold : Qc)
    (columns : list string) (issues : list string) : result (list string) :=
  match columns with
  | [] => Ok issues
  | col :: rest =>
    issues ← check_nulls_column df threshold issues col;
    check_nulls_loop df threshold rest issues
  end.

Definition check_nulls (df : DataFrame) (columns : list string)
    (threshold : Qc) : Py Console CheckResult :=
  issues ← lift (check_nulls_loop df threshold columns []);
  let passed := bool_decide (length issues = 0) in
  let details :=
    if passed then "Todas as verificações de nulos passaram."
    else join " | " issues in
  let result := mkCheck "check_nulls" passed details in
  _log result;;
  mret result.

(** [f"{xs}"] for a list of names: the [repr] of each, between brackets. *)
Definition repr_names (xs : list string) : string :=
  "[" +:+ join ", " ((λ x, repr_value (VStr x)) <$> xs) +:+ "]".


Definition check_volume (df : DataFrame) (min_rows : Z) (max_rows : option Z)
    : Py Console CheckResult :=
  let n := Z.of_nat (len df) in
  let issues := [] in
  let issues :=
    if bool_decide (n < min_rows)%Z
    then issues ++ ["Contagem de linhas " +:+ pretty n
                    +:+ " está abaixo do mínimo de " +:+ pretty min_rows +:+ "."]
    else issues in
  let issues :=
    match max_rows with
    | Some m =>
      if bool_decide (m < n)%Z
      then issues ++ ["Contagem de linhas " +:+ pretty n
                      +:+ " excede o máximo de " +:+ pretty m +:+ "."]
      else issues
    | None => issues
    end in
  let passed := bool_decide (length issues = 0) in
  let details :=
    if passed then "Volume OK: " +:+ pretty n +:+ " linhas."
    else join " | " issues in
  let result := mkCheck "check_volume" passed details in
  _log result;;
  mret result.

Definition check_allowed_values (df : DataFrame) (column : string)
    (allowed : list value) (null_ok : bool) : Py Console CheckResult :=
  if negb (has_column df column) then
    let result :=
      mkCheck "check_allowed_values" false
              ("Coluna '" +:+ column +:+ "' não encontrada.") in
    _log result;;
    mret result
  else
    s ← lift (getitem df column);
    let series := if null_ok then svalues s else dropna (svalues s) in
    let invalid :=
      filter (λ v, negb (bool_decide (v ∈ allowed)) = true) (dropna series) in
    let passed := bool_decide (length invalid = 0) in
    let details :=
      if passed then "Todos os valores em '" +:+ column +:+ "' são válidos."
      else "'" +:+ column +:+ "' possui " +:+ pretty (length invalid)
           +:+ " valor(es) inválido(s): ["
           +:+ join ", " (repr_value <$> take 10 (first_appearance invalid))
           +:+ "]" in
    let result := mkCheck "check_allowed_values" passed details in
    _log result;;
    mret result.

Definition check_schema (df : DataFrame) (expected_columns : list string)
    : Py Console CheckResult :=
  let missing := filter (λ c, has_column df c = false) expected_columns in
  let passed := bool_decide (length missing = 0) in
  let details :=
    if passed then "Verificação de schema passou."
    else "Colunas ausentes: " +:+ repr_names missing in
  let result := mkCheck "check_schema" passed details in
  _log result;;
  mret result.

End Checks.

(** [for c in checks: print(...)] *)
Fixpoint print_report (checks : list CheckResult) : Py Console unit :=
  match checks with
  | [] => mret tt
  | c :: rest =>
    let status := if passed c then "PASS" else "FAIL" in
    print ("  " +:+ status +:+ "  [" +:+ check_name c +:+ "] " +:+ details c);;
    print_report rest
  end.

Definition run_suite (checks : list CheckResult) (raise_on_failure : bool)
    : Py Console bool :=
  let all_passed := forallb passed checks in
  print "
Relatorio de Qualidade de Dados";;
  print (repeat_string "=" 50);;
  print_report checks;;
  print (repeat_string "=" 50);;
  let overall :=
    if all_passed then "TODAS AS VERIFICACOES PASSARAM"
    else "ALGUMAS VERIFICACOES FALHARAM" in
  print ("  Geral: " +:+ overall +:+ "
");;
  if negb all_passed && raise_on_failure
  then raise (ValueError
                "A suíte de qualidade de dados falhou. Veja o relatório acima.")
  else mret all_passed.

End dq.

(** ** gold.py *)

Module gold.

(** What [process_gold] works on: the frame bound to [silver_df], which
    the aggregations receive by reference, the console, and the files of
    the Gold directory (path to content). *)
Record World : Type := mkWorld {
  frame : DataFrame;
  console : Console;
  gold_files : gmap string DataFrame
}.

(** A function of the other modules, run on the console of the world. *)
Definition on_console {A} (m : Py Console A) : Py World A :=
  λ w, let '(r, c) := m (console w) in (r, mkWorld (frame w) c (gold_files w)).

Definition get_frame : Py World DataFrame := λ w, (Ok (frame w), w).

(** [df[c] = s] on the frame the caller passed: the caller sees it. *)
Definition frame_setitem (c : string) (s : Series) : Py World unit :=
  λ w, match setitem (frame w) c s with
       | Ok df => (Ok tt, mkWorld df (console w) (gold_files w))
       | Raise e => (Raise e, w)
       end.

(** [pd.concat(dfs, ignore_index=True)]: the columns in the order of first
    appearance, a column keeping its dtype when every part has it with that
    dtype and turning [object] otherwise; the rows one part after another. *)
Definition concat (dfs : list DataFrame) : DataFrame :=
  let names := first_appearance (dfs ≫= column_names) in
  mkDF ((λ c,
          (c, match dfs with
              | [] => DObject
              | d :: _ =>
                let t := column_dtype d c in
                if forallb (λ d', bool_decide (column_dtype d' c = t)) dfs
                then default DObject t else DObject
              end)) <$> names)
       (dfs ≫= rows).

(** [name.split("=", 1)[-1]] *)
Fixpoint after_equals (name : string) : string :=
  match name with
  | String a rest => if decide (a = "="%char) then rest else after_equals rest
  | EmptyString => ""
  end.
Definition partition_value (name : string) : string :=
  if bool_decide ("="%char ∈ string_to_list name) then after_equals name else name.

(** The loop of [load_silver] over the files of one partition directory,
    [btype] being the value in the name of the directory. *)
Fixpoint read_parquet_files (btype : string)
    (files : list (string * leaf DataFrame)) (dfs : list DataFrame)
    : result (list DataFrame) :=
  match files with
  | [] => Ok dfs
  | (fp, RegularFile (Some df_part)) :: rest =>
    let df_part :=
      if negb (has_column df_part "brewery_type")
      then setitem_scalar df_part "brewery_type" (VStr btype)
      else df_part in
    read_parquet_files btype rest (dfs ++ [df_part])
  | (fp, RegularFile None) :: _ => Raise (ValueError fp)
  | (fp, SubDirectory) :: _ => Raise (IsADirectoryError fp)
  end.

Fixpoint read_partitions (silver_dir : string)
    (parts : list (string * node DataFrame)) (dfs : list DataFrame)
    : result (list DataFrame) :=
  match parts with
  | [] => Ok dfs
  | (name, n) :: rest =>
    dfs ← read_parquet_files (partition_value name)
            (glob (path_join silver_dir name) "" ".parquet" (children n)) dfs;
    read_partitions silver_dir rest dfs
  end.

(** [fs] is the listing of the directory [silver_dir]. *)
Definition load_silver (fs : list (string * node DataFrame))
    (silver_dir : string) : Py Console DataFrame :=
  let parts := filter (λ e, glob_match "brewery_type=" "" e.1 = true) fs in
  let parquet_files :=
    parts ≫= λ e, glob (path_join silver_dir e.1) "" ".parquet" (children e.2) in
  match parquet_files with
  | [] =>
    raise (FileNotFoundError
             ("Nenhum arquivo Parquet encontrado na camada Silver: " +:+ silver_dir))
  | _ =>
    dfs ← lift (read_partitions silver_dir parts []);
    let df := concat dfs in
    info ("Carregados " +:+ pretty (len df) +:+ " registros de "
          +:+ pretty (length parquet_files) +:+ " arquivo(s) Silver.");;
    mret df
  end.

(** The rows of the group with a given key, if there is one. *)
Definition group_of (groups : list (list value * list (gmap string value)))
    (k : list value) : option (list (gmap string value)) :=
  (λ p, p.2.2) <$> list_find (λ g, g.1 = k) groups.

(** [df.groupby(ks, dropna=False).agg(brewery_count=("id", "count"))
      .reset_index()], shared by the four counting aggregations. *)
Definition count_by (df : DataFrame) (ks : list string) : result DataFrame :=
  groups ← groupby df ks false;
  if has_column df "id"
  then Ok (reset_index df ks [("brewery_count", DNum)]
             ((λ g, (g.1, [of_nat (agg_count "id" g.2)])) <$> groups))
  else Raise (KeyError "id").

Definition agg_breweries_by_type_and_state : Py World DataFrame :=
  df ← get_frame;
  counted ← lift (count_by df ["brewery_type"; "state_province"]);
  let result :=
    sort_values [("state_province", true); ("brewery_count", false)] counted in
  on_console (info ("[agg_by_type_and_state] Produzidas "
                    +:+ pretty (len result) +:+ " linhas."));;
  mret result.

Definition agg_breweries_by_country_and_type : Py World DataFrame :=
  df ← get_frame;
  counted ← lift (count_by df ["country"; "brewery_type"]);
  let result :=
    sort_values [("country", true); ("brewery_count", false)] counted in
  on_console (info ("[agg_by_country_and_type] Produzidas "
                    +:+ pretty (len result) +:+ " linhas."));;
  mret result.

Definition agg_top_cities (top_n : Z) : Py World DataFrame :=
  df ← get_frame;
  counted ← lift (count_by df ["city"; "state_province"; "country"]);
  let result := head_rows top_n (sort_values [("brewery_count", false)] counted) in
  on_console (info ("[agg_top_cities] Top " +:+ pretty top_n
                    +:+ " cidades calculadas."));;
  mret result.

Definition agg_geo_coverage : Py World DataFrame :=
  df ← get_frame;
  counted ← lift (count_by df ["country"; "state_province"; "city"]);
  let result :=
    sort_values [("country", true); ("state_province", true);
                 ("brewery_count", false)] counted in
  on_console (info ("[agg_per_location] Produzidas "
                    +:+ pretty (len result) +:+ " linhas."));;
  mret result.

Definition agg_digital_maturity : Py World DataFrame :=
  df ← get_frame;
  s ← lift (getitem df "website_url");
  frame_setitem "has_website" (mkSeries DBool ((λ v, VBool (notna v)) <$> svalues s));;
  df ← get_frame;
  s ← lift (getitem df "phone");
  frame_setitem "has_phone" (mkSeries DBool ((λ v, VBool (notna v)) <$> svalues s));;
  df ← get_frame;
  w ← lift (getitem df "has_website");
  p ← lift (getitem df "has_phone");
  frame_setitem "digitally_ready"
    (mkSeries DBool
       (zip_with (λ a b, VBool (bool_decide (a = VBool true)
                                && bool_decide (b = VBool true)))
                 (svalues w) (svalues p)));;
  df ← get_frame;
  groups ← lift (groupby df ["state_province"] true);
  (if has_column df "id" then mret tt else raise (KeyError "id"));;
  let result :=
    sort_values [("maturity_score", false)]
      (reset_index df ["state_province"]
         [("total_breweries", DNum); ("digitally_ready_count", DNum);
          ("maturity_score", DNum)]
         ((λ g,
            let total := agg_count "id" g.2 in
            let ready := agg_sum_bool "digitally_ready" g.2 in
            (g.1, [of_nat total; of_nat ready;
                   percentage (num (Z.of_nat ready)) (num (Z.of_nat total))]))
            <$> groups)) in
  on_console (info ("[agg_digital_maturity] Calculada maturidade para "
                    +:+ pretty (len result) +:+ " estados."));;
  mret result.

Definition agg_regional_diversity : Py World DataFrame :=
  df ← get_frame;
  groups ← lift (groupby df ["state_province"] true);
  (if has_column df "brewery_type" then mret tt
   else raise (KeyError "Column not found: brewery_type"));;
  let result :=
    sort_values [("unique_brewery_types", false)]
      (reset_index df ["state_province"] [("unique_brewery_types", DNum)]
         ((λ g, (g.1, [of_nat (agg_nunique "brewery_type" g.2)])) <$> groups)) in
  on_console (info ("[agg_regional_diversity] Calculada diversidade para "
                    +:+ pretty (len result) +:+ " estados."));;
  mret result.

Definition agg_market_specialization : Py World DataFrame :=
  df ← get_frame;
  s ← lift (getitem df "brewery_type");
  let micro :=
    mkDF (columns df)
         (filter (λ r, cell r "brewery_type" = VStr "micro") (rows df)) in
  micro_counts ← lift (groupby micro ["state_province"] true);
  total_counts ← lift (groupby df ["state_province"] true);
  let result :=
    sort_values [("total_brewery_count", false)]
      (reset_index df ["state_province"]
         [("total_brewery_count", DNum); ("micro_brewery_count", DNum)]
         ((λ g,
            (g.1, [of_nat (agg_size g.2);
                   of_nat (default 0 (agg_size <$> group_of micro_counts g.1))]))
            <$> total_counts)) in
  on_console (info ("[agg_market_specialization] Calculada especialização para "
                    +:+ pretty (len result) +:+ " estados."));;
  mret result.

Definition agg_data_trust_score : Py World DataFrame :=
  let critical_cols := ["address_1"; "phone"; "website_url"] in
  df ← get_frame;
  match filter (λ c, has_column df c = false) critical_cols with
  | c :: _ => raise (KeyError c)
  | [] => mret tt
  end;;
  frame_setitem "completeness"
    (mkSeries DNum
       ((λ r, VNum (num (Z.of_nat
                      (length (filter (λ c, notna (cell r c) = true) critical_cols)))
                    / num (Z.of_nat (length critical_cols)))%Qc)
          <$> rows df));;
  df ← get_frame;
  groups ← lift (groupby df ["state_province"] true);
  let result :=
    sort_values [("trust_score", false)]
      (reset_index df ["state_province"] [("trust_score", DNum)]
         ((λ g,
            (g.1, [match agg_mean "completeness" g.2 with
                   | VNum m => VNum (round2 (m * num 100)%Qc)
                   | v => v
                   end]))
            <$> groups)) in
  on_console (info ("[agg_data_trust_score] Calculado trust score para "
                    +:+ pretty (len result) +:+ " estados."));;
  mret result.

Section Gold.

(** Python's percentage formatting (used by the null check), the
    configured directories, the clock reading taken when the table of a
    given name is saved, and the documentation step, which belongs to
    another component. *)
Variable format_percent : Qc → string.
Variables SILVER_DIR GOLD_DIR : string.
Variable timestamp : string → string.
Variable run_documentation_pipeline : list (string * DataFrame) → Py World unit.

(** The loop of [run_gold_dq] over [aggregations.items()]. *)
Fixpoint gold_checks (aggregations : list (string * DataFrame))
    (all_checks : list dq.CheckResult) : Py Console (list dq.CheckResult) :=
  match aggregations with
  | [] => mret all_checks
  | (name, df) :: rest =>
    c ← dq.check_volume df 1 None;
    let all_checks := all_checks ++ [c] in
    all_checks ←
      (if has_column df "brewery_count" then
         c ← dq.check_nulls format_percent df ["brewery_count"] (num 0);
         mret (all_checks ++ [c])
       else mret all_checks);
    gold_checks rest all_checks
  end.

Definition run_gold_dq (aggregations : list (string * DataFrame))
    : Py Console unit :=
  info "Executando verificações de qualidade da camada Gold...";;
  all_checks ← gold_checks aggregations [];
  dq.run_suite all_checks true;;
  mret tt.

(** Writing a file creates it or replaces its content. *)
Definition write_file (path : string) (df : DataFrame) : Py World unit :=
  λ w, (Ok tt, mkWorld (frame w) (console w) (<[path := df]> (gold_files w))).

Definition save_gold (df : DataFrame) (name : string) (gold_dir : string)
    : Py World string :=
  let ts := timestamp name in
  let ts_parquet_path := path_join gold_dir (name +:+ "_" +:+ ts +:+ ".parquet") in
  write_file ts_parquet_path df;;
  let ts_csv_path := path_join gold_dir (name +:+ "_" +:+ ts +:+ ".csv") in
  write_file ts_csv_path df;;
  on_console (info ("Tabela Gold '" +:+ name
                    +:+ "' salva (Parquet & CSV) com timestamp " +:+ ts));;
  on_console (print ("  OK " +:+ name +:+ ": " +:+ pretty (len df)
                     +:+ " linhas salvas (Parquet & CSV)."));;
  mret ts_parquet_path.

(** [for table_name, agg_df in aggregations.items(): save_gold(...)] *)
Fixpoint save_all (aggregations : list (string * DataFrame)) : Py World unit :=
  match aggregations with
  | [] => mret tt
  | (table_name, agg_df) :: rest =>
    save_gold agg_df table_name GOLD_DIR;;
    save_all rest
  end.

(** [fs] is the listing of [SILVER_DIR]. *)
Definition process_gold (fs : list (string * node DataFrame)) : Py World unit :=
  on_console (info "=== Início da agregação Gold ===");;
  silver_df ← on_console (load_silver fs SILVER_DIR);
  (λ w, (Ok tt, mkWorld silver_df (console w) (gold_files w)));;
  a1 ← agg_breweries_by_type_and_state;
  a2 ← agg_breweries_by_country_and_type;
  a3 ← agg_top_cities 20;
  a4 ← agg_geo_coverage;
  a5 ← agg_digital_maturity;
  a6 ← agg_regional_diversity;
  a7 ← agg_market_specialization;
  a8 ← agg_data_trust_score;
  let aggregations :=
    [("breweries_by_type_and_state", a1);
     ("breweries_by_country_and_type", a2);
     ("top_cities_by_brewery_count", a3);
     ("geo_coverage_by_state", a4);
     ("digital_maturity", a5);
     ("regional_diversity", a6);
     ("market_specialization", a7);
     ("data_trust_score", a8)] in
  on_console (run_gold_dq aggregations);;
  run_documentation_pipeline aggregations;;
  on_console (print ("
Salvando " +:+ pretty (length aggregations) +:+ " tabelas Gold:"));;
  save_all aggregations;;
  on_console (info "=== Agregação Gold finalizada com sucesso ===").

End Gold.

End gold.

(** ** Running the model

    A concrete reading of the two library functions the Silver section
    leaves open, for evaluating the transforms on examples: plain decimal
    notation, with an optional sign and surrounding white space. *)

Fixpoint digits_value (l : list ascii) (acc : Z) : option Z :=
  match l with
  | [] => Some acc
  | a :: l' =>
    if is_digit a
    then digits_value l' (10 * acc + Z.of_nat (nat_of_ascii a - 48))%Z
    else None
  end.

Definition split_sign (l : list ascii) : bool * list ascii :=
  match l with
  | a :: l' =>
    if decide (a = "-"%char) then (true, l')
    else if decide (a = "+"%char) then (false, l')
    else (false, l)
  | [] => (false, [])
  end.

Fixpoint split_point (l : list ascii) : list ascii * list ascii :=
  match l with
  | [] => ([], [])
  | a :: l' =>
    if decide (a = "."%char) then ([], l')
    else let '(i, f) := split_point l' in (a :: i, f)
  end.

Definition decimal_of_string (s : string) : option Qc :=
  let '(neg, l) := split_sign (string_to_list (strip s)) in
  let '(ip, fp) := split_point l in
  match ip ++ fp with
  | [] => None
  | ds =>
    n ← digits_value ds 0%Z;
    Some (Q2Qc (Qmake (if neg : bool then - n else n)%Z
                      (Pos.of_nat (10 ^ length fp))))
  end.

Definition string_of_number (x : Qc) : string :=
  if decide (Qden x = 1%positive) then pretty (Qnum x)
  else pretty (Qnum x) +:+ "/" +:+ pretty (Zpos (Qden x)).

(** A Parquet engine that refuses a frame with an [object] column holding
    both a text and a number, as pyarrow does, and takes every other. *)
Definition refuses_mixed_object (d : DataFrame) : option exn :=
  if existsb
       (λ cd : string * dtype,
          bool_decide (cd.2 = DObject)
          && existsb (λ r, is_str (cell r cd.1)) (rows d)
          && existsb (λ r, is_num (cell r cd.1)) (rows d))
       (columns d)
  then Some (ArrowInvalid "Could not convert value")
  else None.

(** * Specification vocabulary

    What the theorems below are stated with: predicates on texts, numbers
    and frames, the element-wise reading of the column updates, and the
    inputs the examples run on. *)

(** Two ids are equal as Python compares them: the same text, the same
    number, the same boolean, both null, or a boolean and the number it counts
    as ([True == 1], [False == 0]). *)
Definition equal_ids (a b : value) : Prop :=
  match a, b with
  | VNull, VNull => True
  | VStr s, VStr t => s = t
  | VNum x, VNum y => x = y
  | VBool p, VBool q => p = q
  | VNum x, VBool q | VBool q, VNum x => x = if q then num 1 else num 0
  | _, _ => False
  end.

(** No two rows, at different places of the list, have equal ids. *)
Definition distinct_ids (rs : list (gmap string value)) : Prop :=
  ∀ (i j : nat) r r', i ≠ j → rs !! i = Some r → rs !! j = Some r' →
                      ¬ equal_ids (cell r "id") (cell r' "id").

(** Three records, the first and the last with ids that Python holds equal. *)
Definition two_records_same_id : DataFrame :=
  DataFrame_of_records
    [ [("id", VBool true); ("name", VStr "first")];
      [("id", VStr "b"); ("name", VStr "other")];
      [("id", VNum (num 1)); ("name", VStr "second")] ].

(** [df[c] = f(df[c])] for an element-wise [f], as a frame. *)
Definition map_column (c : string) (d : dtype) (f : value → value) (df : DataFrame)
  : DataFrame :=
  mkDF (set_dtype c d (columns df)) ((λ r, <[c := f (cell r c)]> r) <$> rows df).

(** The white space of ASCII, by character code: tab, line feed, vertical
    tab, form feed, carriage return, the four separators 28 to 31, and the
    space. *)
Definition white_space : list ascii :=
  ascii_of_nat <$> [9; 10; 11; 12; 13; 28; 29; 30; 31; 32]%nat.

Definition all_space (l : list ascii) : Prop := Forall (λ a, a ∈ white_space) l.

(** [t] is [s] without its leading and trailing white space: [s] is [t]
    between two runs of white space, and [t] neither begins nor ends with
    white space. *)
Definition trimmed (s t : string) : Prop :=
  ∃ l r,
    string_to_list s = l ++ string_to_list t ++ r
    ∧ all_space l ∧ all_space r
    ∧ (∀ a, head (string_to_list t) = Some a → a ∉ white_space)
    ∧ (∀ a, last (string_to_list t) = Some a → a ∉ white_space).

(** The fields named by [cs], stripped one after the other. *)
Definition strip_fields (cs : list string) (r : gmap string value)
  : gmap string value :=
  foldl (λ r c, <[c := str_method strip (cell r c)]> r) r cs.

Definition padded_names : DataFrame :=
  DataFrame_of_records
    [ [("id", VNum (num 1)); ("name", VStr "  Ale House ")];
      [("id", VNum (num 2)); ("name", VNull)] ].

(** [x] lies in the closed interval from [lo] to [hi]. *)
Definition within (lo hi : Z) (x : Qc) : Prop :=
  (num lo ≤ x)%Qc ∧ (x ≤ num hi)%Qc.

Definition one_bad_latitude : DataFrame :=
  DataFrame_of_records
    [ [("id", VStr "1"); ("latitude", VStr "999"); ("longitude", VStr "-122.5")] ].

(** A record whose latitude the feed gives as a boolean. *)
Definition boolean_latitudes : DataFrame :=
  DataFrame_of_records
    [ [("id", VStr "1"); ("latitude", VBool true)] ].

(** A frame whose longitude is the integer 10^400, which only an [object]
    column can hold. *)
Definition huge_longitude : DataFrame :=
  mkDF [("id", DStr); ("longitude", DObject)]
       [ list_to_map [("id", VStr "1"); ("longitude", VNum (num (10 ^ 400)))] ].





Definition types_with_a_null : DataFrame :=
  DataFrame_of_records
    [ [("id", VStr "1"); ("brewery_type", VStr "micro")];
      [("id", VStr "2"); ("brewery_type", VNull)];
      [("id", VStr "3"); ("brewery_type", VStr "nano")] ].

(** The columns the eight aggregations read. *)
Definition required_columns : list string :=
  ["id"; "brewery_type"; "state_province"; "country"; "city";
   "website_url"; "phone"; "address_1"].

(** A frame without rows that has the columns the aggregations read. *)
Definition empty_with_schema (df : DataFrame) : Prop :=
  rows df = [] ∧ Forall (λ c, has_column df c = true) required_columns.

(** The aggregation returns a table without rows; the frame it was given is
    still without rows and still has the columns; nothing was written. *)
Definition returns_no_rows (agg : Py gold.World DataFrame) (w : gold.World) : Prop :=
  ∃ t w',
    agg w = (Ok t, w') ∧ rows t = []
    ∧ empty_with_schema (gold.frame w')
    ∧ gold.gold_files w' = gold.gold_files w.

Ltac schema H :=
  let Hrows := fresh "Hrows" in
  destruct H as [Hrows H];
  repeat (apply Forall_cons in H as [? H]).

Ltac run_py :=
  unfold mbind, mret, Py_bind, Py_ret, lift, raise, gold.get_frame,
    gold.on_console, gold.frame_setitem, info, log; simpl.

Ltac in_required :=
  repeat first [apply Forall_nil_2 | apply Forall_cons_2];
  unfold required_columns;
  repeat first [apply list_elem_of_here | apply list_elem_of_further].

Ltac required :=
  unfold required_columns;
  repeat first [apply list_elem_of_here | apply list_elem_of_further].

Ltac finish_empty H :=
  eexists _, _; split; [reflexivity|]; split; [reflexivity|];
  split; [exact H|reflexivity].

Definition failed (c : dq.CheckResult) : Prop := dq.passed c = false.

(** A cleaned frame without rows that has the columns, and a Silver
    directory holding it. *)
Definition empty_cleaned : DataFrame :=
  mkDF [("id", DStr); ("brewery_type", DStr); ("state_province", DStr);
        ("country", DStr); ("city", DStr); ("website_url", DStr);
        ("phone", DStr); ("address_1", DStr); ("processed_at", DStr)] [].

Definition silver_with_empty_file : list (string * node DataFrame) :=
  [("brewery_type=micro",
    Directory [("breweries_20260101_000000.parquet",
                RegularFile (Some empty_cleaned))])].

Definition world0 : gold.World := gold.mkWorld (mkDF [] []) console0 ∅.

(** Two breweries, one of them without a state. *)
Definition two_breweries : DataFrame :=
  DataFrame_of_records
    [ [("id", VStr "1"); ("brewery_type", VStr "micro");
       ("state_province", VStr "CA"); ("country", VStr "US"); ("city", VStr "Napa");
       ("website_url", VStr "http://a.example"); ("phone", VStr "5551234567");
       ("address_1", VStr "1 Main St")];
      [("id", VStr "2"); ("brewery_type", VStr "micro");
       ("state_province", VNull); ("country", VStr "US"); ("city", VStr "Reno");
       ("website_url", VNull); ("phone", VStr "5557654321");
       ("address_1", VNull)] ].

Definition gold_world (df : DataFrame) : gold.World := gold.mkWorld df console0 ∅.

(** The frame the caller holds after a call. *)
Definition frame_after {A} (agg : Py gold.World A) (df : DataFrame) : DataFrame :=
  gold.frame (agg (gold_world df)).2.

(** The values of a column of the table a call returns (none if it raised). *)
Definition result_column (agg : Py gold.World DataFrame) (df : DataFrame)
    (c : string) : list value :=
  match (agg (gold_world df)).1 with
  | Ok t => (λ r, cell r c) <$> rows t
  | Raise _ => []
  end.

(** The rows of the table have the keys of all the rows of the frame. *)
Definition covers_keys (ks : list string) (df t : DataFrame) : Prop :=
  ∀ r, r ∈ rows df → ∃ row, row ∈ rows t ∧ ∀ k, k ∈ ks → cell row k = cell r k.

(** What [standardize_brewery_type] leaves in a field. *)
Definition standard_type (v : value) : value :=
  match str_method strip (str_method lower v) with
  | VStr t => if decide (t ∈ silver.KNOWN_BREWERY_TYPES) then VStr t
              else VStr "unknown"
  | _ => VStr "unknown"
  end.

(** The record of the specification's scenario. *)
Definition scenario_record : DataFrame :=
  DataFrame_of_records
    [ [("id", VStr "1"); ("brewery_type", VStr " Micro ");
       ("phone", VStr "(555) 123-4567"); ("latitude", VStr "999")] ].

(** Three types; the postal codes of the second are a text and a number,
    which makes the column [object]. *)
Definition mixed_codes : DataFrame :=
  DataFrame_of_records
    [ [("id", VStr "1"); ("brewery_type", VStr "bar"); ("postal_code", VStr "97701")];
      [("id", VStr "2"); ("brewery_type", VStr "micro"); ("postal_code", VStr "10001")];
      [("id", VStr "3"); ("brewery_type", VStr "micro");
       ("postal_code", VNum (num 30301))];
      [("id", VStr "4"); ("brewery_type", VStr "nano"); ("postal_code", VStr "60601")] ].

(** What a check leaves on the console: one log record, at [INFO] when the
    result passed and at [WARNING] when it failed, and nothing printed. *)
Definition logs_result (res : dq.CheckResult) (con con' : Console) : Prop :=
  con' = mkConsole
           (logged con ++
            [(if dq.passed res then INFO else WARNING,
              "[" +:+ dq.check_name res +:+ "] " +:+ dq.details res)])
           (printed con).

(** The values of a column, row by row. *)
Definition column_cells (df : DataFrame) (c : string) : list value :=
  (λ r, cell r c) <$> rows df.

(** The column exists and its share of nulls does not exceed the threshold
    (a column of a frame without rows has no share). *)
Definition nulls_within (threshold : Qc) (df : DataFrame) (col : string) : Prop :=
  has_column df col = true
  ∧ ∀ rate, dq.null_rate (column_cells df col) = Some rate → (rate ≤ threshold)%Qc.

(** One line of the report of [run_suite]. *)
Definition report_line (c : dq.CheckResult) : string :=
  "  " +:+ (if dq.passed c then "PASS" else "FAIL") +:+ "  ["
  +:+ dq.check_name c +:+ "] " +:+ dq.details c.

(** Two rows hold the same values under the columns [cs]. *)
Definition rows_agree (cs : list string) (r r' : gmap string value) : Prop :=
  ∀ c, c ∈ cs → cell r' c = cell r c.

(** Two frames are the same as far as the columns [cs] go: the same dtypes
    and, row by row, the same values. *)
Definition frames_agree (cs : list string) (df df' : DataFrame) : Prop :=
  (∀ c, c ∈ cs → column_dtype df' c = column_dtype df c)
  ∧ Forall2 (rows_agree cs) (rows df) (rows df').

(** Two group-by results have the same keys in the same order, and group by
    group rows that agree. *)
Definition groups_agree (cs : list string)
    (g g' : list (list value * list (gmap string value))) : Prop :=
  Forall2 (λ x x', x'.1 = x.1 ∧ Forall2 (rows_agree cs) x.2 x'.2) g g'.

Definition results_agree {A} (R : A → A → Prop) (x x' : result A) : Prop :=
  match x, x' with
  | Ok a, Ok a' => R a a'
  | Raise e, Raise e' => e = e'
  | _, _ => False
  end.

(** Every value of a column satisfies [P]. *)
Definition column_all (P : value → Prop) (c : string) (df : DataFrame) : Prop :=
  Forall (λ r, P (cell r c)) (rows df).

(** [df'] is [df] with the column [c] rewritten value by value with [f]
    (and possibly given another dtype): the same column names, nothing
    changed under the other columns. *)
Definition rewrites_column (c : string) (f : value → value) (df df' : DataFrame)
  : Prop :=
  column_names df' = column_names df
  ∧ (∀ cs, c ∉ cs → frames_agree cs df df')
  ∧ (λ r, cell r c) <$> rows df' = f <$> ((λ r, cell r c) <$> rows df).

(** What [normalize_phone] leaves in a field: the digits of its text, null
    when the field is null or has no digit. *)
Definition phone_digits (str_of_number : Qc → string) (v : value) : value :=
  if notna v then
    let digits := digits_only (silver.py_str str_of_number v) in
    if decide (digits = "") then VNull else VStr digits
  else VNull.

(** A null, or a text of one or more ASCII digits. *)
Definition digits_or_null (v : value) : Prop :=
  v = VNull
  ∨ ∃ t, v = VStr t ∧ t ≠ "" ∧ Forall (λ a, is_digit a = true) (string_to_list t).

(** A type of the closed vocabulary, or [unknown]. *)
Definition known_or_unknown (v : value) : Prop :=
  ∃ t, v = VStr t ∧ (t ∈ silver.KNOWN_BREWERY_TYPES ∨ t = "unknown").

(** A null, or a number of the closed interval from [lo] to [hi]. *)
Definition null_or_within (lo hi : Z) (v : value) : Prop :=
  v = VNull ∨ ∃ x, v = VNum x ∧ within lo hi x.

(** A number that a float can hold. *)
Definition fits_float (x : Qc) : Prop :=
  (num (- float_limit) < x)%Qc ∧ (x < num float_limit)%Qc.

(** What [validate_coordinates] can convert: a null, a text, or a number
    that a float can hold. *)
Definition plain_coordinate (v : value) : Prop :=
  match v with
  | VNull | VStr _ => True
  | VNum x => fits_float x
  | VBool _ => False
  end.

(** The column [c], where the frame has it, is not of the [bool] dtype and
    holds nothing but nulls, texts and numbers that a float can hold. *)
Definition convertible (df : DataFrame) (c : string) : Prop :=
  has_column df c = true →
  column_dtype df c ≠ Some DBool ∧ column_all plain_coordinate c df.

Definition redundant_columns : list string := ["address_2"; "address_3"; "street"].

Ltac by_names := apply (bool_decide_unpack _); vm_compute; exact I.

(** The column is absent or has the text dtype: the [.str] methods work. *)
Definition text_or_absent (df : DataFrame) (c : string) : Prop :=
  column_dtype df c = None ∨ column_dtype df c = Some DStr.

Definition numeric_postal_codes : DataFrame :=
  DataFrame_of_records
    [ [("id", VStr "1"); ("postal_code", VNum (num 97701))];
      [("id", VStr "2"); ("postal_code", VNum (num 10001))] ].

Definition no_id_column : DataFrame :=
  DataFrame_of_records [ [("name", VStr "Ale House")] ].

(** Two records whose ids are the two given texts. *)
Definition two_ids (s t : string) : DataFrame :=
  DataFrame_of_records [ [("id", VStr s)]; [("id", VStr t)] ].

(** Two programs, run on worlds whose frames agree on [cs], both return,
    values related by [R] and frames that agree on [cs'], or both raise the
    same exception. *)
Definition related {A} (cs cs' : list string) (R : A → A → Prop)
    (m m' : Py gold.World A) : Prop :=
  ∀ w w', frames_agree cs (gold.frame w) (gold.frame w') →
    match (m w).1, (m' w').1 with
    | Ok a, Ok a' =>
      R a a' ∧ frames_agree cs' (gold.frame (m w).2) (gold.frame (m' w').2)
    | Raise e, Raise e' => e = e'
    | _, _ => False
    end.

(** Whatever the program returns or raises, the frame it leaves agrees with
    the frame it found on the columns [cs]. *)
Definition keeps {A} (cs : list string) (m : Py gold.World A) : Prop :=
  ∀ w, frames_agree cs (gold.frame w) (gold.frame (m w).2).

(** What [run_gold_dq] asks of a table: at least one row and, when the table
    has a [brewery_count] column, no null in it. *)
Definition table_passes (t : DataFrame) : Prop :=
  rows t ≠ []
  ∧ (has_column t "brewery_count" = true →
     ∀ r, r ∈ rows t → cell r "brewery_count" ≠ VNull).





Definition csv_path (GOLD_DIR : string) (timestamp : string → string)
    (name : string) : string :=
  path_join GOLD_DIR (name +:+ "_" +:+ timestamp name +:+ ".csv").






(** The Parquet files [load_silver] finds, in the order it reads them, each
    with the value that the name of its partition gives. *)
Definition silver_files (fs : list (string * node DataFrame))
  : list (string * leaf DataFrame) :=
  filter (λ e, glob_match "brewery_type=" "" e.1 = true) fs
  ≫= λ e, (λ f, (gold.partition_value e.1, f.2))
            <$> filter (λ f, glob_match "" ".parquet" f.1 = true) (children e.2).


(** What a counting table says of the frame: its counts add up to the
    number of rows of the frame that have an [id]. *)
Definition counts_every_id (df t : DataFrame) : Prop :=
  ∃ ns, (λ r, cell r "brewery_count") <$> rows t = of_nat <$> ns
        ∧ sum_list ns = agg_count "id" (rows df).

(** The counts of the table, top down, do not grow. *)
Definition descending (ns : list nat) : Prop := Sorted (λ a b, b ≤ a) ns.

(** The table has one row for each state of the frame that is not null: the
    values of its [state_province] column are pairwise different, and are
    the values of the frame's column other than null. *)
Definition one_row_per_state (df t : DataFrame) : Prop :=
  let states := (λ r, cell r "state_province") <$> rows t in
  NoDup states
  ∧ ∀ v, v ∈ states
         ↔ v ≠ VNull ∧ v ∈ (λ r, cell r "state_province") <$> rows df.

(** The table was made by grouping a frame that agrees with [df] on
    [state_province], with the default [dropna], and sorting the result. *)
Definition grouped_by_state (df t : DataFrame) : Prop :=
  ∃ df' groups by_ aggregated (F : list value * list (gmap string value) → list value),
    frames_agree ["state_province"] df df'
    ∧ groupby df' ["state_province"] true = Ok groups
    ∧ t = sort_values by_
            (reset_index df' ["state_province"] aggregated
               ((λ g, (g.1, F g)) <$> groups)).

(** The rows of the frame in a given state, and those of them of a given
    type. *)
Definition in_state (v : value) (df : DataFrame) : list (gmap string value) :=
  filter (λ r, cell r "state_province" = v) (rows df).

Definition of_type (ty : string) (rs : list (gmap string value))
  : list (gmap string value) :=
  filter (λ r, cell r "brewery_type" = VStr ty) rs.

(** The rows with a value under the column [c], and the rows with a given
    value there. *)
Definition with_value (c : string) (rs : list (gmap string value))
  : list (gmap string value) :=
  filter (λ r, cell r c ≠ VNull) rs.









(** Two breweries of a state with every critical field, and one of another
    state with none. *)
Definition complete_and_bare : DataFrame :=
  DataFrame_of_records
    [ [("id", VStr "1"); ("state_province", VStr "CA");
       ("address_1", VStr "1 Main St"); ("phone", VStr "5551234567");
       ("website_url", VStr "http://a.example")];
      [("id", VStr "2"); ("state_province", VStr "NV");
       ("address_1", VNull); ("phone", VNull); ("website_url", VNull)];
      [("id", VStr "3"); ("state_province", VStr "CA");
       ("address_1", VStr "2 Oak Ave"); ("phone", VStr "5559876543");
       ("website_url", VStr "http://b.example")] ].

(** The rows that have both a website and a phone. *)
Definition with_website_and_phone (rs : list (gmap string value))
  : list (gmap string value) :=
  filter (λ r, cell r "website_url" ≠ VNull ∧ cell r "phone" ≠ VNull) rs.

(** The number of the critical fields (address, phone, website) that a row
    has. *)
Definition critical_fields_filled (r : gmap string value) : nat :=
  length (filter (λ c, cell r c ≠ VNull) ["address_1"; "phone"; "website_url"]).

(** * Theorems *)

(** ** Frames and columns *)

Lemma has_column_dtype (df : DataFrame) (c : string) :
  has_column df c = true → ∃ d, column_dtype df c = Some d.
Proof.
  unfold has_column, column_names, column_dtype.
  intros Hc%bool_decide_eq_true.
  apply list_elem_of_fmap in Hc as ([c' d] & Heq & Hin).
  simpl in Heq. subst c.
  destruct (list_find (λ cd, cd.1 = c') (columns df)) as [[i cd]|] eqn:Hfind.
  - exists cd.2. done.
  - exfalso. eapply list_find_None in Hfind.
    eapply Forall_forall in Hfind; [|exact Hin]. by apply Hfind.
Qed.

Lemma column_dtype_has (df : DataFrame) (c : string) (d : dtype) :
  column_dtype df c = Some d → has_column df c = true.
Proof.
  unfold has_column, column_names, column_dtype. intros Hd.
  destruct (list_find _ _) as [[i cd]|] eqn:Hfind; [|done].
  apply list_find_Some in Hfind as (Hi & Hcd & _).
  apply bool_decide_eq_true, list_elem_of_fmap. exists cd. split; [done|].
  by eapply list_elem_of_lookup_2.
Qed.

Lemma getitem_ok (df : DataFrame) (c : string) :
  has_column df c = true →
  ∃ d, column_dtype df c = Some d
       ∧ getitem df c = Ok (mkSeries d ((λ r, cell r c) <$> rows df)).
Proof.
  intros (d & Hd)%has_column_dtype. exists d. split; [done|].
  unfold getitem. by rewrite Hd.
Qed.

Lemma set_dtype_names (c : string) (d : dtype) (cols : list (string * dtype)) :
  c ∈ cols.*1 → (set_dtype c d cols).*1 = cols.*1.
Proof.
  intros Hin. unfold set_dtype. rewrite bool_decide_eq_true_2 by done.
  rewrite <- list_fmap_compose. apply list_fmap_ext.
  intros i [c' d'] _. simpl. by destruct (decide (c' = c)) as [->|].
Qed.

(** ** Deduplicate *)

Lemma hash_key_equal (a b : value) : hash_key a = hash_key b ↔ equal_ids a b.
Proof.
  assert (num 1 ≠ num 0) as Hne
    by (intros Heq; apply Qceq_alt in Heq; vm_compute in Heq; discriminate).
  destruct a as [|s|x|[]], b as [|t|y|[]]; simpl; split; try done;
    try (by intros [= ?]); try (by intros ->); try (by intros <-);
    try (intros [= ?]; by apply Hne); try (intros [= ?]; by apply Hne).
Qed.

Lemma distinct_ids_NoDup (rs : list (gmap string value)) :
  NoDup ((λ r, hash_key (cell r "id")) <$> rs) ↔ distinct_ids rs.
Proof.
  rewrite NoDup_alt. unfold distinct_ids. split.
  - intros Hnd i j r r' Hij Hi Hj Heq%hash_key_equal. apply Hij.
    apply (Hnd i j (hash_key (cell r "id")));
      rewrite list_lookup_fmap; [by rewrite Hi|by rewrite Hj, Heq].
  - intros Hd i j k Hi Hj. rewrite list_lookup_fmap in Hi, Hj.
    destruct (rs !! i) as [r|] eqn:Hri; [|done].
    destruct (rs !! j) as [r'|] eqn:Hrj; [|done].
    simplify_eq/=. destruct (decide (i = j)) as [|Hij]; [done|].
    exfalso. apply (Hd i j r r' Hij Hri Hrj). by apply hash_key_equal.
Qed.

Section keep_last_facts.
Variable c : string.
Implicit Types rs : list (gmap string value).

Lemma later_key_iff rs (r : gmap string value) :
  existsb (λ r', bool_decide (hash_key (cell r' c) = hash_key (cell r c))) rs = true
  ↔ ∃ r', r' ∈ rs ∧ hash_key (cell r' c) = hash_key (cell r c).
Proof.
  rewrite existsb_exists. split.
  - intros (r' & Hin & Heq). exists r'. split; [by apply list_elem_of_In|].
    by apply bool_decide_eq_true in Heq.
  - intros (r' & Hin & Heq). exists r'. split; [by apply list_elem_of_In|].
    by apply bool_decide_eq_true.
Qed.

Lemma keep_last_sublist rs : sublist (keep_last c rs) rs.
Proof.
  induction rs as [|r rs IH]; simpl; [constructor|].
  destruct (existsb _ rs); by constructor.
Qed.

Lemma keep_last_keys rs (r : gmap string value) :
  r ∈ rs →
  ∃ r', r' ∈ keep_last c rs ∧ hash_key (cell r' c) = hash_key (cell r c).
Proof.
  revert r. induction rs as [|r0 rs IH]; intros r; [by intros ?%elem_of_nil|].
  intros Hin. simpl.
  destruct (existsb _ rs) eqn:Hex.
  - apply later_key_iff in Hex as (r1 & Hr1 & Heq1).
    apply elem_of_cons in Hin as [->|Hin]; [|by apply IH].
    destruct (IH _ Hr1) as (r' & ? & ?). exists r'. split; [done|congruence].
  - apply elem_of_cons in Hin as [->|Hin].
    + exists r0. split; [left|done].
    + destruct (IH _ Hin) as (r' & ? & ?). exists r'. split; [by right|done].
Qed.

Lemma keep_last_NoDup rs :
  NoDup ((λ r, hash_key (cell r c)) <$> keep_last c rs).
Proof.
  induction rs as [|r rs IH]; simpl; [constructor|].
  destruct (existsb _ rs) eqn:Hex; [done|].
  rewrite fmap_cons. constructor; [|done].
  intros (r' & Heq & Hin)%list_elem_of_fmap.
  assert (existsb (λ r', bool_decide (hash_key (cell r' c) = hash_key (cell r c)))
            rs = true); [|congruence].
  apply later_key_iff. exists r'. split; [|done].
  eapply elem_of_sublist; [done|apply keep_last_sublist].
Qed.

(** A surviving row sits at a position of the input after which no key
    equal to its own occurs again. *)
Lemma keep_last_is_last rs (r : gmap string value) :
  r ∈ keep_last c rs →
  ∃ j : nat, rs !! j = Some r ∧
    ∀ (k : nat) r', (j < k)%nat → rs !! k = Some r' →
                    hash_key (cell r' c) ≠ hash_key (cell r c).
Proof.
  revert r. induction rs as [|r0 rs IH]; intros r; simpl;
    [by intros ?%elem_of_nil|].
  destruct (existsb _ rs) eqn:Hex.
  - intros (j & Hj & Hlast)%IH. exists (S j). split; [done|].
    intros [|k] r' Hlt Hk; [lia|]. apply (Hlast k); [lia|done].
  - intros [->|Hin]%elem_of_cons.
    + exists 0%nat. split; [done|]. intros [|k] r' Hlt Hk Heq; [lia|].
      simpl in Hk.
      assert (existsb (λ r', bool_decide (hash_key (cell r' c) = hash_key (cell r0 c)))
                rs = true); [|congruence].
      apply later_key_iff. exists r'. split; [|done].
      by eapply list_elem_of_lookup_2.
    + destruct (IH _ Hin) as (j & Hj & Hlast). exists (S j). split; [done|].
      intros [|k] r' Hlt Hk; [lia|]. apply (Hlast k); [lia|done].
Qed.
End keep_last_facts.

Lemma drop_duplicates_last_rows (df : DataFrame) (c : string) :
  has_column df c = true →
  ∃ df', drop_duplicates_last df c = Ok df'
         ∧ columns df' = columns df
         ∧ rows df' = keep_last c (rows df).
Proof.
  intros Hc. unfold drop_duplicates_last.
  destruct (df_empty df) eqn:He.
  - exists df. split; [done|]. split; [done|].
    unfold df_empty in He. unfold has_column, column_names in Hc.
    destruct (columns df) as [|cd cols] eqn:Hcols.
    + by apply bool_decide_eq_true, elem_of_nil in Hc.
    + destruct (rows df); [done|discriminate].
  - rewrite Hc. by eexists.
Qed.

(** C3.  On a frame that has an [id] column, [deduplicate] returns (it does
    not raise) and writes one log line giving the number of rows removed and
    the number left.  The rows it returns are rows of the input in the input's
    order; no two of them have equal ids; every [id] of the input is still
    there; and each returned row is the last row of the input with its [id].
    Ids are equal as Python compares them: a boolean equals the number it
    counts as. *)
Theorem deduplicate_keeps_last_per_id (df : DataFrame) (con : Console) :
  has_column df "id" = true →
  ∃ df',
    silver.deduplicate df con =
      (Ok df',
       mkConsole
         (logged con ++
          [(INFO,
            "Deduplicação: removidos "
            +:+ pretty (Z.of_nat (len df) - Z.of_nat (len df'))%Z
            +:+ " duplicado(s). Restantes: " +:+ pretty (len df'))])
         (printed con))
    ∧ columns df' = columns df
    ∧ sublist (rows df') (rows df)
    ∧ distinct_ids (rows df')
    ∧ (∀ r, r ∈ rows df →
         ∃ r', r' ∈ rows df' ∧ equal_ids (cell r' "id") (cell r "id"))
    ∧ (∀ r', r' ∈ rows df' →
         ∃ j : nat, rows df !! j = Some r' ∧
           ∀ (k : nat) r, (j < k)%nat → rows df !! k = Some r →
                          ¬ equal_ids (cell r "id") (cell r' "id")).
Proof.
  intros Hid.
  destruct (drop_duplicates_last_rows df "id" Hid) as (df' & Hdrop & Hcols & Hrows).
  exists df'. split.
  - unfold silver.deduplicate, mbind, Py_bind, lift. rewrite Hdrop. reflexivity.
  - rewrite Hrows. split; [done|].
    split; [apply keep_last_sublist|].
    split; [apply distinct_ids_NoDup, keep_last_NoDup|].
    split.
    + intros r Hr. destruct (keep_last_keys "id" _ r Hr) as (r' & Hin & Heq).
      exists r'. split; [done|]. by apply hash_key_equal.
    + intros r' Hr'. destruct (keep_last_is_last "id" _ r' Hr') as (j & Hj & Hlast).
      exists j. split; [done|]. intros k r Hlt Hk Heq%hash_key_equal.
      by apply (Hlast k r Hlt Hk).
Qed.

Lemma deduplicate_keeps_last_per_id_witness :
  has_column two_records_same_id "id" = true
  ∧ ∃ df', (silver.deduplicate two_records_same_id console0).1 = Ok df'
           ∧ distinct_ids (rows df')
           ∧ (λ r, (cell r "id", cell r "name")) <$> rows df'
             = [(VStr "b", VStr "other"); (VNum (num 1), VStr "second")].
Proof.
  split; [reflexivity|].
  destruct (deduplicate_keeps_last_per_id two_records_same_id console0 eq_refl)
    as (df' & Hrun & _ & _ & Hnd & _).
  exists df'. rewrite Hrun. split; [reflexivity|]. split; [exact Hnd|].
  assert (Ok df' = (silver.deduplicate two_records_same_id console0).1) as Hdf
    by (by rewrite Hrun).
  vm_compute in Hdf. injection Hdf as ->. vm_compute. reflexivity.
Defined.

(** ** Column updates *)

Lemma setitem_map (df : DataFrame) (c : string) (d : dtype) (f : value → value) :
  setitem df c (mkSeries d (f <$> ((λ r, cell r c) <$> rows df)))
  = Ok (map_column c d f df).
Proof.
  unfold setitem, map_column, len. simpl.
  rewrite !length_fmap, bool_decide_eq_true_2 by done.
  do 2 f_equal. rewrite <- list_fmap_compose, zip_with_fmap_r, zip_with_diag.
  done.
Qed.

Lemma unique_dtype (cols : list (string * dtype)) (c : string) (d1 d2 : dtype) :
  NoDup cols.*1 → (c, d1) ∈ cols → (c, d2) ∈ cols → d1 = d2.
Proof.
  induction cols as [|[c' d'] cols IH]; [by intros _ ?%elem_of_nil|].
  rewrite fmap_cons. intros [Hnotin Hnd]%NoDup_cons.
  intros [Heq1|Hin1]%elem_of_cons [Heq2|Hin2]%elem_of_cons; simplify_eq/=.
  - done.
  - exfalso. apply Hnotin, list_elem_of_fmap. by exists (c', d2).
  - exfalso. apply Hnotin, list_elem_of_fmap. by exists (c', d1).
  - by apply IH.
Qed.

Lemma column_dtype_elem (df : DataFrame) (c : string) (d : dtype) :
  column_dtype df c = Some d → (c, d) ∈ columns df.
Proof.
  unfold column_dtype. destruct (list_find _ _) as [[i [c' d']]|] eqn:Hfind; [|done].
  intros [= <-]. apply list_find_Some in Hfind as (Hi & Hc & _).
  simpl in Hc. subst c'. by eapply list_elem_of_lookup_2.
Qed.

Lemma column_dtype_unique (df : DataFrame) (c : string) (d : dtype) :
  NoDup (column_names df) → (c, d) ∈ columns df → column_dtype df c = Some d.
Proof.
  intros Hnd Hin.
  destruct (has_column_dtype df c) as (d' & Hd').
  { apply bool_decide_eq_true, list_elem_of_fmap. by exists (c, d). }
  rewrite Hd'. f_equal.
  eapply unique_dtype; [exact Hnd|by apply column_dtype_elem|done].
Qed.

Lemma set_dtype_same (df : DataFrame) (c : string) (d : dtype) :
  NoDup (column_names df) → column_dtype df c = Some d →
  set_dtype c d (columns df) = columns df.
Proof.
  intros Hnd Hd. unfold set_dtype.
  rewrite bool_decide_eq_true_2.
  2:{ apply list_elem_of_fmap. exists (c, d). split; [done|by apply column_dtype_elem]. }
  rewrite <- (list_fmap_id (columns df)) at 2.
  apply list_fmap_ext. intros i [c' d'] Hi. simpl.
  destruct (decide (c' = c)) as [->|]; [|done].
  f_equal. eapply unique_dtype; [exact Hnd|by apply column_dtype_elem|].
  by eapply list_elem_of_lookup_2.
Qed.

(** ** Clean strings *)

Lemma py_isspace_white (a : ascii) : py_isspace a = bool_decide (a ∈ white_space).
Proof. destruct a as [[] [] [] [] [] [] [] []]; vm_compute; reflexivity. Qed.

Lemma lstrip_list_spec (l : list ascii) :
  ∃ ws, l = ws ++ lstrip_list l ∧ all_space ws
        ∧ ∀ a, head (lstrip_list l) = Some a → a ∉ white_space.
Proof.
  induction l as [|a l (ws & Hl & Hws & Hhd)]; simpl.
  - exists []. repeat split; [constructor|done].
  - destruct (py_isspace a) eqn:Ha; rewrite py_isspace_white in Ha.
    + apply bool_decide_eq_true in Ha.
      exists (a :: ws). split; [by rewrite <- app_comm_cons, <- Hl|].
      split; [by constructor|done].
    + apply bool_decide_eq_false in Ha.
      exists []. split; [done|]. split; [constructor|].
      intros a' [= <-]. done.
Qed.

Lemma string_to_of_list (l : list ascii) : string_to_list (string_of_list l) = l.
Proof. apply Stdlib.Strings.String.list_ascii_of_string_of_list_ascii. Qed.

Lemma strip_trimmed (s : string) : trimmed s (strip s).
Proof.
  unfold trimmed, strip. rewrite string_to_of_list.
  destruct (lstrip_list_spec (string_to_list s)) as (l & Hs & Hl & Hhd).
  set (m := lstrip_list (string_to_list s)) in *.
  destruct (lstrip_list_spec (reverse m)) as (r & Hm & Hr & Hlast).
  set (k := lstrip_list (reverse m)) in *.
  assert (m = reverse k ++ reverse r) as Hm'.
  { rewrite <- reverse_app, <- Hm. by rewrite reverse_involutive. }
  exists l, (reverse r). split; [by rewrite <- Hm'|].
  split; [done|]. split; [by apply Forall_reverse|]. split.
  - intros a Ha. apply Hhd. rewrite Hm'.
    destruct (reverse k); [done|]. done.
  - intros a Ha. apply Hlast. rewrite last_reverse in Ha. done.
Qed.

Lemma strip_fields_other (cs : list string) (r : gmap string value) (c : string) :
  c ∉ cs → strip_fields cs r !! c = r !! c.
Proof.
  revert r. induction cs as [|c0 cs IH]; intros r Hc; [done|].
  apply not_elem_of_cons in Hc as [Hne Hc].
  unfold strip_fields in *. simpl. rewrite IH by done.
  by apply lookup_insert_ne.
Qed.

Lemma strip_fields_elem (cs : list string) (r : gmap string value) (c : string) :
  NoDup cs → c ∈ cs → cell (strip_fields cs r) c = str_method strip (cell r c).
Proof.
  revert r. induction cs as [|c0 cs IH]; intros r Hnd Hc; [by apply elem_of_nil in Hc|].
  apply NoDup_cons in Hnd as [Hnotin Hnd].
  change (strip_fields (c0 :: cs) r)
    with (strip_fields cs (<[c0 := str_method strip (cell r c0)]> r)).
  apply elem_of_cons in Hc as [->|Hc].
  - unfold cell at 1. rewrite strip_fields_other by done.
    by rewrite lookup_insert_eq.
  - rewrite IH by done. f_equal. unfold cell.
    rewrite lookup_insert_ne; [done|]. by intros ->.
Qed.

Lemma strip_column_ok (df : DataFrame) (c : string) :
  NoDup (column_names df) → column_dtype df c = Some DStr →
  silver.strip_column df c
  = Ok (mkDF (columns df)
             ((λ r, <[c := str_method strip (cell r c)]> r) <$> rows df)).
Proof.
  intros Hnd Hd. unfold silver.strip_column, getitem. rewrite Hd.
  unfold mbind, result_bind, str_accessor. simpl.
  rewrite setitem_map. unfold map_column.
  by rewrite set_dtype_same.
Qed.

Lemma for_each_strip_ok (cs : list string) (df : DataFrame) :
  NoDup (column_names df) →
  (∀ c, c ∈ cs → column_dtype df c = Some DStr) →
  silver.for_each cs silver.strip_column df
  = Ok (mkDF (columns df) (strip_fields cs <$> rows df)).
Proof.
  revert df. induction cs as [|c cs IH]; intros df Hnd Hcs; simpl.
  - unfold strip_fields. simpl. rewrite list_fmap_id. by destruct df.
  - rewrite strip_column_ok; [|done|apply Hcs; left].
    unfold mbind, result_bind. rewrite IH.
    + simpl. by rewrite <- list_fmap_compose.
    + done.
    + intros c' Hc'. unfold column_dtype. simpl. apply Hcs. by right.
Qed.

Lemma select_dtypes_str_elem (df : DataFrame) (c : string) :
  NoDup (column_names df) →
  c ∈ select_dtypes_str df ↔ column_dtype df c = Some DStr.
Proof.
  intros Hnd. unfold select_dtypes_str. rewrite list_elem_of_fmap. split.
  - intros ([c' d] & -> & [Hd Hin]%list_elem_of_filter). simpl in *. subst d.
    by apply column_dtype_unique.
  - intros Hin%column_dtype_elem. exists (c, DStr). split; [done|].
    by apply list_elem_of_filter.
Qed.

Lemma select_dtypes_str_NoDup (df : DataFrame) :
  NoDup (column_names df) → NoDup (select_dtypes_str df).
Proof.
  intros Hnd. eapply sublist_NoDup; [exact Hnd|].
  unfold select_dtypes_str, column_names. apply fmap_sublist, sublist_filter.
Qed.

(** C5.  On a frame whose column names are distinct, [clean_strings] returns
    (it does not raise) a frame with the same columns and as many rows.  In a
    column of the text dtype a text is replaced by itself without leading and
    trailing white space and a null stays null; the fields of every other
    column are untouched. *)
Theorem clean_strings_trims_text_columns (df : DataFrame) (con : Console) :
  NoDup (column_names df) →
  ∃ df',
    silver.clean_strings df con =
      (Ok df',
       mkConsole
         (logged con ++ [(INFO, "Colunas de texto limpas (espaços removidos).")])
         (printed con))
    ∧ columns df' = columns df
    ∧ len df' = len df
    ∧ ∀ (i : nat) r, rows df !! i = Some r →
        ∃ r', rows df' !! i = Some r' ∧
          ∀ c,
            (column_dtype df c = Some DStr →
               (∀ s, cell r c = VStr s → ∃ t, cell r' c = VStr t ∧ trimmed s t)
               ∧ (cell r c = VNull → cell r' c = VNull))
            ∧ (column_dtype df c ≠ Some DStr → r' !! c = r !! c).
Proof.
  intros Hnd.
  exists (mkDF (columns df) (strip_fields (select_dtypes_str df) <$> rows df)).
  split.
  { unfold silver.clean_strings, mbind, Py_bind, lift.
    rewrite for_each_strip_ok; [done..|].
    intros c. by apply select_dtypes_str_elem. }
  split; [done|]. split; [unfold len; simpl; by rewrite length_fmap|].
  intros i r Hi. exists (strip_fields (select_dtypes_str df) r). split.
  { simpl. by rewrite list_lookup_fmap, Hi. }
  intros c. split.
  - intros Hd%select_dtypes_str_elem; [|done].
    rewrite strip_fields_elem by auto using select_dtypes_str_NoDup. split.
    + intros s ->. exists (strip s). split; [done|apply strip_trimmed].
    + by intros ->.
  - intros Hd. apply strip_fields_other.
    by rewrite select_dtypes_str_elem.
Qed.

Lemma clean_strings_trims_text_columns_witness :
  NoDup (column_names padded_names)
  ∧ ∃ df', (silver.clean_strings padded_names console0).1 = Ok df'
           ∧ len df' = 2%nat
           ∧ (λ r, (cell r "id", cell r "name")) <$> rows df'
             = [(VNum (num 1), VStr "Ale House"); (VNum (num 2), VNull)].
Proof.
  assert (NoDup (column_names padded_names)) as Hnd.
  { apply (bool_decide_unpack _). vm_compute. exact I. }
  split; [exact Hnd|].
  destruct (clean_strings_trims_text_columns padded_names console0 Hnd)
    as (df' & Hrun & _ & Hlen & _).
  exists df'. rewrite Hrun. split; [reflexivity|]. split; [exact Hlen|].
  assert (Ok df' = (silver.clean_strings padded_names console0).1) as Hdf
    by (by rewrite Hrun).
  vm_compute in Hdf. injection Hdf as ->. vm_compute. reflexivity.
Defined.

(** ** Validate coordinates *)

(** C4.  [validate_coordinates] does not null what it cannot convert on
    every Dataset.  Where every latitude is a boolean, [pd.to_numeric] leaves
    the column [bool], and [df.loc[invalid_lat, "latitude"] = None] raises
    [TypeError] although no row is marked; where a longitude is an integer
    too large for a float, [pd.to_numeric] raises [OverflowError] in spite of
    [errors="coerce"].  In both cases nothing is logged and no frame comes
    back. *)
Theorem validate_coordinates_raises_on_unconvertible_column
    (parse_number : string → option Qc) (con : Console) :
  (∃ msg, silver.validate_coordinates parse_number boolean_latitudes con
          = (Raise (TypeError msg), con))
  ∧ (∃ msg, silver.validate_coordinates parse_number huge_longitude con
            = (Raise (OverflowError msg), con)).
Proof.
  split; eexists; vm_compute; reflexivity.
Qed.

(** On texts the two blocks do what the claim says: a latitude of 999
    becomes null, a longitude of -122.5 stays. *)
Example validate_coordinates_scenario :
  match (silver.validate_coordinates decimal_of_string one_bad_latitude console0).1 with
  | Ok df' =>
    (λ r, (cell r "latitude",
           bool_decide (cell r "longitude" = VNum (Q2Qc (Qmake (-245) 2)))))
      <$> rows df'
  | Raise _ => []
  end = [(VNull, true)].
Proof. vm_compute. reflexivity. Qed.

(** ** Loading the latest raw partition *)



























(** ** The quality gate *)

Lemma print_report_ok (checks : list dq.CheckResult) (con : Console) :
  ∃ con', dq.print_report checks con = (Ok tt, con').
Proof.
  revert con. induction checks as [|c checks IH]; intros con; simpl.
  - by eexists.
  - unfold mbind, Py_bind, print. apply IH.
Qed.

Lemma run_suite_outcome (checks : list dq.CheckResult) (raise_on_failure : bool)
    (con : Console) :
  (dq.run_suite checks raise_on_failure con).1
  = if negb (forallb dq.passed checks) && raise_on_failure
    then Raise (ValueError
                  "A suíte de qualidade de dados falhou. Veja o relatório acima.")
    else Ok (forallb dq.passed checks).
Proof.
  unfold dq.run_suite, mbind, Py_bind, print.
  match goal with
  | |- context [dq.print_report checks ?c] =>
    destruct (print_report_ok checks c) as (con' & ->)
  end.
  by destruct (negb _ && _).
Qed.

Lemma forallb_passed (checks : list dq.CheckResult) :
  forallb dq.passed checks = true ↔ Forall (λ c, dq.passed c = true) checks.
Proof.
  induction checks as [|c checks IH]; simpl.
  - split; [constructor|done].
  - rewrite andb_true_iff, Forall_cons, IH. done.
Qed.

Lemma not_forallb_passed (checks : list dq.CheckResult) :
  forallb dq.passed checks = false ↔ Exists (λ c, dq.passed c = false) checks.
Proof.
  induction checks as [|c checks IH]; simpl.
  - split; [done|by intros ?%Exists_nil].
  - rewrite andb_false_iff, Exists_cons, IH. done.
Qed.

(** C9.  [run_suite] returns [True] exactly when every result of the list
    passed; it raises exactly when [raise_on_failure] is set and some result
    failed, and what it raises is the one [ValueError] of the suite; without
    [raise_on_failure] it returns the conjunction of the results. *)
Theorem run_suite_verdict (checks : list dq.CheckResult) (raise_on_failure : bool)
    (con : Console) :
  ((dq.run_suite checks raise_on_failure con).1 = Ok true
   ↔ Forall (λ c, dq.passed c = true) checks)
  ∧ ((∃ e, (dq.run_suite checks raise_on_failure con).1 = Raise e)
     ↔ raise_on_failure = true ∧ Exists (λ c, dq.passed c = false) checks)
  ∧ (∀ e, (dq.run_suite checks raise_on_failure con).1 = Raise e →
          e = ValueError
                "A suíte de qualidade de dados falhou. Veja o relatório acima.")
  ∧ (raise_on_failure = false →
     (dq.run_suite checks raise_on_failure con).1 = Ok (forallb dq.passed checks)).
Proof.
  rewrite run_suite_outcome, <- forallb_passed, <- not_forallb_passed.
  destruct (forallb dq.passed checks), raise_on_failure; simpl;
    repeat split; intros;
    repeat match goal with
           | H : ∃ _, _ |- _ => destruct H
           | H : _ ∧ _ |- _ => destruct H
           end;
    try congruence; eauto.
Qed.

Lemma dropna_idemp (vs : list value) : dq.dropna (dq.dropna vs) = dq.dropna vs.
Proof.
  unfold dq.dropna. induction vs as [|v vs IH]; [done|].
  rewrite filter_cons. destruct (decide (notna v = true)) as [Hv|Hv]; [|done].
  rewrite filter_cons, decide_True by done. by rewrite IH.
Qed.

Lemma no_offending_values (allowed : list value) (vs : list value) :
  filter (λ v, negb (bool_decide (v ∈ allowed)) = true) (dq.dropna vs) = []
  ↔ ∀ v, v ∈ vs → v = VNull ∨ v ∈ allowed.
Proof.
  unfold dq.dropna. split.
  - intros Hnil v Hv. destruct (decide (v ∈ allowed)) as [|Hout]; [by right|left].
    destruct (decide (v = VNull)) as [|Hnn]; [done|exfalso].
    eapply filter_nil_not_elem_of; [exact Hnil| |].
    + simpl. by rewrite bool_decide_eq_false_2.
    + apply list_elem_of_filter. split; [by destruct v|done].
  - intros Hall. apply elem_of_nil_inv. intros w.
    intros [Hbad [Hnn Hw]%list_elem_of_filter]%list_elem_of_filter.
    apply negb_true_iff, bool_decide_eq_false in Hbad.
    destruct (Hall w Hw) as [->|?]; [discriminate|done].
Qed.

(** C10.  On a frame that has the column, [check_allowed_values] returns a
    result, and the result passes exactly when every value of the column is
    null or a member of the allowed set; the [null_ok] flag changes nothing:
    the call with the opposite flag returns the same result.  So a column of
    nulls and allowed values passes with [null_ok] false as well. *)
Theorem check_allowed_values_ignores_nulls (repr_value : value → string)
    (df : DataFrame) (column : string) (allowed : list value) (null_ok : bool)
    (con : Console) :
  has_column df column = true →
  ∃ res con',
    dq.check_allowed_values repr_value df column allowed null_ok con = (Ok res, con')
    ∧ dq.check_allowed_values repr_value df column allowed (negb null_ok) con
      = (Ok res, con')
    ∧ (dq.passed res = true
       ↔ ∀ r, r ∈ rows df → cell r column = VNull ∨ cell r column ∈ allowed)
    ∧ ((∀ r, r ∈ rows df → cell r column = VNull ∨ cell r column ∈ allowed) →
       dq.passed res = true).
Proof.
  intros Hc. destruct (getitem_ok df column Hc) as (d & _ & Hget).
  unfold dq.check_allowed_values. rewrite Hc. simpl.
  unfold mbind, Py_bind, lift. rewrite Hget. simpl.
  assert (∀ b : bool,
            dq.dropna (if b then (λ r, cell r column) <$> rows df
                       else dq.dropna ((λ r, cell r column) <$> rows df))
            = dq.dropna ((λ r, cell r column) <$> rows df)) as Hflag.
  { intros []; [done|apply dropna_idemp]. }
  rewrite !Hflag.
  eexists _, _. split; [reflexivity|]. split; [reflexivity|].
  simpl.
  assert (bool_decide
            (length (filter (λ v, negb (bool_decide (v ∈ allowed)) = true)
                       (dq.dropna ((λ r, cell r column) <$> rows df))) = 0%nat)
          = true
          ↔ ∀ r, r ∈ rows df → cell r column = VNull ∨ cell r column ∈ allowed)
    as Hiff.
  { rewrite bool_decide_eq_true, length_zero_iff_nil, no_offending_values.
    split.
    - intros Hall r Hr. apply Hall, list_elem_of_fmap. by exists r.
    - intros Hall v (r & -> & Hr)%list_elem_of_fmap. by apply Hall. }
  split; [exact Hiff|apply Hiff].
Qed.

Lemma check_allowed_values_ignores_nulls_witness :
  has_column types_with_a_null "brewery_type" = true
  ∧ ∃ res,
      (dq.check_allowed_values (λ _, "?") types_with_a_null "brewery_type"
         [VStr "micro"; VStr "nano"] false console0).1 = Ok res
      ∧ dq.passed res = true.
Proof.
  split; [reflexivity|].
  destruct (check_allowed_values_ignores_nulls (λ _, "?") types_with_a_null
              "brewery_type" [VStr "micro"; VStr "nano"] false console0 eq_refl)
    as (res & con' & Hrun & _ & _ & Hpass).
  exists res. rewrite Hrun. split; [reflexivity|].
  apply Hpass. intros r Hr.
  repeat (apply elem_of_cons in Hr as [->|Hr]);
    [right; left|left; reflexivity|right; right; left|by apply elem_of_nil in Hr].
Defined.

(** ** Aggregations on a frame without rows *)

Lemma set_dtype_elem (c c' : string) (d : dtype) (cols : list (string * dtype)) :
  c' ∈ (set_dtype c d cols).*1 ↔ c' ∈ cols.*1 ∨ c' = c.
Proof.
  unfold set_dtype. destruct (bool_decide (c ∈ cols.*1)) eqn:Hc.
  - apply bool_decide_eq_true in Hc.
    rewrite <- list_fmap_compose.
    assert ((fst ∘ (λ cd : string * dtype, if decide (cd.1 = c) then (c, d) else cd))
              <$> cols = cols.*1) as ->.
    { apply list_fmap_ext. intros i [c0 d0] _. simpl.
      by destruct (decide (c0 = c)) as [->|]. }
    split; [by left|]. by intros [?| ->].
  - rewrite fmap_app, elem_of_app. simpl. rewrite list_elem_of_singleton. done.
Qed.

Lemma has_column_setitem (df : DataFrame) (c c' : string) (d : dtype)
    (rs : list (gmap string value)) :
  has_column (mkDF (set_dtype c d (columns df)) rs) c'
  = has_column df c' || bool_decide (c' = c).
Proof.
  unfold has_column, column_names. simpl.
  apply eq_true_iff_eq.
  rewrite orb_true_iff, !bool_decide_eq_true. apply set_dtype_elem.
Qed.

Section empty_frames.
Implicit Types df : DataFrame.

Lemma groupby_empty df ks dropna :
  rows df = [] → Forall (λ k, has_column df k = true) ks →
  groupby df ks dropna = Ok [].
Proof.
  intros Hrows Hks. unfold groupby.
  assert (filter (λ c, has_column df c = false) ks = []) as ->.
  { apply elem_of_nil_inv. intros k [Hk Hin]%list_elem_of_filter.
    eapply Forall_forall in Hks; [|exact Hin]. congruence. }
  rewrite Hrows. by destruct dropna.
Qed.

Lemma getitem_empty df c :
  rows df = [] → has_column df c = true →
  ∃ d, getitem df c = Ok (mkSeries d []).
Proof.
  intros Hrows (d & _ & ->)%getitem_ok. exists d. by rewrite Hrows.
Qed.

Lemma setitem_empty df c d :
  rows df = [] →
  setitem df c (mkSeries d []) = Ok (mkDF (set_dtype c d (columns df)) []).
Proof.
  intros Hrows. unfold setitem, len. rewrite Hrows. done.
Qed.

Lemma sort_values_empty ks df : rows df = [] → rows (sort_values ks df) = [].
Proof. intros Hrows. unfold sort_values. simpl. by rewrite Hrows. Qed.

Lemma head_rows_empty n df : rows df = [] → rows (head_rows n df) = [].
Proof.
  intros Hrows. unfold head_rows. simpl. rewrite Hrows.
  destruct (bool_decide _); apply take_nil.
Qed.

Lemma count_by_empty df ks :
  rows df = [] → has_column df "id" = true →
  Forall (λ k, has_column df k = true) ks →
  ∃ t, gold.count_by df ks = Ok t ∧ rows t = [].
Proof.
  intros Hrows Hid Hks. unfold gold.count_by.
  rewrite groupby_empty by done. simpl. rewrite Hid. by eexists.
Qed.
End empty_frames.

Local Arguments gold.count_by : simpl never.
Local Arguments groupby : simpl never.
Local Arguments getitem : simpl never.
Local Arguments setitem : simpl never.
Local Arguments sort_values : simpl never.
Local Arguments head_rows : simpl never.
Local Arguments reset_index : simpl never.
Local Arguments has_column : simpl never.

Lemma count_aggregation_empty (ks : list string) (by_ : list (string * bool))
    (msg : DataFrame → string) (post : DataFrame → DataFrame) (w : gold.World) :
  (∀ t, rows t = [] → rows (post t) = []) →
  empty_with_schema (gold.frame w) →
  Forall (λ k, k ∈ required_columns) ks →
  returns_no_rows
    (df ← gold.get_frame;
     counted ← lift (gold.count_by df ks);
     let result := post (sort_values by_ counted) in
     gold.on_console (info (msg result));;
     mret result) w.
Proof.
  intros Hpost Hw Hks.
  assert (Forall (λ k, has_column (gold.frame w) k = true) ks) as Hcols.
  { destruct Hw as [_ Hall]. eapply Forall_impl; [exact Hks|].
    intros k Hk. simpl. by eapply Forall_forall in Hall. }
  pose proof Hw as Hw'. schema Hw.
  destruct (count_by_empty (gold.frame w) ks) as (t & Hrun & Ht); [done..|].
  unfold returns_no_rows. run_py. rewrite Hrun.
  eexists _, _. split; [reflexivity|]. simpl.
  split; [by apply Hpost, sort_values_empty|]. split; [exact Hw'|done].
Qed.

Lemma agg_breweries_by_type_and_state_empty w :
  empty_with_schema (gold.frame w) →
  returns_no_rows gold.agg_breweries_by_type_and_state w.
Proof.
  intros Hw.
  apply (count_aggregation_empty ["brewery_type"; "state_province"] _
           (λ result, "[agg_by_type_and_state] Produzidas "
                      +:+ pretty (len result) +:+ " linhas.") id);
    [done|done|in_required].
Qed.

Lemma agg_breweries_by_country_and_type_empty w :
  empty_with_schema (gold.frame w) →
  returns_no_rows gold.agg_breweries_by_country_and_type w.
Proof.
  intros Hw.
  apply (count_aggregation_empty ["country"; "brewery_type"] _
           (λ result, "[agg_by_country_and_type] Produzidas "
                      +:+ pretty (len result) +:+ " linhas.") id);
    [done|done|in_required].
Qed.

Lemma agg_top_cities_empty top_n w :
  empty_with_schema (gold.frame w) →
  returns_no_rows (gold.agg_top_cities top_n) w.
Proof.
  intros Hw.
  apply (count_aggregation_empty ["city"; "state_province"; "country"] _
           (λ _, "[agg_top_cities] Top " +:+ pretty top_n
                 +:+ " cidades calculadas.") (head_rows top_n));
    [apply head_rows_empty|done|in_required].
Qed.

Lemma agg_geo_coverage_empty w :
  empty_with_schema (gold.frame w) →
  returns_no_rows gold.agg_geo_coverage w.
Proof.
  intros Hw.
  apply (count_aggregation_empty ["country"; "state_province"; "city"] _
           (λ result, "[agg_per_location] Produzidas "
                      +:+ pretty (len result) +:+ " linhas.") id);
    [done|done|in_required].
Qed.

Lemma frame_setitem_empty (c : string) (d : dtype) (w : gold.World) :
  rows (gold.frame w) = [] →
  gold.frame_setitem c (mkSeries d []) w
  = (Ok tt,
     gold.mkWorld (mkDF (set_dtype c d (columns (gold.frame w))) [])
                  (gold.console w) (gold.gold_files w)).
Proof.
  intros Hrows. unfold gold.frame_setitem. by rewrite setitem_empty.
Qed.

Lemma has_column_elem (df : DataFrame) (c : string) :
  has_column df c = true ↔ c ∈ (columns df).*1.
Proof. unfold has_column, column_names. apply bool_decide_eq_true. Qed.

(** Adding or retyping a column of a frame without rows keeps it a frame
    without rows that has the columns the aggregations read. *)
Lemma empty_with_schema_set_dtype (cols : list (string * dtype)) (c : string)
    (d : dtype) :
  empty_with_schema (mkDF cols []) →
  empty_with_schema (mkDF (set_dtype c d cols) []).
Proof.
  intros [_ Hall]. split; [done|].
  eapply Forall_impl; [exact Hall|]. intros k Hk. simpl in *.
  apply has_column_elem. simpl. apply set_dtype_elem. left.
  by apply has_column_elem in Hk.
Qed.

Lemma empty_with_schema_columns (df : DataFrame) :
  empty_with_schema df → empty_with_schema (mkDF (columns df) []).
Proof. intros [_ Hall]. by split. Qed.

Lemma has_column_added (cols : list (string * dtype)) (c : string) (d : dtype)
    (rs : list (gmap string value)) :
  has_column (mkDF (set_dtype c d cols) rs) c = true.
Proof. apply has_column_elem. simpl. apply set_dtype_elem. by right. Qed.

Lemma has_column_kept (cols : list (string * dtype)) (c c' : string) (d : dtype)
    (rs rs' : list (gmap string value)) :
  has_column (mkDF cols rs) c' = true →
  has_column (mkDF (set_dtype c d cols) rs') c' = true.
Proof.
  rewrite !has_column_elem. simpl. intros ?. apply set_dtype_elem. by left.
Qed.

Lemma has_column_rows (df : DataFrame) (rs : list (gmap string value)) (c : string) :
  has_column (mkDF (columns df) rs) c = has_column df c.
Proof. done. Qed.

Lemma schema_column (df : DataFrame) (c : string) :
  empty_with_schema df → c ∈ required_columns → has_column df c = true.
Proof. intros [_ Hall] Hc. by eapply Forall_forall in Hall. Qed.

Lemma agg_regional_diversity_empty w :
  empty_with_schema (gold.frame w) →
  returns_no_rows gold.agg_regional_diversity w.
Proof.
  intros Hw. unfold returns_no_rows, gold.agg_regional_diversity. run_py.
  rewrite groupby_empty;
    [|apply Hw|repeat constructor; apply schema_column; [done|required]].
  rewrite (schema_column _ "brewery_type") by (done || required).
  finish_empty Hw.
Qed.

Lemma agg_market_specialization_empty w :
  empty_with_schema (gold.frame w) →
  returns_no_rows gold.agg_market_specialization w.
Proof.
  intros Hw. unfold returns_no_rows, gold.agg_market_specialization. run_py.
  destruct (getitem_empty (gold.frame w) "brewery_type") as (d & ->);
    [apply Hw|apply schema_column; [done|required]|].
  rewrite !groupby_empty; simpl;
    try (by destruct Hw as [-> _]);
    try (repeat constructor; rewrite ?has_column_rows;
         apply schema_column; [done|required]).
  finish_empty Hw.
Qed.

Lemma agg_digital_maturity_empty w :
  empty_with_schema (gold.frame w) →
  returns_no_rows gold.agg_digital_maturity w.
Proof.
  intros Hw. pose proof Hw as [Hrows _].
  unfold returns_no_rows, gold.agg_digital_maturity, mbind, Py_bind,
    gold.get_frame, lift.
  destruct (getitem_empty (gold.frame w) "website_url") as (d1 & ->);
    [done|apply schema_column; [done|required]|].
  cbn [svalues fmap list_fmap]. rewrite frame_setitem_empty by done.
  cbn [gold.frame].
  destruct (getitem_empty (mkDF (set_dtype "has_website" DBool
                                   (columns (gold.frame w))) []) "phone")
    as (d2 & ->);
    [done|apply has_column_kept with (rs := []); rewrite has_column_rows;
          apply schema_column; [done|required]|].
  cbn [svalues fmap list_fmap]. rewrite frame_setitem_empty by done.
  cbn [gold.frame columns].
  set (cols2 := set_dtype "has_phone" DBool
                  (set_dtype "has_website" DBool (columns (gold.frame w)))).
  destruct (getitem_empty (mkDF cols2 []) "has_website") as (d3 & ->);
    [done|apply has_column_kept with (rs := []), has_column_added|].
  destruct (getitem_empty (mkDF cols2 []) "has_phone") as (d4 & ->);
    [done|apply has_column_added|].
  cbn [svalues zip_with]. rewrite frame_setitem_empty by done.
  cbn [gold.frame columns].
  assert (empty_with_schema (mkDF (set_dtype "digitally_ready" DBool cols2) []))
    as Hw3
    by (do 3 apply empty_with_schema_set_dtype;
        by apply empty_with_schema_columns).
  rewrite groupby_empty;
    [|done|repeat constructor; apply schema_column; [done|required]].
  rewrite (schema_column _ "id") by (done || required).
  run_py. finish_empty Hw3.
Qed.

Lemma agg_data_trust_score_empty w :
  empty_with_schema (gold.frame w) →
  returns_no_rows gold.agg_data_trust_score w.
Proof.
  intros Hw. pose proof Hw as [Hrows _].
  unfold returns_no_rows, gold.agg_data_trust_score, mbind, Py_bind,
    gold.get_frame, lift.
  assert (filter (λ c, has_column (gold.frame w) c = false)
                 ["address_1"; "phone"; "website_url"] = []) as ->.
  { apply elem_of_nil_inv. intros c [Hc Hin]%list_elem_of_filter.
    rewrite schema_column in Hc; [done|done|].
    repeat (apply elem_of_cons in Hin as [->|Hin]); [required..|].
    by apply elem_of_nil in Hin. }
  unfold mret, Py_ret. rewrite Hrows. cbn [fmap list_fmap].
  rewrite frame_setitem_empty by done. cbn [gold.frame columns].
  assert (empty_with_schema
            (mkDF (set_dtype "completeness" DNum (columns (gold.frame w))) []))
    as Hw1
    by (apply empty_with_schema_set_dtype; by apply empty_with_schema_columns).
  rewrite groupby_empty;
    [|done|repeat constructor; apply schema_column; [done|required]].
  run_py. finish_empty Hw1.
Qed.

Lemma check_volume_empty (t : DataFrame) (con : Console) :
  rows t = [] →
  dq.check_volume t 1 None con
  = (Ok (dq.mkCheck "check_volume" false
           "Contagem de linhas 0 está abaixo do mínimo de 1."),
     mkConsole
       (logged con ++
        [(WARNING,
          "[check_volume] Contagem de linhas 0 está abaixo do mínimo de 1.")])
       (printed con)).
Proof. intros Hrows. unfold dq.check_volume, len. rewrite Hrows. reflexivity. Qed.

Lemma check_nulls_loop_ok format_percent (df : DataFrame) (threshold : Qc)
    (cols issues : list string) :
  ∃ issues', dq.check_nulls_loop format_percent df threshold cols issues = Ok issues'.
Proof.
  revert issues. induction cols as [|c cols IH]; intros issues; simpl.
  - by eexists.
  - unfold dq.check_nulls_column. destruct (has_column df c) eqn:Hc; simpl.
    + destruct (getitem_ok df c Hc) as (d & _ & ->). simpl.
      destruct (dq.null_rate _) as [rate|]; [destruct (bool_decide _)|]; apply IH.
    + apply IH.
Qed.

Lemma check_nulls_ok format_percent (df : DataFrame) (cols : list string)
    (threshold : Qc) (con : Console) :
  ∃ res con', dq.check_nulls format_percent df cols threshold con = (Ok res, con').
Proof.
  unfold dq.check_nulls, mbind, Py_bind, lift.
  destruct (check_nulls_loop_ok format_percent df threshold cols []) as (issues & ->).
  by eexists _, _.
Qed.

(** The checks of [run_gold_dq] are always computed, and the first one fails
    when the first table has no rows. *)
Lemma gold_checks_ok format_percent (aggregations : list (string * DataFrame))
    (acc : list dq.CheckResult) (con : Console) :
  ∃ more con',
    gold.gold_checks format_percent aggregations acc con = (Ok (acc ++ more), con')
    ∧ ∀ name t rest, aggregations = (name, t) :: rest → rows t = [] →
                     Exists failed more.
Proof.
  revert acc con. induction aggregations as [|[name t] rest IH]; intros acc con.
  - exists [], con. split; [simpl; by rewrite app_nil_r|done].
  - simpl. unfold mbind at 1, Py_bind at 1.
    assert (∃ c con1, dq.check_volume t 1 None con = (Ok c, con1)
                      ∧ (rows t = [] → failed c)) as (c & con1 & -> & Hc).
    { unfold dq.check_volume. eexists _, _. split; [reflexivity|].
      intros Hrows. unfold failed, len. simpl. by rewrite Hrows. }
    unfold mbind at 1, Py_bind at 1.
    destruct (has_column t "brewery_count").
    + unfold mbind at 1, Py_bind at 1.
      destruct (check_nulls_ok format_percent t ["brewery_count"] (num 0) con1)
        as (c2 & con2 & ->).
      unfold mret, Py_ret.
      destruct (IH ((acc ++ [c]) ++ [c2]) con2) as (more & con' & -> & _).
      exists (c :: c2 :: more), con'. split.
      * by rewrite <- !app_assoc.
      * intros ? ? ? [= <- <- <-] Hrows. left. by apply Hc.
    + unfold mret, Py_ret.
      destruct (IH (acc ++ [c]) con1) as (more & con' & -> & _).
      exists (c :: more), con'. split.
      * by rewrite <- !app_assoc.
      * intros ? ? ? [= <- <- <-] Hrows. left. by apply Hc.
Qed.

Lemma run_suite_raises (checks : list dq.CheckResult) (con : Console) :
  Exists failed checks →
  ∃ con', dq.run_suite checks true con
          = (Raise (ValueError
                      "A suíte de qualidade de dados falhou. Veja o relatório acima."),
             con').
Proof.
  intros Hfailed%not_forallb_passed.
  pose proof (run_suite_outcome checks true con) as Hout.
  rewrite Hfailed in Hout. simpl in Hout.
  destruct (dq.run_suite checks true con) as [r con']. simpl in Hout. subst r.
  by exists con'.
Qed.

Lemma run_gold_dq_raises format_percent (name : string) (t : DataFrame)
    (rest : list (string * DataFrame)) (con : Console) :
  rows t = [] →
  ∃ con', gold.run_gold_dq format_percent ((name, t) :: rest) con
          = (Raise (ValueError
                      "A suíte de qualidade de dados falhou. Veja o relatório acima."),
             con').
Proof.
  intros Hrows. unfold gold.run_gold_dq.
  unfold mbind at 1, Py_bind at 1, info, log.
  unfold mbind at 1, Py_bind at 1.
  match goal with
  | |- context [gold.gold_checks _ _ [] ?c] =>
    destruct (gold_checks_ok format_percent ((name, t) :: rest) [] c)
      as (more & con1 & -> & Hfailed)
  end.
  unfold mbind, Py_bind. cbn [app].
  destruct (run_suite_raises more con1) as (con' & ->); [by eapply Hfailed|].
  by exists con'.
Qed.

Lemma bind_ok {S A B} (m : Py S A) (f : A → Py S B) (s s' : S) (a : A) :
  m s = (Ok a, s') → (m ≫= f) s = f a s'.
Proof. intros Hm. unfold mbind, Py_bind. by rewrite Hm. Qed.

Lemma bind_raise {S A B} (m : Py S A) (f : A → Py S B) (s s' : S) (e : exn) :
  m s = (Raise e, s') → (m ≫= f) s = (Raise e, s').
Proof. intros Hm. unfold mbind, Py_bind. by rewrite Hm. Qed.

Lemma load_silver_value (fs : list (string * node DataFrame)) (silver_dir : string)
    (con : Console) :
  ∃ con', gold.load_silver fs silver_dir con
          = ((gold.load_silver fs silver_dir console0).1, con').
Proof.
  unfold gold.load_silver.
  destruct (_ ≫= _) as [|f files]; [by eexists|].
  unfold mbind, Py_bind, lift.
  destruct (gold.read_partitions _ _ _); by eexists.
Qed.

(** [process_gold], once the loader has returned a frame without rows that
    has the columns: the gate raises and no file is written. *)
Lemma process_gold_empty format_percent SILVER_DIR GOLD_DIR timestamp
    run_documentation_pipeline (fs : list (string * node DataFrame))
    (df : DataFrame) (w : gold.World) :
  empty_with_schema df →
  (gold.load_silver fs SILVER_DIR console0).1 = Ok df →
  ∃ w',
    gold.process_gold format_percent SILVER_DIR GOLD_DIR timestamp
      run_documentation_pipeline fs w
    = (Raise (ValueError
                "A suíte de qualidade de dados falhou. Veja o relatório acima."),
       w')
    ∧ gold.gold_files w' = gold.gold_files w.
Proof.
  intros Hdf Hload. unfold gold.process_gold.
  erewrite bind_ok by reflexivity.
  match goal with
  | |- context [mbind _ (gold.on_console (gold.load_silver fs SILVER_DIR)) ?w0] =>
    destruct (load_silver_value fs SILVER_DIR (gold.console w0)) as (con1 & Hl);
    rewrite (bind_ok _ _ w0 (gold.mkWorld (gold.frame w0) con1 (gold.gold_files w0)) df)
      by (unfold gold.on_console; rewrite Hl, Hload; reflexivity)
  end.
  erewrite bind_ok by reflexivity.
  cbn [gold.frame gold.console gold.gold_files].
  set (w1 := gold.mkWorld df con1 (gold.gold_files w)).
  destruct (agg_breweries_by_type_and_state_empty w1) as (a1 & w2 & H1 & R1 & S2 & F2);
    [done|].
  rewrite (bind_ok _ _ _ _ _ H1).
  destruct (agg_breweries_by_country_and_type_empty w2 S2)
    as (a2 & w3 & H2 & R2 & S3 & F3).
  rewrite (bind_ok _ _ _ _ _ H2).
  destruct (agg_top_cities_empty 20 w3 S3) as (a3 & w4 & H3 & R3 & S4 & F4).
  rewrite (bind_ok _ _ _ _ _ H3).
  destruct (agg_geo_coverage_empty w4 S4) as (a4 & w5 & H4 & R4 & S5 & F5).
  rewrite (bind_ok _ _ _ _ _ H4).
  destruct (agg_digital_maturity_empty w5 S5) as (a5 & w6 & H5 & R5 & S6 & F6).
  rewrite (bind_ok _ _ _ _ _ H5).
  destruct (agg_regional_diversity_empty w6 S6) as (a6 & w7 & H6 & R6 & S7 & F7).
  rewrite (bind_ok _ _ _ _ _ H6).
  destruct (agg_market_specialization_empty w7 S7) as (a7 & w8 & H7 & R7 & S8 & F8).
  rewrite (bind_ok _ _ _ _ _ H7).
  destruct (agg_data_trust_score_empty w8 S8) as (a8 & w9 & H8 & R8 & S9 & F9).
  rewrite (bind_ok _ _ _ _ _ H8).
  cbv zeta.
  match goal with
  | |- context [gold.run_gold_dq format_percent ((?n, a1) :: ?rest)] =>
    destruct (run_gold_dq_raises format_percent n a1 rest (gold.console w9) R1)
      as (con' & Hdq)
  end.
  erewrite bind_raise by (unfold gold.on_console; rewrite Hdq; reflexivity).
  eexists. split; [reflexivity|]. simpl.
  rewrite F9, F8, F7, F6, F5, F4, F3, F2. reflexivity.
Qed.

(** C7, as the code has it.  On a cleaned frame without rows that has the
    columns the aggregations read, each of the eight aggregations returns a
    table without rows; [check_volume] with [min_rows] 1 fails on such a
    table, with a message giving the count and the minimum; [run_suite] with
    [raise_on_failure] raises as soon as one result failed; and
    [process_gold], when the loader returns such a frame, raises that error
    and leaves the Gold files as they were. *)
Theorem empty_dataset_with_columns_blocks_gold_write
    (format_percent : Qc → string) (SILVER_DIR GOLD_DIR : string)
    (timestamp : string → string)
    (run_documentation_pipeline : list (string * DataFrame) → Py gold.World unit)
    (df : DataFrame) (w : gold.World) (top_n : Z) :
  rows df = [] →
  Forall (λ c, has_column df c = true)
    ["id"; "brewery_type"; "state_province"; "country"; "city";
     "website_url"; "phone"; "address_1"] →
  Forall (λ agg : Py gold.World DataFrame,
            ∃ t w',
              agg (gold.mkWorld df (gold.console w) (gold.gold_files w)) = (Ok t, w')
              ∧ rows t = [])
    [gold.agg_breweries_by_type_and_state;
     gold.agg_breweries_by_country_and_type;
     gold.agg_top_cities top_n;
     gold.agg_geo_coverage;
     gold.agg_digital_maturity;
     gold.agg_regional_diversity;
     gold.agg_market_specialization;
     gold.agg_data_trust_score]
  ∧ (∀ t con, rows t = [] →
       ∃ con', dq.check_volume t 1 None con
               = (Ok (dq.mkCheck "check_volume" false
                        "Contagem de linhas 0 está abaixo do mínimo de 1."),
                  con'))
  ∧ (∀ checks con, Exists (λ c, dq.passed c = false) checks →
       ∃ con', dq.run_suite checks true con
               = (Raise (ValueError
                           "A suíte de qualidade de dados falhou. Veja o relatório acima."),
                  con'))
  ∧ (∀ fs, (gold.load_silver fs SILVER_DIR console0).1 = Ok df →
       ∃ w',
         gold.process_gold format_percent SILVER_DIR GOLD_DIR timestamp
           run_documentation_pipeline fs w
         = (Raise (ValueError
                     "A suíte de qualidade de dados falhou. Veja o relatório acima."),
            w')
         ∧ gold.gold_files w' = gold.gold_files w).
Proof.
  intros Hrows Hcols.
  assert (empty_with_schema df) as Hdf by done.
  split.
  { repeat apply Forall_cons_2; [..|apply Forall_nil_2].
    - destruct (agg_breweries_by_type_and_state_empty
                  (gold.mkWorld df (gold.console w) (gold.gold_files w)) Hdf)
        as (t & w' & ? & ? & _); by exists t, w'.
    - destruct (agg_breweries_by_country_and_type_empty
                  (gold.mkWorld df (gold.console w) (gold.gold_files w)) Hdf)
        as (t & w' & ? & ? & _); by exists t, w'.
    - destruct (agg_top_cities_empty top_n
                  (gold.mkWorld df (gold.console w) (gold.gold_files w)) Hdf)
        as (t & w' & ? & ? & _); by exists t, w'.
    - destruct (agg_geo_coverage_empty
                  (gold.mkWorld df (gold.console w) (gold.gold_files w)) Hdf)
        as (t & w' & ? & ? & _); by exists t, w'.
    - destruct (agg_digital_maturity_empty
                  (gold.mkWorld df (gold.console w) (gold.gold_files w)) Hdf)
        as (t & w' & ? & ? & _); by exists t, w'.
    - destruct (agg_regional_diversity_empty
                  (gold.mkWorld df (gold.console w) (gold.gold_files w)) Hdf)
        as (t & w' & ? & ? & _); by exists t, w'.
    - destruct (agg_market_specialization_empty
                  (gold.mkWorld df (gold.console w) (gold.gold_files w)) Hdf)
        as (t & w' & ? & ? & _); by exists t, w'.
    - destruct (agg_data_trust_score_empty
                  (gold.mkWorld df (gold.console w) (gold.gold_files w)) Hdf)
        as (t & w' & ? & ? & _); by exists t, w'. }
  split.
  { intros t con Ht. rewrite check_volume_empty by done. by eexists. }
  split.
  { intros checks con Hfailed. by apply run_suite_raises. }
  intros fs Hload. by eapply process_gold_empty.
Qed.

Lemma empty_dataset_with_columns_blocks_gold_write_witness :
  rows empty_cleaned = []
  ∧ Forall (λ c, has_column empty_cleaned c = true)
      ["id"; "brewery_type"; "state_province"; "country"; "city";
       "website_url"; "phone"; "address_1"]
  ∧ ∃ w',
      (gold.process_gold (λ _, "0.00%") "data/silver" "data/gold" (λ _, "20260101_000000")
         (λ _, mret tt) silver_with_empty_file world0).1
      = Raise (ValueError
                 "A suíte de qualidade de dados falhou. Veja o relatório acima.")
      ∧ gold.gold_files w' = ∅.
Proof.
  assert (Forall (λ c, has_column empty_cleaned c = true)
            ["id"; "brewery_type"; "state_province"; "country"; "city";
             "website_url"; "phone"; "address_1"]) as Hcols.
  { repeat constructor. }
  split; [reflexivity|]. split; [exact Hcols|].
  destruct (empty_dataset_with_columns_blocks_gold_write
              (λ _, "0.00%") "data/silver" "data/gold" (λ _, "20260101_000000")
              (λ _, mret tt) empty_cleaned world0 20 eq_refl Hcols)
    as (_ & _ & _ & Hgold).
  destruct (Hgold silver_with_empty_file eq_refl) as (w' & Hrun & Hfiles).
  exists w'. rewrite Hrun. split; [reflexivity|exact Hfiles].
Defined.

(** C7 as stated fails: the cleaned frame that [transform] makes of zero
    records has no rows and only the [processed_at] column, and on it the
    first aggregation raises [KeyError] instead of returning an empty
    table. *)
Lemma aggregation_raises_on_empty_dataset_without_columns :
  ∃ cleaned,
    (silver.transform decimal_of_string string_of_number "2026-01-01 00:00:00"
       (DataFrame_of_records []) console0).1 = Ok cleaned
    ∧ rows cleaned = []
    ∧ (gold.agg_breweries_by_type_and_state
         (gold.mkWorld cleaned console0 ∅)).1
      = Raise (KeyError "brewery_type").
Proof.
  exists (mkDF [("processed_at", DStr)] []).
  split; [reflexivity|]. split; reflexivity.
Qed.

(** ** The empty Dataset through the Silver pipeline *)

(** The frame of zero records: no rows and no columns. *)
Example DataFrame_of_no_records : DataFrame_of_records [] = mkDF [] [].
Proof. reflexivity. Qed.

(** C6.  On the frame of zero records every transform of the Silver
    pipeline returns: the first seven return that frame, [add_metadata]
    returns it with the [processed_at] column, and so does their composition
    [transform]. *)
Theorem transform_tolerates_empty_dataset
    (parse_number : string → option Qc) (str_of_number : Qc → string)
    (now : string) (con : Console) :
  (∃ con', silver.deduplicate (DataFrame_of_records []) con
           = (Ok (DataFrame_of_records []), con'))
  ∧ (∃ con', silver.clean_strings (DataFrame_of_records []) con
             = (Ok (DataFrame_of_records []), con'))
  ∧ (∃ con', silver.normalize_phone str_of_number (DataFrame_of_records []) con
             = (Ok (DataFrame_of_records []), con'))
  ∧ (∃ con', silver.normalize_postal_code (DataFrame_of_records []) con
             = (Ok (DataFrame_of_records []), con'))
  ∧ (∃ con', silver.validate_coordinates parse_number (DataFrame_of_records []) con
             = (Ok (DataFrame_of_records []), con'))
  ∧ (∃ con', silver.standardize_brewery_type (DataFrame_of_records []) con
             = (Ok (DataFrame_of_records []), con'))
  ∧ (∃ con', silver.drop_redundant_columns (DataFrame_of_records []) con
             = (Ok (DataFrame_of_records []), con'))
  ∧ (∃ con', silver.add_metadata now (DataFrame_of_records []) con
             = (Ok (mkDF [("processed_at", DStr)] []), con'))
  ∧ (∃ con', silver.transform parse_number str_of_number now
               (DataFrame_of_records []) con
             = (Ok (mkDF [("processed_at", DStr)] []), con')).
Proof. repeat split; eexists; lazy; reflexivity. Qed.

(** ** Aggregations and their input frame *)

(** C1, at a failing input.  [agg_digital_maturity] and
    [agg_data_trust_score] write their helper columns into the frame they
    are given, so the caller's frame has more columns after the call; the
    other six return it as it was. *)
Theorem aggregations_write_helper_columns_into_input :
  column_names (frame_after gold.agg_digital_maturity two_breweries)
  = column_names two_breweries ++ ["has_website"; "has_phone"; "digitally_ready"]
  ∧ column_names (frame_after gold.agg_data_trust_score two_breweries)
    = column_names two_breweries ++ ["completeness"]
  ∧ Forall (λ agg, frame_after agg two_breweries = two_breweries)
      [gold.agg_breweries_by_type_and_state;
       gold.agg_breweries_by_country_and_type;
       gold.agg_top_cities 20;
       gold.agg_geo_coverage;
       gold.agg_regional_diversity;
       gold.agg_market_specialization].
Proof.
  split; [reflexivity|]. split; [reflexivity|].
  repeat constructor.
Qed.

(** C2, at a failing input.  The brewery without a state has a row of its
    own in the tables of the four counting aggregations, and belongs to no
    row of the four per-state tables, which group with the default
    [dropna]. *)
Theorem per_state_aggregations_drop_null_state :
  result_column gold.agg_breweries_by_type_and_state two_breweries "state_province"
  = [VStr "CA"; VNull]
  ∧ result_column gold.agg_breweries_by_country_and_type two_breweries "brewery_count"
    = [of_nat 2]
  ∧ result_column (gold.agg_top_cities 20) two_breweries "state_province"
    = [VStr "CA"; VNull]
  ∧ result_column gold.agg_geo_coverage two_breweries "state_province"
    = [VStr "CA"; VNull]
  ∧ result_column gold.agg_digital_maturity two_breweries "state_province"
    = [VStr "CA"]
  ∧ result_column gold.agg_regional_diversity two_breweries "state_province"
    = [VStr "CA"]
  ∧ result_column gold.agg_market_specialization two_breweries "state_province"
    = [VStr "CA"]
  ∧ result_column gold.agg_data_trust_score two_breweries "state_province"
    = [VStr "CA"].
Proof. repeat split; vm_compute; reflexivity. Qed.

(** ** Further properties *)

Lemma frame_unchanged_count_aggregation (ks : list string) (by_ : list (string * bool))
    (msg : DataFrame → string) (post : DataFrame → DataFrame) (w : gold.World) :
  let out :=
    (df ← gold.get_frame;
     counted ← lift (gold.count_by df ks);
     let result := post (sort_values by_ counted) in
     gold.on_console (info (msg result));;
     mret result) w in
  gold.frame out.2 = gold.frame w ∧ gold.gold_files out.2 = gold.gold_files w.
Proof.
  run_py. by destruct (gold.count_by (gold.frame w) ks).
Qed.

(** The six aggregations that do not assign to the frame return it to the
    caller as it was, whatever they return or raise, and write no file. *)
Theorem six_aggregations_leave_frame_unchanged (w : gold.World) (top_n : Z) :
  Forall (λ agg : Py gold.World DataFrame,
            gold.frame (agg w).2 = gold.frame w
            ∧ gold.gold_files (agg w).2 = gold.gold_files w)
    [gold.agg_breweries_by_type_and_state;
     gold.agg_breweries_by_country_and_type;
     gold.agg_top_cities top_n;
     gold.agg_geo_coverage;
     gold.agg_regional_diversity;
     gold.agg_market_specialization].
Proof.
  repeat apply Forall_cons_2; [..|apply Forall_nil_2].
  - apply (frame_unchanged_count_aggregation ["brewery_type"; "state_province"] _
             (λ result, "[agg_by_type_and_state] Produzidas "
                        +:+ pretty (len result) +:+ " linhas.") id).
  - apply (frame_unchanged_count_aggregation ["country"; "brewery_type"] _
             (λ result, "[agg_by_country_and_type] Produzidas "
                        +:+ pretty (len result) +:+ " linhas.") id).
  - apply (frame_unchanged_count_aggregation ["city"; "state_province"; "country"] _
             (λ _, "[agg_top_cities] Top " +:+ pretty top_n
                   +:+ " cidades calculadas.") (head_rows top_n)).
  - apply (frame_unchanged_count_aggregation ["country"; "state_province"; "city"] _
             (λ result, "[agg_per_location] Produzidas "
                        +:+ pretty (len result) +:+ " linhas.") id).
  - unfold gold.agg_regional_diversity. run_py.
    destruct (groupby _ _ _); [|done].
    by destruct (has_column _ _).
  - unfold gold.agg_market_specialization. run_py.
    destruct (getitem _ _); [|done].
    destruct (groupby _ _ _); [|done].
    by destruct (groupby _ _ _).
Qed.

Lemma first_appearance_elem `{EqDecision A} (l : list A) (x : A) :
  x ∈ l → x ∈ first_appearance l.
Proof.
  unfold first_appearance.
  assert (∀ acc, x ∈ acc ∨ x ∈ l →
                 x ∈ foldl (λ acc k, if decide (k ∈ acc) then acc else acc ++ [k])
                           acc l) as Hgen.
  { induction l as [|y l IH]; intros acc [Hacc|Hl]; simpl.
    - done.
    - by apply elem_of_nil in Hl.
    - apply IH. left. destruct (decide (y ∈ acc)); [done|].
      apply elem_of_app. by left.
    - apply IH. apply elem_of_cons in Hl as [->|Hl]; [left|by right].
      destruct (decide (y ∈ acc)); [done|]. apply elem_of_app. right. left. }
  intros Hx. apply Hgen. by right.
Qed.

(** With [dropna=False] every row of the frame falls in a group, the group
    of its key. *)
Lemma groupby_keeps_every_key (df : DataFrame) (ks : list string)
    (groups : list (list value * list (gmap string value)))
    (r : gmap string value) :
  groupby df ks false = Ok groups → r ∈ rows df →
  ∃ g, g ∈ groups ∧ g.1 = key_of ks r.
Proof.
  unfold groupby. destruct (filter _ ks); [|done].
  intros [= <-] Hr.
  exists (key_of ks r, filter (λ r', key_of ks r' = key_of ks r) (rows df)).
  split; [|done]. apply list_elem_of_fmap. exists (key_of ks r). split; [done|].
  rewrite merge_sort_Permutation. apply first_appearance_elem.
  apply list_elem_of_fmap. by exists r.
Qed.

Lemma lookup_zip_keys (ks : list string) (k : list value) (rest : list (string * value))
    (c : string) :
  NoDup ks → length k = length ks → c ∈ ks →
  ∀ i : nat, ks !! i = Some c →
    (list_to_map (zip ks k ++ rest) : gmap string value) !! c = k !! i.
Proof.
  revert k. induction ks as [|c0 ks IH]; intros k Hnd Hlen Hc i Hi;
    [by apply elem_of_nil in Hc|].
  destruct k as [|v k]; [done|]. simpl in Hlen.
  apply NoDup_cons in Hnd as [Hnotin Hnd]. simpl.
  destruct i as [|i]; simpl in Hi.
  - injection Hi as ->. by rewrite lookup_insert_eq.
  - assert (c ∈ ks) as Hin by by eapply list_elem_of_lookup_2.
    rewrite lookup_insert_ne by (intros ->; done).
    change ((v :: k) !! S i) with (k !! i).
    apply IH; [done|lia|done|done].
Qed.

Lemma reset_index_key_cells (df : DataFrame) (ks : list string)
    (aggregated : list (string * dtype)) (body : list (list value * list value))
    (kv : list value * list value) :
  NoDup ks → length kv.1 = length ks → kv ∈ body →
  ∃ row, row ∈ rows (reset_index df ks aggregated body)
         ∧ key_of ks row = kv.1.
Proof.
  intros Hnd Hlen Hkv.
  exists (list_to_map (zip ks kv.1 ++ zip aggregated.*1 kv.2)). split.
  - unfold reset_index. simpl. apply list_elem_of_fmap. by exists kv.
  - unfold key_of. apply list_eq. intros i. rewrite list_lookup_fmap.
    destruct (ks !! i) as [c|] eqn:Hi; simpl.
    + unfold cell. rewrite (lookup_zip_keys ks kv.1 _ c Hnd Hlen) with (i := i);
        [|by eapply list_elem_of_lookup_2|done].
      destruct (kv.1 !! i) eqn:Hk; [done|].
      apply lookup_ge_None in Hk. apply lookup_lt_Some in Hi. lia.
    + symmetry. apply lookup_ge_None. apply lookup_ge_None in Hi. lia.
Qed.

Lemma count_by_keeps_every_key (df : DataFrame) (ks : list string) (t : DataFrame)
    (r : gmap string value) :
  NoDup ks → gold.count_by df ks = Ok t → r ∈ rows df →
  ∃ row, row ∈ rows t ∧ key_of ks row = key_of ks r.
Proof.
  intros Hnd Hrun Hr. unfold gold.count_by in Hrun.
  destruct (groupby df ks false) as [groups|] eqn:Hg; [|done]. simpl in Hrun.
  destruct (has_column df "id"); [|done]. injection Hrun as <-.
  destruct (groupby_keeps_every_key df ks groups r Hg Hr) as (g & Hin & Hkey).
  destruct (reset_index_key_cells df ks [("brewery_count", DNum)]
              ((λ g, (g.1, [of_nat (agg_count "id" g.2)])) <$> groups)
              (g.1, [of_nat (agg_count "id" g.2)])) as (row & Hrow & Hk).
  - done.
  - simpl. rewrite Hkey. unfold key_of. by rewrite length_fmap.
  - apply list_elem_of_fmap. by exists g.
  - exists row. split; [done|]. by rewrite Hk.
Qed.

Lemma sort_values_elem (by_ : list (string * bool)) (df : DataFrame)
    (row : gmap string value) :
  row ∈ rows (sort_values by_ df) ↔ row ∈ rows df.
Proof. unfold sort_values. simpl. by rewrite merge_sort_Permutation. Qed.

Lemma count_by_total (df : DataFrame) (ks : list string) :
  Forall (λ k, has_column df k = true) ks → has_column df "id" = true →
  ∃ t, gold.count_by df ks = Ok t.
Proof.
  intros Hks Hid. unfold gold.count_by, groupby.
  assert (filter (λ c, has_column df c = false) ks = []) as ->.
  { apply elem_of_nil_inv. intros k [Hk Hin]%list_elem_of_filter.
    eapply Forall_forall in Hks; [|exact Hin]. congruence. }
  simpl. rewrite Hid. by eexists.
Qed.

Lemma count_aggregation_covers_keys (ks : list string) (by_ : list (string * bool))
    (msg : DataFrame → string) (w : gold.World) :
  NoDup ks →
  Forall (λ k, has_column (gold.frame w) k = true) ks →
  has_column (gold.frame w) "id" = true →
  ∃ t w',
    (df ← gold.get_frame;
     counted ← lift (gold.count_by df ks);
     let result := sort_values by_ counted in
     gold.on_console (info (msg result));;
     mret result) w = (Ok t, w')
    ∧ covers_keys ks (gold.frame w) t.
Proof.
  intros Hnd Hks Hid.
  destruct (count_by_total (gold.frame w) ks Hks Hid) as (counted & Hc).
  run_py. rewrite Hc. eexists _, _. split; [reflexivity|].
  intros r Hr.
  destruct (count_by_keeps_every_key _ _ _ r Hnd Hc Hr) as (row & Hrow & Hkey).
  exists row. split; [by apply sort_values_elem|].
  intros k Hk. apply list_elem_of_lookup in Hk as (i & Hi).
  assert (key_of ks row !! i = key_of ks r !! i) as Hcell by by rewrite Hkey.
  unfold key_of in Hcell. rewrite !list_lookup_fmap, Hi in Hcell.
  by injection Hcell.
Qed.

(** The counting aggregations that keep all their groups (by type and
    state, by country and type, by location) group with [dropna=False]: on a
    frame that has their columns they return, and every record of the frame,
    a record with a null key included, has a row with its key in the
    table. *)
Theorem counting_aggregations_keep_null_keys (w : gold.World) :
  Forall (λ c, has_column (gold.frame w) c = true)
    ["id"; "brewery_type"; "state_province"; "country"; "city"] →
  (∃ t w', gold.agg_breweries_by_type_and_state w = (Ok t, w')
           ∧ covers_keys ["brewery_type"; "state_province"] (gold.frame w) t)
  ∧ (∃ t w', gold.agg_breweries_by_country_and_type w = (Ok t, w')
             ∧ covers_keys ["country"; "brewery_type"] (gold.frame w) t)
  ∧ (∃ t w', gold.agg_geo_coverage w = (Ok t, w')
             ∧ covers_keys ["country"; "state_province"; "city"] (gold.frame w) t).
Proof.
  intros Hcols.
  repeat (apply Forall_cons in Hcols as [? Hcols]).
  repeat split.
  - apply (count_aggregation_covers_keys ["brewery_type"; "state_province"] _
             (λ result, "[agg_by_type_and_state] Produzidas "
                        +:+ pretty (len result) +:+ " linhas."));
      [apply (bool_decide_unpack _); vm_compute; exact I
      |by repeat constructor|done].
  - apply (count_aggregation_covers_keys ["country"; "brewery_type"] _
             (λ result, "[agg_by_country_and_type] Produzidas "
                        +:+ pretty (len result) +:+ " linhas."));
      [apply (bool_decide_unpack _); vm_compute; exact I
      |by repeat constructor|done].
  - apply (count_aggregation_covers_keys ["country"; "state_province"; "city"] _
             (λ result, "[agg_per_location] Produzidas "
                        +:+ pretty (len result) +:+ " linhas."));
      [apply (bool_decide_unpack _); vm_compute; exact I
      |by repeat constructor|done].
Qed.

Lemma counting_aggregations_keep_null_keys_witness :
  Forall (λ c, has_column two_breweries c = true)
    ["id"; "brewery_type"; "state_province"; "country"; "city"]
  ∧ ∃ t, (gold.agg_breweries_by_type_and_state (gold_world two_breweries)).1 = Ok t
         ∧ covers_keys ["brewery_type"; "state_province"] two_breweries t.
Proof.
  assert (Forall (λ c, has_column two_breweries c = true)
            ["id"; "brewery_type"; "state_province"; "country"; "city"]) as Hcols
    by repeat constructor.
  split; [exact Hcols|].
  destruct (counting_aggregations_keep_null_keys (gold_world two_breweries) Hcols)
    as ((t & w' & Hrun & Hkeys) & _).
  exists t. rewrite Hrun. split; [reflexivity|exact Hkeys].
Defined.

(** On a frame whose [brewery_type] column has the text dtype,
    [standardize_brewery_type] returns (it does not raise), keeps the number
    of rows, and leaves in every row a type of the closed vocabulary or
    [unknown]: the lower-cased, trimmed text when that is a known type,
    [unknown] otherwise, a null included. *)
Theorem standardize_brewery_type_closed_vocabulary (df : DataFrame) (con : Console) :
  column_dtype df "brewery_type" = Some DStr →
  ∃ df' con',
    silver.standardize_brewery_type df con = (Ok df', con')
    ∧ len df' = len df
    ∧ (∀ (i : nat) r, rows df !! i = Some r →
         ∃ r', rows df' !! i = Some r'
               ∧ cell r' "brewery_type" = standard_type (cell r "brewery_type"))
    ∧ ∀ r', r' ∈ rows df' →
        ∃ t, cell r' "brewery_type" = VStr t
             ∧ (t ∈ silver.KNOWN_BREWERY_TYPES ∨ t = "unknown").
Proof.
  intros Hd. pose proof (column_dtype_has _ _ _ Hd) as Hc.
  unfold silver.standardize_brewery_type. rewrite Hc.
  unfold mbind at 1, Py_bind at 1.
  unfold mbind, Py_bind, lift, getitem at 1. rewrite Hd.
  unfold str_accessor. cbn [sdtype svalues].
  rewrite <- (list_fmap_compose (str_method lower) (str_method strip)), setitem_map.
  set (df1 := map_column "brewery_type" DStr (str_method strip ∘ str_method lower) df).
  assert (has_column df1 "brewery_type" = true) as Hc1.
  { unfold has_column, column_names, df1, map_column. simpl.
    rewrite set_dtype_names; [done|]. by apply bool_decide_eq_true in Hc. }
  destruct (getitem_ok df1 "brewery_type" Hc1) as (d1 & _ & ->).
  cbn [svalues]. rewrite setitem_map.
  eexists _, _. split; [reflexivity|].
  assert (∀ (m : gmap string value) v,
            cell (<["brewery_type" := v]> m) "brewery_type" = v) as Hput
    by (intros; unfold cell; by rewrite lookup_insert_eq).
  match goal with |- len ?d = _ ∧ _ => set (df2 := d) end.
  split; [unfold len, df2, map_column, df1; simpl; by rewrite !length_fmap|].
  assert (∀ (i : nat) r, rows df !! i = Some r →
            ∃ r', rows df2 !! i = Some r'
                  ∧ cell r' "brewery_type" = standard_type (cell r "brewery_type"))
    as Hrows.
  { intros i r Hi. eexists. split.
    - unfold df2, map_column, df1. simpl. rewrite !list_lookup_fmap, Hi. reflexivity.
    - rewrite !Hput. unfold standard_type, compose.
      by destruct (str_method strip (str_method lower _)). }
  split; [exact Hrows|].
  intros r' Hr'. apply list_elem_of_lookup in Hr' as (i & Hi).
  assert (is_Some (rows df !! i)) as (r & Hr).
  { apply lookup_lt_is_Some. apply lookup_lt_Some in Hi.
    unfold df2, map_column, df1 in Hi. simpl in Hi. by rewrite !length_fmap in Hi. }
  destruct (Hrows i r Hr) as (r'' & Hi' & Hcell).
  rewrite Hi in Hi'. injection Hi' as <-. rewrite Hcell.
  unfold standard_type.
  destruct (str_method strip (str_method lower _)) as [|t| |];
    try (exists "unknown"; split; [done|by right]).
  destruct (decide (t ∈ silver.KNOWN_BREWERY_TYPES)).
  + exists t. split; [done|by left].
  + exists "unknown". split; [done|by right].
Qed.

Lemma standardize_brewery_type_closed_vocabulary_witness :
  column_dtype scenario_record "brewery_type" = Some DStr
  ∧ ∃ df', (silver.standardize_brewery_type scenario_record console0).1 = Ok df'
           ∧ len df' = 1%nat.
Proof.
  split; [reflexivity|].
  destruct (standardize_brewery_type_closed_vocabulary scenario_record console0 eq_refl)
    as (df' & con' & Hrun & Hlen & _).
  exists df'. rewrite Hrun. split; [reflexivity|exact Hlen].
Defined.

(** The scenario of the specification: one raw record with a padded,
    capitalised type, a formatted phone number and a latitude out of range
    comes out with type [micro], the phone's digits and a null latitude. *)
Theorem transform_scenario (now : string) :
  ∃ df' con',
    silver.transform decimal_of_string string_of_number now scenario_record console0
    = (Ok df', con')
    ∧ (λ r, (cell r "brewery_type", cell r "phone", cell r "latitude")) <$> rows df'
      = [(VStr "micro", VStr "5551234567", VNull)].
Proof.
  set (out := silver.transform decimal_of_string string_of_number now
                scenario_record console0).
  exists (match out.1 with Ok df' => df' | Raise _ => mkDF [] [] end), out.2.
  split; vm_compute; reflexivity.
Qed.

(** ** The checks of data_quality.py *)

Lemma length_zero_iff_nil {A} (l : list A) : length l = 0%nat ↔ l = [].
Proof. by destruct l. Qed.

Lemma filter_nil_iff {A} (P : A → Prop) `{∀ x, Decision (P x)} (l : list A) :
  filter P l = [] ↔ Forall (λ x, ¬ P x) l.
Proof.
  induction l as [|x l IH]; [by split; [constructor|]|].
  rewrite filter_cons, Forall_cons. destruct (decide (P x)) as [Hp|Hp].
  - split; [done|]. by intros [? _].
  - rewrite IH. split; [by intros ?; split|by intros [_ ?]].
Qed.

(** [check_volume] returns on every frame.  Its result passes exactly when
    the number of rows is at least [min_rows] and, where a maximum is given,
    at most [max_rows]: both bounds are inclusive. *)
Theorem check_volume_bounds_inclusive (df : DataFrame) (min_rows : Z)
    (max_rows : option Z) (con : Console) :
  ∃ res con',
    dq.check_volume df min_rows max_rows con = (Ok res, con')
    ∧ logs_result res con con'
    ∧ dq.check_name res = "check_volume"
    ∧ (dq.passed res = true
       ↔ (min_rows ≤ Z.of_nat (len df))%Z
         ∧ ∀ m, max_rows = Some m → (Z.of_nat (len df) ≤ m)%Z).
Proof.
  unfold dq.check_volume. eexists _, _. split; [reflexivity|].
  split; [reflexivity|]. split; [reflexivity|]. simpl.
  rewrite bool_decide_eq_true, length_zero_iff_nil.
  destruct max_rows as [m|]; repeat case_bool_decide; simpl; split;
    try (intros [? Hm]; try specialize (Hm _ eq_refl)); try intros ?;
    try done; try lia; try (split; [lia|intros ? [= <-]; lia]);
    try (split; [lia|done]).
Qed.

Lemma check_nulls_column_spec format_percent (df : DataFrame) (threshold : Qc)
    (issues : list string) (col : string) :
  ∃ more,
    dq.check_nulls_column format_percent df threshold issues col = Ok (issues ++ more)
    ∧ (more = [] ↔ nulls_within threshold df col).
Proof.
  unfold dq.check_nulls_column, nulls_within, column_cells.
  destruct (has_column df col) eqn:Hc; simpl.
  - destruct (getitem_ok df col Hc) as (d & _ & ->). simpl.
    destruct (dq.null_rate _) as [rate|].
    + case_bool_decide as Hlt.
      * eexists. split; [reflexivity|]. split; [done|].
        intros [_ Hle]. specialize (Hle _ eq_refl).
        by apply Qcle_not_lt in Hle.
      * exists []. rewrite app_nil_r. split; [done|]. split; [|done].
        intros _. split; [done|]. intros ? [= <-]. by apply Qcnot_lt_le.
    + exists []. rewrite app_nil_r. split; [done|]. split; [|done].
      intros _. by split.
  - eexists. split; [reflexivity|]. split; [done|]. by intros [? _].
Qed.

Lemma check_nulls_loop_spec format_percent (df : DataFrame) (threshold : Qc)
    (cols issues : list string) :
  ∃ more,
    dq.check_nulls_loop format_percent df threshold cols issues = Ok (issues ++ more)
    ∧ (more = [] ↔ Forall (nulls_within threshold df) cols).
Proof.
  revert issues. induction cols as [|c cols IH]; intros issues; simpl.
  - exists []. rewrite app_nil_r. split; [done|]. split; [constructor|done].
  - destruct (check_nulls_column_spec format_percent df threshold issues c)
      as (m1 & -> & H1). simpl.
    destruct (IH (issues ++ m1)) as (m2 & -> & H2).
    exists (m1 ++ m2). rewrite app_assoc. split; [done|].
    rewrite Forall_cons, <- H1, <- H2. split.
    + by intros [-> ->]%app_eq_nil.
    + by intros [-> ->].
Qed.

Lemma null_rate_zero (vs : list value) (rate : Qc) :
  dq.null_rate vs = Some rate →
  (rate ≤ num 0)%Qc ↔ Forall (λ v, v ≠ VNull) vs.
Proof.
  unfold dq.null_rate. destruct vs as [|v vs]; [done|].
  intros [= <-].
  set (l := v :: vs).
  assert (filter (λ v, isna v = true) l = [] ↔ Forall (λ v, v ≠ VNull) l) as <-.
  { rewrite filter_nil_iff. apply Forall_iff. intros [| | |]; simpl; split; done. }
  rewrite <- length_zero_iff_nil.
  unfold Qcle, num. simpl. rewrite !Qred_correct.
  unfold Qle. simpl. lia.
Qed.

(** [check_nulls] returns on every frame and for every list of columns.  Its
    result passes exactly when every listed column exists and has a share of
    nulls that does not exceed the threshold.  With the default threshold 0
    that means: every listed column exists and holds no null; so a frame
    without rows passes as soon as it has the columns. *)
Theorem check_nulls_verdict (format_percent : Qc → string) (df : DataFrame)
    (cols : list string) (threshold : Qc) (con : Console) :
  ∃ res con',
    dq.check_nulls format_percent df cols threshold con = (Ok res, con')
    ∧ logs_result res con con'
    ∧ (dq.passed res = true ↔ Forall (nulls_within threshold df) cols)
    ∧ (threshold = num 0 →
       (dq.passed res = true
        ↔ Forall (λ col, has_column df col = true
                         ∧ ∀ r, r ∈ rows df → cell r col ≠ VNull) cols)).
Proof.
  unfold dq.check_nulls, mbind, Py_bind, lift.
  destruct (check_nulls_loop_spec format_percent df threshold cols [])
    as (more & -> & Hmore).
  simpl. eexists _, _. split; [reflexivity|]. split; [reflexivity|]. simpl.
  rewrite bool_decide_eq_true, length_zero_iff_nil, Hmore.
  split; [done|]. intros ->. apply Forall_iff. intros col.
  unfold nulls_within, column_cells. apply and_iff_compat_l.
  destruct (dq.null_rate ((λ r, cell r col) <$> rows df)) as [rate|] eqn:Hrate.
  - pose proof (null_rate_zero _ _ Hrate) as Hzero.
    rewrite Forall_fmap, Forall_forall in Hzero. simpl in Hzero.
    rewrite <- Hzero.
    split; [by intros H; apply H|by intros H ? [= <-]].
  - unfold dq.null_rate in Hrate.
    destruct (rows df) as [|r rs]; [|done].
    split; [by intros _ ? ?%elem_of_nil|done].
Qed.




(** [check_schema] returns on every frame.  Its result passes exactly when
    every expected column is a column of the frame; when it fails, the
    details name the expected columns that are missing, in the order in
    which they were expected. *)
Theorem check_schema_verdict (repr_value : value → string) (df : DataFrame)
    (expected_columns : list string) (con : Console) :
  ∃ res con',
    dq.check_schema repr_value df expected_columns con = (Ok res, con')
    ∧ logs_result res con con'
    ∧ (dq.passed res = true
       ↔ ∀ c, c ∈ expected_columns → c ∈ column_names df)
    ∧ (dq.passed res = false →
       dq.details res
       = "Colunas ausentes: "
         +:+ dq.repr_names repr_value
               (filter (λ c, c ∉ column_names df) expected_columns)).
Proof.
  unfold dq.check_schema. eexists _, _. split; [reflexivity|].
  split; [reflexivity|]. simpl.
  assert (filter (λ c, has_column df c = false) expected_columns
          = filter (λ c, c ∉ column_names df) expected_columns) as ->.
  { apply list_filter_iff. intros c. unfold has_column.
    by rewrite bool_decide_eq_false. }
  split.
  - rewrite bool_decide_eq_true, length_zero_iff_nil, filter_nil_iff,
      Forall_forall.
    split; intros H c Hin; specialize (H c Hin).
    + by apply dec_stable.
    + by intros ?.
  - by intros ->.
Qed.

Lemma print_report_lines (checks : list dq.CheckResult) (con : Console) :
  dq.print_report checks con
  = (Ok tt, mkConsole (logged con) (printed con ++ (report_line <$> checks))).
Proof.
  revert con. induction checks as [|c checks IH]; intros con; simpl.
  - unfold mret, Py_ret. rewrite app_nil_r. by destruct con.
  - unfold mbind, Py_bind, print. rewrite IH. simpl.
    by rewrite <- app_assoc.
Qed.

(** [run_suite] writes nothing to the log and prints the whole report,
    whether it returns or raises: the title, a rule, one line per check in
    the order of the list, a rule and the overall verdict.  The exception,
    when there is one, comes after the report. *)
Theorem run_suite_prints_whole_report (checks : list dq.CheckResult)
    (raise_on_failure : bool) (con : Console) :
  let con' := (dq.run_suite checks raise_on_failure con).2 in
  let newline := String (ascii_of_nat 10) "" in
  let rule := dq.repeat_string "=" 50 in
  logged con' = logged con
  ∧ printed con'
    = printed con
      ++ [newline +:+ "Relatorio de Qualidade de Dados"; rule]
      ++ (report_line <$> checks)
      ++ [rule;
          "  Geral: "
          +:+ (if forallb dq.passed checks
               then "TODAS AS VERIFICACOES PASSARAM"
               else "ALGUMAS VERIFICACOES FALHARAM")
          +:+ newline].
Proof.
  unfold dq.run_suite, mbind, Py_bind, print. simpl.
  rewrite print_report_lines. simpl.
  destruct (negb (forallb dq.passed checks) && raise_on_failure); simpl;
    (split; [done|]); rewrite <- !app_assoc; simpl;
    by destruct (forallb dq.passed checks).
Qed.

(** [check_allowed_values] on a frame that lacks the column does not raise:
    it returns a failed result that names the column, and logs it as a
    warning. *)
Theorem check_allowed_values_missing_column (repr_value : value → string)
    (df : DataFrame) (column : string) (allowed : list value) (null_ok : bool)
    (con : Console) :
  has_column df column = false →
  ∃ res con',
    dq.check_allowed_values repr_value df column allowed null_ok con = (Ok res, con')
    ∧ logs_result res con con'
    ∧ dq.passed res = false
    ∧ dq.details res = "Coluna '" +:+ column +:+ "' não encontrada.".
Proof.
  intros Hc. unfold dq.check_allowed_values. rewrite Hc. simpl.
  by eexists _, _.
Qed.

Lemma check_allowed_values_missing_column_witness :
  has_column types_with_a_null "country" = false
  ∧ ∃ res,
      (dq.check_allowed_values (λ _, "") types_with_a_null "country" [] true
         console0).1 = Ok res
      ∧ dq.passed res = false.
Proof.
  split; [reflexivity|].
  destruct (check_allowed_values_missing_column (λ _, "") types_with_a_null
              "country" [] true console0 eq_refl)
    as (res & con' & Hrun & _ & Hfailed & _).
  exists res. rewrite Hrun. by split.
Defined.

(** ** Frames that agree on some columns *)

Lemma rows_agree_mono (cs cs' : list string) r r' :
  cs' ⊆ cs → rows_agree cs r r' → rows_agree cs' r r'.
Proof. intros Hsub Hr c Hc. apply Hr, Hsub, Hc. Qed.

Lemma frames_agree_mono (cs cs' : list string) df df' :
  cs' ⊆ cs → frames_agree cs df df' → frames_agree cs' df df'.
Proof.
  intros Hsub [Hd Hr]. split; [intros c Hc; apply Hd, Hsub, Hc|].
  eapply Forall2_impl; [exact Hr|]. intros r r'. by apply rows_agree_mono.
Qed.

Lemma frames_agree_refl (cs : list string) df : frames_agree cs df df.
Proof. split; [done|]. by apply Forall2_same_length_lookup_2; [|intros ??? -> [= <-]]. Qed.

Lemma frames_agree_trans (cs : list string) df1 df2 df3 :
  frames_agree cs df1 df2 → frames_agree cs df2 df3 → frames_agree cs df1 df3.
Proof.
  intros [Hd1 Hr1] [Hd2 Hr2]. split.
  - intros c Hc. by rewrite Hd2, Hd1.
  - eapply Forall2_trans; [|exact Hr1|exact Hr2].
    intros r1 r2 r3 H12 H23 c Hc. by rewrite H23, H12.
Qed.

Lemma has_column_is_Some (df : DataFrame) (c : string) :
  has_column df c = true ↔ is_Some (column_dtype df c).
Proof.
  split.
  - intros (d & Hd)%has_column_dtype. by exists d.
  - intros (d & Hd). by eapply column_dtype_has.
Qed.

Lemma has_column_agree (cs : list string) df df' (c : string) :
  frames_agree cs df df' → c ∈ cs → has_column df' c = has_column df c.
Proof.
  intros [Hd _] Hc. apply eq_true_iff_eq.
  by rewrite !has_column_is_Some, Hd.
Qed.

Lemma cells_agree (cs : list string) (rs rs' : list (gmap string value)) (c : string) :
  Forall2 (rows_agree cs) rs rs' → c ∈ cs →
  (λ r, cell r c) <$> rs' = (λ r, cell r c) <$> rs.
Proof.
  intros Hr Hc. induction Hr as [|r r' rs rs' Hrr _ IH]; [done|].
  rewrite !fmap_cons, IH. f_equal. by apply Hrr.
Qed.

Lemma getitem_agree (cs : list string) df df' (c : string) :
  frames_agree cs df df' → c ∈ cs → getitem df' c = getitem df c.
Proof.
  intros [Hd Hr] Hc. unfold getitem. rewrite (Hd c Hc).
  destruct (column_dtype df c); [|done]. by rewrite (cells_agree cs _ _ c Hr Hc).
Qed.

Lemma key_of_agree (cs ks : list string) r r' :
  ks ⊆ cs → rows_agree cs r r' → key_of ks r' = key_of ks r.
Proof.
  intros Hsub Hr. unfold key_of. apply list_fmap_ext. intros i c Hi.
  apply Hr, Hsub. by eapply list_elem_of_lookup_2.
Qed.

Lemma keys_agree (cs ks : list string) (rs rs' : list (gmap string value)) :
  ks ⊆ cs → Forall2 (rows_agree cs) rs rs' →
  key_of ks <$> rs' = key_of ks <$> rs.
Proof.
  intros Hsub Hr. induction Hr as [|r r' rs rs' Hrr _ IH]; [done|].
  rewrite !fmap_cons, IH. f_equal. by eapply key_of_agree.
Qed.

Lemma Forall2_filter_agree {A} (R : A → A → Prop) (P : A → Prop)
    `{∀ x, Decision (P x)} (l l' : list A) :
  (∀ x y, R x y → (P x ↔ P y)) →
  Forall2 R l l' → Forall2 R (filter P l) (filter P l').
Proof.
  intros HP Hl. induction Hl as [|x y l l' Hxy _ IH]; [constructor|].
  rewrite !filter_cons.
  destruct (decide (P x)) as [Hx|Hx], (decide (P y)) as [Hy|Hy].
  - by constructor.
  - by apply (HP _ _ Hxy) in Hx.
  - by apply (HP _ _ Hxy) in Hy.
  - done.
Qed.

Lemma groupby_agree (cs ks : list string) df df' (dropna : bool) :
  ks ⊆ cs → frames_agree cs df df' →
  results_agree (groups_agree cs) (groupby df ks dropna) (groupby df' ks dropna).
Proof.
  intros Hsub Hagree. pose proof Hagree as [Hd Hr]. unfold groupby.
  assert (filter (λ c, has_column df' c = false) ks
          = filter (λ c, has_column df c = false) ks) as ->.
  { clear -Hsub Hagree. induction ks as [|k ks IH]; [done|].
    rewrite !filter_cons.
    rewrite (has_column_agree cs df df' k Hagree) by (apply Hsub; left).
    rewrite IH; [done|]. intros c Hc. apply Hsub. by right. }
  destruct (filter _ ks); [|done]. simpl.
  set (rs := if dropna then filter _ (rows df) else rows df).
  set (rs' := if dropna then filter _ (rows df') else rows df').
  assert (Forall2 (rows_agree cs) rs rs') as Hrs.
  { unfold rs, rs'. destruct dropna; [|done].
    apply Forall2_filter_agree; [|done].
    intros r r' Hrr. by rewrite (key_of_agree cs ks r r' Hsub Hrr). }
  rewrite (keys_agree cs ks rs rs' Hsub Hrs).
  unfold groups_agree. apply Forall2_fmap.
  apply Forall2_same_length_lookup_2; [done|].
  intros i k k' -> [= <-]. simpl. split; [done|].
  apply Forall2_filter_agree; [|done].
  intros r r' Hrr. by rewrite (key_of_agree cs ks r r' Hsub Hrr).
Qed.

Lemma column_dtype_cons (c0 : string) (d0 : dtype) (cols : list (string * dtype))
    (rs rs' : list (gmap string value)) (c : string) :
  column_dtype (mkDF ((c0, d0) :: cols) rs) c
  = if decide (c0 = c) then Some d0 else column_dtype (mkDF cols rs') c.
Proof.
  unfold column_dtype. simpl. destruct (decide (c0 = c)); [done|].
  by destruct (list_find _ cols) as [[i cd]|].
Qed.

Lemma column_dtype_rows (cols : list (string * dtype))
    (rs rs' : list (gmap string value)) (c : string) :
  column_dtype (mkDF cols rs) c = column_dtype (mkDF cols rs') c.
Proof. done. Qed.

Lemma column_dtype_None (df : DataFrame) (c : string) :
  column_dtype df c = None ↔ has_column df c = false.
Proof.
  rewrite <- not_true_iff_false, has_column_is_Some, <- eq_None_not_Some. done.
Qed.

(** The dtype of a column after [df[c] = s]. *)
Lemma column_dtype_set_dtype (cols : list (string * dtype)) (c c' : string)
    (d : dtype) (rs rs' : list (gmap string value)) :
  column_dtype (mkDF (set_dtype c d cols) rs) c'
  = if decide (c' = c) then Some d else column_dtype (mkDF cols rs') c'.
Proof.
  unfold set_dtype. case_bool_decide as Hin.
  - destruct (decide (c' = c)) as [->|Hne].
    + revert Hin.
      induction cols as [|[c0 d0] cols IH]; [by intros ?%elem_of_nil|].
      rewrite !fmap_cons. simpl. intros Hin.
      destruct (decide (c0 = c)) as [->|Hne].
      * rewrite (column_dtype_cons c d _ rs rs). by rewrite decide_True.
      * rewrite (column_dtype_cons c0 d0 _ rs rs). rewrite decide_False by done.
        apply IH. by apply elem_of_cons in Hin as [?|?].
    + clear Hin. induction cols as [|[c0 d0] cols IH]; [done|].
      rewrite fmap_cons. simpl.
      destruct (decide (c0 = c)) as [->|Hne0].
      * rewrite (column_dtype_cons c d _ rs rs), (column_dtype_cons c d0 _ rs' rs').
        rewrite !decide_False by done. apply IH.
      * rewrite (column_dtype_cons c0 d0 _ rs rs), (column_dtype_cons c0 d0 _ rs' rs').
        destruct (decide (c0 = c')); [done|]. apply IH.
  - induction cols as [|[c0 d0] cols IH].
    + simpl. rewrite (column_dtype_cons c d [] rs rs).
      destruct (decide (c = c')) as [->|]; [by rewrite decide_True|].
      by rewrite decide_False.
    + rewrite fmap_cons, not_elem_of_cons in Hin. destruct Hin as [Hne Hin].
      simpl in Hne. simpl.
      rewrite (column_dtype_cons c0 d0 _ rs rs), (column_dtype_cons c0 d0 _ rs' rs').
      destruct (decide (c0 = c')) as [->|]; [by rewrite decide_False|].
      by apply IH.
Qed.

Lemma setitem_inv (df df' : DataFrame) (c : string) (s : Series) :
  setitem df c s = Ok df' →
  length (svalues s) = len df
  ∧ df' = mkDF (set_dtype c (sdtype s) (columns df))
               (zip_with (λ r v, <[c := v]> r) (rows df) (svalues s)).
Proof.
  unfold setitem. case_bool_decide; [|done]. by intros [= <-].
Qed.

Lemma setitem_total (df : DataFrame) (c : string) (s : Series) :
  length (svalues s) = len df →
  setitem df c s
  = Ok (mkDF (set_dtype c (sdtype s) (columns df))
             (zip_with (λ r v, <[c := v]> r) (rows df) (svalues s))).
Proof. intros Hlen. unfold setitem. by rewrite bool_decide_eq_true_2. Qed.

Lemma cell_insert (r : gmap string value) (c : string) (v : value) :
  cell (<[c := v]> r) c = v.
Proof. unfold cell. by rewrite lookup_insert_eq. Qed.

Lemma cell_insert_ne (r : gmap string value) (c c' : string) (v : value) :
  c' ≠ c → cell (<[c := v]> r) c' = cell r c'.
Proof. intros Hne. unfold cell. by rewrite lookup_insert_ne. Qed.

(** Row by row, [df[c] = s] puts the values of [s] under [c] and leaves the
    rest. *)
Lemma setitem_rows (df df' : DataFrame) (c : string) (s : Series) :
  setitem df c s = Ok df' →
  Forall2 (λ r r', ∀ c', c' ≠ c → r' !! c' = r !! c') (rows df) (rows df')
  ∧ (λ r, cell r c) <$> rows df' = svalues s.
Proof.
  intros (Hlen & ->)%setitem_inv. simpl. unfold len in Hlen.
  revert Hlen. generalize (svalues s). generalize (rows df).
  induction l as [|r rs IH]; intros [|v vs] Hlen; simplify_eq/=; [done|].
  destruct (IH vs) as [Hr Hv]; [done|]. split.
  - constructor; [|done]. intros c' Hne. by rewrite lookup_insert_ne.
  - by rewrite cell_insert, Hv.
Qed.

Lemma rows_agree_off (c : string) (cs : list string)
    (rs rs' : list (gmap string value)) :
  c ∉ cs →
  Forall2 (λ r r', ∀ c', c' ≠ c → r' !! c' = r !! c') rs rs' →
  Forall2 (rows_agree cs) rs rs'.
Proof.
  intros Hc Hr. eapply Forall2_impl; [exact Hr|].
  intros r r' Hrr c' Hc'. unfold cell. rewrite Hrr; [done|].
  intros ->. done.
Qed.

(** [df[c] = s] changes nothing under the other columns. *)
Lemma setitem_keeps (cs : list string) (df df' : DataFrame) (c : string)
    (s : Series) :
  c ∉ cs → setitem df c s = Ok df' → frames_agree cs df df'.
Proof.
  intros Hc Hset. destruct (setitem_rows _ _ _ _ Hset) as [Hrows _].
  apply setitem_inv in Hset as (_ & Heq). split.
  - intros c' Hc'. rewrite Heq.
    rewrite (column_dtype_set_dtype _ _ _ _ _ (rows df)).
    rewrite decide_False; [by destruct df|]. by intros ->.
  - by eapply rows_agree_off.
Qed.

Lemma setitem_names (df df' : DataFrame) (c : string) (s : Series) :
  has_column df c = true → setitem df c s = Ok df' →
  column_names df' = column_names df.
Proof.
  intros Hc (_ & ->)%setitem_inv. unfold column_names. simpl.
  apply set_dtype_names. by apply has_column_elem.
Qed.

Lemma setitem_len (df df' : DataFrame) (c : string) (s : Series) :
  setitem df c s = Ok df' → len df' = len df.
Proof.
  intros Hset. destruct (setitem_rows _ _ _ _ Hset) as [Hrows _].
  unfold len. symmetry. by eapply Forall2_length.
Qed.

Lemma setitem_dtype (df df' : DataFrame) (c : string) (s : Series) :
  setitem df c s = Ok df' → column_dtype df' c = Some (sdtype s).
Proof.
  intros (_ & ->)%setitem_inv.
  rewrite (column_dtype_set_dtype _ _ _ _ _ (rows df)). by rewrite decide_True.
Qed.

Lemma column_all_agree (P : value → Prop) (c : string) (df df' : DataFrame) :
  frames_agree [c] df df' → column_all P c df → column_all P c df'.
Proof.
  intros [_ Hr] Hall. unfold column_all in *.
  induction Hr as [|r r' rs rs' Hrr _ IH]; [constructor|].
  apply Forall_cons in Hall as [Hp Hall]. constructor; [|by apply IH].
  rewrite (Hrr c); [done|]. apply list_elem_of_here.
Qed.

Lemma column_all_cells (P : value → Prop) (c : string) (df : DataFrame) :
  column_all P c df ↔ Forall P ((λ r, cell r c) <$> rows df).
Proof. unfold column_all. by rewrite Forall_fmap. Qed.

Lemma frames_agree_len (cs : list string) (df df' : DataFrame) :
  frames_agree cs df df' → len df' = len df.
Proof. intros [_ Hr]. unfold len. symmetry. by eapply Forall2_length. Qed.

(** ** The Silver steps, column by column *)

Lemma map_column_cells (c : string) (d : dtype) (f : value → value) (df : DataFrame) :
  (λ r, cell r c) <$> rows (map_column c d f df)
  = f <$> ((λ r, cell r c) <$> rows df).
Proof.
  unfold map_column. simpl. rewrite <- !list_fmap_compose.
  apply list_fmap_ext. intros i r _. simpl. apply cell_insert.
Qed.

Lemma map_column_has (c : string) (d : dtype) (f : value → value) (df : DataFrame) :
  has_column (map_column c d f df) c = true.
Proof. apply has_column_added. Qed.

Lemma map_column_dtype (c : string) (d : dtype) (f : value → value) (df : DataFrame) :
  column_dtype (map_column c d f df) c = Some d.
Proof.
  unfold map_column. rewrite (column_dtype_set_dtype _ _ _ _ _ (rows df)).
  by rewrite decide_True.
Qed.

Lemma map_column_rewrites (c : string) (d : dtype) (f : value → value)
    (df : DataFrame) :
  has_column df c = true → rewrites_column c f df (map_column c d f df).
Proof.
  intros Hc. split; [|split].
  - unfold map_column, column_names. simpl. apply set_dtype_names.
    by apply has_column_elem.
  - intros cs Hcs. eapply setitem_keeps; [exact Hcs|]. apply setitem_map.
  - apply map_column_cells.
Qed.

Lemma rewrites_column_compose (c : string) (f g : value → value)
    (df1 df2 df3 : DataFrame) :
  rewrites_column c f df1 df2 → rewrites_column c g df2 df3 →
  rewrites_column c (g ∘ f) df1 df3.
Proof.
  intros (Hn1 & Hk1 & Hc1) (Hn2 & Hk2 & Hc2). split; [|split].
  - by rewrite Hn2.
  - intros cs Hcs. eapply frames_agree_trans; [by apply Hk1|by apply Hk2].
  - by rewrite Hc2, Hc1, <- list_fmap_compose.
Qed.

Lemma rewrites_column_ext (c : string) (f g : value → value) (df df' : DataFrame) :
  (∀ v, f v = g v) → rewrites_column c f df df' → rewrites_column c g df df'.
Proof.
  intros Hfg (Hn & Hk & Hc). split; [done|]. split; [done|].
  rewrite Hc. apply list_fmap_ext. intros ? v _. apply Hfg.
Qed.

Lemma rewrites_column_has (c c' : string) (f : value → value) (df df' : DataFrame) :
  rewrites_column c f df df' → has_column df' c' = has_column df c'.
Proof. intros (Hn & _). unfold has_column. by rewrite Hn. Qed.

Lemma rewrites_column_len (c : string) (f : value → value) (df df' : DataFrame) :
  rewrites_column c f df df' → len df' = len df.
Proof. intros (_ & Hk & _). apply (frames_agree_len []), Hk, not_elem_of_nil. Qed.

Lemma rewrites_column_all (c : string) (f : value → value) (P : value → Prop)
    (df df' : DataFrame) :
  rewrites_column c f df df' → (∀ v, P (f v)) → column_all P c df'.
Proof.
  intros (_ & _ & Hc) HP. apply column_all_cells. rewrite Hc.
  apply Forall_fmap, Forall_forall. intros v _. apply HP.
Qed.

Lemma rewrites_column_dtype (c c' : string) (f : value → value) (df df' : DataFrame) :
  rewrites_column c f df df' → c' ≠ c → column_dtype df' c' = column_dtype df c'.
Proof.
  intros (_ & Hk & _) Hne. apply (Hk [c']).
  - by intros ->%list_elem_of_singleton.
  - apply list_elem_of_here.
Qed.

(** *** normalize_phone *)

Lemma phone_digits_digits str_of_number (v : value) :
  digits_or_null (phone_digits str_of_number v).
Proof.
  unfold phone_digits. destruct (notna v); [|by left].
  simpl. destruct (decide _) as [|Hne]; [by left|]. right.
  eexists. split; [done|]. split; [done|].
  unfold digits_only. rewrite string_to_of_list.
  apply Forall_forall. by intros a [? _]%list_elem_of_filter.
Qed.

Lemma normalize_phone_spec str_of_number (df : DataFrame) (con : Console) :
  ∃ df' con',
    silver.normalize_phone str_of_number df con = (Ok df', con')
    ∧ if has_column df "phone"
      then rewrites_column "phone" (phone_digits str_of_number) df df'
      else df' = df.
Proof.
  unfold silver.normalize_phone.
  destruct (has_column df "phone") eqn:Hc; [|by eexists _, _].
  destruct (getitem_ok df "phone" Hc) as (d & Hd & Hget).
  unfold mbind at 1, Py_bind at 1.
  unfold mbind, Py_bind, lift. rewrite Hget. cbn [svalues].
  rewrite setitem_map.
  match goal with |- context [map_column "phone" ?d0 ?f0 df] =>
    set (df1 := map_column "phone" d0 f0 df);
    pose proof (map_column_rewrites "phone" d0 f0 df Hc) as Hr1
  end.
  assert (has_column df1 "phone" = true) as Hc1 by apply map_column_has.
  destruct (getitem_ok df1 "phone" Hc1) as (d1 & Hd1 & Hget1).
  rewrite Hget1. cbn [svalues sdtype]. rewrite setitem_map.
  eexists _, _. split; [reflexivity|].
  eapply rewrites_column_ext;
    [|eapply rewrites_column_compose;
      [exact Hr1|by apply map_column_rewrites]].
  intros v. unfold phone_digits, compose. destruct (notna v); [|done]. simpl.
  destruct (decide (VStr _ = VStr "")) as [Heq|Hne];
    destruct (decide (_ = "")) as [Heq'|Hne']; try done.
  - exfalso. apply Hne'. by injection Heq.
  - exfalso. apply Hne. by f_equal.
Qed.

(** *** normalize_postal_code *)

Lemma normalize_postal_code_spec (df : DataFrame) (con : Console) :
  column_dtype df "postal_code" = None ∨ column_dtype df "postal_code" = Some DStr →
  ∃ df' con',
    silver.normalize_postal_code df con = (Ok df', con')
    ∧ if has_column df "postal_code"
      then rewrites_column "postal_code" (str_method upper ∘ str_method strip)
             df df'
      else df' = df.
Proof.
  intros Hd. unfold silver.normalize_postal_code.
  destruct (has_column df "postal_code") eqn:Hc; [|by eexists _, _].
  destruct Hd as [Hd%column_dtype_None|Hd]; [congruence|].
  unfold mbind at 1, Py_bind at 1.
  unfold mbind, Py_bind, lift, getitem. rewrite Hd.
  unfold str_accessor. cbn [sdtype svalues].
  rewrite <- (list_fmap_compose (str_method strip) (str_method upper)), setitem_map.
  eexists _, _. split; [reflexivity|].
  by apply map_column_rewrites.
Qed.

(** *** standardize_brewery_type *)

Lemma standardize_brewery_type_spec (df : DataFrame) (con : Console) :
  column_dtype df "brewery_type" = None ∨ column_dtype df "brewery_type" = Some DStr →
  ∃ df' con',
    silver.standardize_brewery_type df con = (Ok df', con')
    ∧ if has_column df "brewery_type"
      then rewrites_column "brewery_type" standard_type df df'
      else df' = df.
Proof.
  intros Hd. unfold silver.standardize_brewery_type.
  destruct (has_column df "brewery_type") eqn:Hc; [|by eexists _, _].
  destruct Hd as [Hd%column_dtype_None|Hd]; [congruence|].
  unfold mbind at 1, Py_bind at 1.
  unfold mbind, Py_bind, lift, getitem at 1. rewrite Hd.
  unfold str_accessor. cbn [sdtype svalues].
  rewrite <- (list_fmap_compose (str_method lower) (str_method strip)), setitem_map.
  set (df1 := map_column "brewery_type" DStr (str_method strip ∘ str_method lower) df).
  pose proof (map_column_rewrites "brewery_type" DStr
                (str_method strip ∘ str_method lower) df Hc) as Hr1.
  fold df1 in Hr1.
  assert (has_column df1 "brewery_type" = true) as Hc1 by apply map_column_has.
  destruct (getitem_ok df1 "brewery_type" Hc1) as (d1 & _ & ->).
  cbn [svalues]. rewrite setitem_map.
  eexists _, _. split; [reflexivity|].
  eapply rewrites_column_ext;
    [|eapply rewrites_column_compose;
      [exact Hr1|by apply map_column_rewrites]].
  intros v. unfold standard_type, compose.
  by destruct (str_method strip (str_method lower v)).
Qed.

Lemma standard_type_known (v : value) : known_or_unknown (standard_type v).
Proof.
  unfold standard_type.
  destruct (str_method strip (str_method lower v)) as [|t| |];
    try (exists "unknown"; split; [done|by right]).
  destruct (decide (t ∈ silver.KNOWN_BREWERY_TYPES)).
  - exists t. split; [done|by left].
  - exists "unknown". split; [done|by right].
Qed.

(** *** validate_coordinates *)

Lemma loc_setitem_rewrites (c : string) (g : value → bool) (df : DataFrame) :
  rewrites_column c (λ v, if g v then VNull else v) df
    (loc_setitem df (g <$> ((λ r, cell r c) <$> rows df)) c VNull).
Proof.
  assert (rows (loc_setitem df (g <$> ((λ r, cell r c) <$> rows df)) c VNull)
          = (λ r, if g (cell r c) then <[c := VNull]> r else r) <$> rows df)
    as Hrows.
  { unfold loc_setitem. simpl.
    by rewrite <- list_fmap_compose, zip_with_fmap_r, zip_with_diag. }
  split; [done|]. split.
  - intros cs Hcs. split; [done|]. rewrite Hrows.
    apply Forall2_fmap_r, Forall2_same_length_lookup_2; [done|].
    intros i r r' -> [= <-] c' Hc'.
    destruct (g (cell r c)); [|done]. apply cell_insert_ne. by intros ->.
  - rewrite Hrows, <- !list_fmap_compose. apply list_fmap_ext.
    intros i r _. simpl. destruct (g (cell r c)); [apply cell_insert|done].
Qed.

Lemma between_within (lo hi : Z) (x : Qc) :
  between (num lo) (num hi) (VNum x) = true ↔ within lo hi x.
Proof.
  unfold between, within.
  rewrite andb_true_iff, !bool_decide_eq_true. done.
Qed.

Lemma plain_coordinate_no_overflow (vs : list value) :
  Forall plain_coordinate vs → existsb overflows vs = false.
Proof.
  induction 1 as [|v vs Hv _ IH]; [done|]. simpl. rewrite IH, orb_false_r.
  destruct v as [| |x|]; try done. destruct Hv as [Hlo Hhi]. simpl.
  rewrite !bool_decide_eq_false_2; [done|..]; by apply Qclt_not_le.
Qed.

(** On a column that is convertible [pd.to_numeric] returns a numeric
    series: the series itself when its dtype is numeric, and otherwise, value
    by value, the number a text stands for or null.  No boolean is left. *)
Lemma to_numeric_coerce_convertible parse_number (d : dtype) (vs : list value) :
  d ≠ DBool → Forall plain_coordinate vs →
  ∃ f : value → value,
    silver.to_numeric_coerce parse_number (mkSeries d vs)
    = Ok (mkSeries DNum (f <$> vs))
    ∧ ∀ v, plain_coordinate v → is_bool (f v) = false.
Proof.
  intros Hd Hvs. unfold silver.to_numeric_coerce. simpl.
  assert (∃ f : value → value,
            (if existsb overflows vs
             then Raise (OverflowError "int too large to convert to float")
             else match vs with
                  | _ :: _ =>
                    if forallb is_bool vs then Ok (mkSeries DBool vs)
                    else Ok (mkSeries DNum
                               ((λ v, from_option VNum VNull
                                        (silver.to_number parse_number v)) <$> vs))
                  | [] => Ok (mkSeries DNum [])
                  end) = Ok (mkSeries DNum (f <$> vs))
            ∧ ∀ v, plain_coordinate v → is_bool (f v) = false) as Hobj.
  { rewrite plain_coordinate_no_overflow by done.
    eexists. split.
    - destruct vs as [|v vs]; [done|].
      apply Forall_cons in Hvs as [Hv _].
      assert (forallb is_bool (v :: vs) = false) as ->; [|done].
      simpl. by destruct v.
    - intros [|s|x|b] Hv; simpl; [done| |done|done].
      by destruct (parse_number s). }
  destruct d; [exact Hobj| |done|exact Hobj].
  exists id. split; [by rewrite list_fmap_id|].
  by intros [|s|x|b] Hv.
Qed.

(** One block of [validate_coordinates] on a column that is convertible: it
    returns, touches no other column, and leaves in the column nothing but
    nulls and numbers of the range. *)
Lemma validate_axis_ok parse_number c (lo hi : Z) what (df : DataFrame)
    (con : Console) :
  convertible df c →
  ∃ df' con',
    silver.validate_axis parse_number c (num lo) (num hi) what df con = (Ok df', con')
    ∧ column_names df' = column_names df
    ∧ (∀ cs, c ∉ cs → frames_agree cs df df')
    ∧ (has_column df c = true → column_all (null_or_within lo hi) c df').
Proof.
  intros Hconv. unfold silver.validate_axis.
  destruct (has_column df c) eqn:Hc.
  2:{ exists df, con. split; [done|]. split; [done|].
      split; [intros; apply frames_agree_refl|done]. }
  destruct (Hconv Hc) as [Hd Hcells].
  destruct (getitem_ok df c Hc) as (d & Hdt & Hget).
  unfold mbind, Py_bind, lift. rewrite Hget.
  apply column_all_cells in Hcells.
  destruct (to_numeric_coerce_convertible parse_number d _ ltac:(congruence) Hcells)
    as (f & -> & Hf).
  cbn [sdtype svalues]. rewrite setitem_map.
  set (df1 := map_column c DNum f df).
  assert (has_column df1 c = true) as Hc1 by apply map_column_has.
  destruct (getitem_ok df1 c Hc1) as (d1 & Hd1 & Hget1).
  rewrite Hget1. cbn [sdtype svalues].
  unfold loc_setitem_none.
  assert (column_dtype df1 c = Some DNum) as -> by apply map_column_dtype.
  rewrite bool_decide_eq_false_2 by done. cbn [andb].
  eexists _, _. split; [reflexivity|].
  pose proof (map_column_rewrites c DNum f df Hc) as Hr1.
  pose proof (loc_setitem_rewrites c (λ v, negb (between (num lo) (num hi) v)) df1)
    as Hr2.
  destruct (rewrites_column_compose _ _ _ _ _ _ Hr1 Hr2) as (Hn & Hk & Hcs).
  split; [done|]. split; [done|]. intros _.
  apply column_all_cells. rewrite Hcs, Forall_fmap.
  eapply Forall_impl; [exact Hcells|]. intros v Hv. unfold compose.
  specialize (Hf v Hv).
  destruct (between (num lo) (num hi) (f v)) eqn:Hb; simpl; [|by left].
  destruct (f v) as [|s|x|b]; try done.
  right. exists x. split; [done|]. by apply between_within.
Qed.

Lemma convertible_agree (c : string) (df df' : DataFrame) :
  frames_agree [c] df df' → column_names df' = column_names df →
  convertible df c → convertible df' c.
Proof.
  intros Hagree Hn Hconv Hc. pose proof Hagree as [Hd _].
  assert (has_column df c = true) as Hc0
    by (unfold has_column in *; by rewrite <- Hn).
  destruct (Hconv Hc0) as [Hdt Hall]. split.
  - rewrite Hd; [done|apply list_elem_of_here].
  - by eapply column_all_agree.
Qed.

Lemma validate_coordinates_spec parse_number (df : DataFrame) (con : Console) :
  convertible df "longitude" → convertible df "latitude" →
  ∃ df' con',
    silver.validate_coordinates parse_number df con = (Ok df', con')
    ∧ column_names df' = column_names df
    ∧ (∀ cs, "longitude" ∉ cs → "latitude" ∉ cs → frames_agree cs df df')
    ∧ (has_column df "longitude" = true →
       column_all (null_or_within (-180) 180) "longitude" df')
    ∧ (has_column df "latitude" = true →
       column_all (null_or_within (-90) 90) "latitude" df').
Proof.
  intros Hlon Hlat. unfold silver.validate_coordinates.
  destruct (validate_axis_ok parse_number "longitude" (-180) 180
              "longitude(s)" df con Hlon) as (df1 & con1 & H1 & Hn1 & Hk1 & Hall1).
  rewrite (bind_ok _ _ _ _ _ H1).
  destruct (validate_axis_ok parse_number "latitude" (-90) 90
              "latitude(s)" df1 con1) as (df2 & con2 & H2 & Hn2 & Hk2 & Hall2).
  { eapply convertible_agree; [apply Hk1; by_names|done|done]. }
  rewrite (bind_ok _ _ _ _ _ H2).
  eexists _, _. split; [reflexivity|]. split; [by rewrite Hn2|].
  split; [|split].
  - intros cs Hcs1 Hcs2.
    eapply frames_agree_trans; [by apply Hk1|by apply Hk2].
  - intros Hc.
    eapply (column_all_agree _ _ df1); [apply Hk2; by_names|]. by apply Hall1.
  - intros Hc. apply Hall2. unfold has_column in *. by rewrite Hn1.
Qed.

(** *** drop_redundant_columns *)

Lemma column_dtype_filter (P : string → Prop) `{∀ c, Decision (P c)}
    (cols : list (string * dtype)) (rs rs' : list (gmap string value)) (c : string) :
  P c →
  column_dtype (mkDF (filter (λ cd, P cd.1) cols) rs) c
  = column_dtype (mkDF cols rs') c.
Proof.
  intros Hc. induction cols as [|[c0 d0] cols IH]; [done|].
  rewrite filter_cons. simpl. destruct (decide (P c0)) as [Hp|Hp].
  - rewrite (column_dtype_cons c0 d0 _ rs rs), (column_dtype_cons c0 d0 _ rs' rs').
    by rewrite IH.
  - rewrite (column_dtype_cons c0 d0 _ rs' rs'), decide_False; [done|].
    by intros ->.
Qed.

Lemma cell_deletes (cs : list string) (r : gmap string value) (c : string) :
  c ∉ cs → cell (foldr delete r cs) c = cell r c.
Proof.
  intros Hc. unfold cell. f_equal.
  induction cs as [|c0 cs IH]; [done|]. simpl.
  apply not_elem_of_cons in Hc as [Hne Hc].
  rewrite lookup_delete_ne by done. by apply IH.
Qed.

Lemma drop_columns_keeps (cs dropped : list string) (df : DataFrame) :
  (∀ c, c ∈ cs → c ∉ dropped) → frames_agree cs df (drop_columns df dropped).
Proof.
  intros Hcs. split.
  - intros c Hc. unfold drop_columns.
    etrans; [exact (column_dtype_filter (λ c, c ∉ dropped) (columns df) _
                      (rows df) c (Hcs c Hc))|by destruct df].
  - unfold drop_columns. simpl. apply Forall2_fmap_r.
    apply Forall2_same_length_lookup_2; [done|].
    intros i r r' -> [= <-] c Hc. apply cell_deletes. by apply Hcs.
Qed.

Lemma drop_columns_names (dropped : list string) (df : DataFrame) :
  column_names (drop_columns df dropped)
  = filter (λ c, c ∉ dropped) (column_names df).
Proof.
  unfold column_names, drop_columns. simpl.
  induction (columns df) as [|[c d] cols IH]; [done|].
  rewrite fmap_cons, !filter_cons. simpl.
  destruct (decide (c ∉ dropped)); [rewrite fmap_cons|]; by rewrite IH.
Qed.

(** The columns [drop_redundant_columns] finds in the frame are the
    redundant ones that the frame has. *)
Lemma cols_to_drop_spec (df : DataFrame) (c : string) :
  c ∈ column_names df →
  c ∉ filter (λ c, has_column df c = true) redundant_columns
  ↔ c ∉ redundant_columns.
Proof.
  intros Hc. rewrite list_elem_of_filter, has_column_elem.
  split; [intros Hn Hin; by apply Hn|by intros Hn [_ Hin]].
Qed.

Lemma filter_ext_elem {A} (P Q : A → Prop) `{∀ x, Decision (P x)}
    `{∀ x, Decision (Q x)} (l : list A) :
  (∀ x, x ∈ l → (P x ↔ Q x)) → filter P l = filter Q l.
Proof.
  induction l as [|x l IH]; [done|]. intros Hl.
  rewrite !filter_cons, IH by (intros y Hy; by apply Hl, list_elem_of_further).
  pose proof (Hl x (list_elem_of_here _ _)) as Hx.
  destruct (decide (P x)), (decide (Q x)); tauto || done.
Qed.

(** [drop_redundant_columns] returns on every frame, without the three
    redundant columns and with the other columns as they were. *)
Lemma drop_redundant_columns_spec (df : DataFrame) (con : Console) :
  ∃ df' con',
    silver.drop_redundant_columns df con = (Ok df', con')
    ∧ column_names df' = filter (λ c, c ∉ redundant_columns) (column_names df)
    ∧ (∀ cs, (∀ c, c ∈ cs → c ∉ redundant_columns) → frames_agree cs df df').
Proof.
  unfold silver.drop_redundant_columns. eexists _, _. split; [reflexivity|].
  fold redundant_columns.
  set (cols_to_drop := filter (λ c, has_column df c = true) redundant_columns).
  split.
  - rewrite drop_columns_names. apply filter_ext_elem.
    intros c Hc. by apply cols_to_drop_spec.
  - intros cs Hcs. apply drop_columns_keeps. intros c Hc.
    intros [_ Hin]%list_elem_of_filter. by apply (Hcs c).
Qed.

(** *** add_metadata *)

Lemma add_metadata_spec (now : string) (df : DataFrame) (con : Console) :
  ∃ df' con',
    silver.add_metadata now df con = (Ok df', con')
    ∧ (∀ c, has_column df' c = has_column df c || bool_decide (c = "processed_at"))
    ∧ (∀ cs, "processed_at" ∉ cs → frames_agree cs df df')
    ∧ column_all (λ v, v = VStr now) "processed_at" df'.
Proof.
  unfold silver.add_metadata. eexists _, _. split; [reflexivity|].
  unfold setitem_scalar. split; [|split].
  - intros c. apply has_column_setitem.
  - intros cs Hcs. split.
    + intros c Hc. rewrite (column_dtype_set_dtype _ _ _ _ _ (rows df)).
      rewrite decide_False; [by destruct df|]. by intros ->.
    + simpl. apply Forall2_fmap_r, Forall2_same_length_lookup_2; [done|].
      intros i r r' -> [= <-] c Hc. apply cell_insert_ne. by intros ->.
  - unfold column_all. simpl. apply Forall_fmap, Forall_forall.
    intros r _. apply cell_insert.
Qed.

(** *** transform *)

Lemma text_or_absent_agree (c : string) (df df' : DataFrame) :
  frames_agree [c] df df' → text_or_absent df c → text_or_absent df' c.
Proof.
  intros [Hd _]. unfold text_or_absent. rewrite (Hd c); [done|].
  apply list_elem_of_here.
Qed.

Lemma text_or_absent_columns (c : string) (df df' : DataFrame) :
  columns df' = columns df → text_or_absent df c → text_or_absent df' c.
Proof. unfold text_or_absent, column_dtype. by intros ->. Qed.

(** What a step that rewrites the column [c], when the frame has it, keeps
    and gives. *)
Lemma rewrites_or_same (c : string) (f : value → value) (df df' : DataFrame) :
  (if has_column df c then rewrites_column c f df df' else df' = df) →
  column_names df' = column_names df
  ∧ (∀ cs, c ∉ cs → frames_agree cs df df')
  ∧ ∀ P : value → Prop, (∀ v, P (f v)) → has_column df c = true →
                         column_all P c df'.
Proof.
  destruct (has_column df c).
  - intros Hr. pose proof Hr as (Hn & Hk & _). split; [done|]. split; [done|].
    intros P HP _. by eapply rewrites_column_all.
  - intros ->. split; [done|]. split; [intros; apply frames_agree_refl|done].
Qed.

Lemma has_column_names (df df' : DataFrame) (c : string) :
  column_names df' = column_names df → has_column df' c = has_column df c.
Proof. unfold has_column. by intros ->. Qed.

Lemma keep_last_length (c : string) (rs : list (gmap string value)) :
  (length (keep_last c rs) ≤ length rs)%nat.
Proof. apply sublist_length, keep_last_sublist. Qed.

Lemma keep_last_NoDup_id (c : string) (rs : list (gmap string value)) :
  NoDup ((λ r, hash_key (cell r c)) <$> rs) → keep_last c rs = rs.
Proof.
  induction rs as [|r rs IH]; [done|].
  rewrite fmap_cons. intros [Hnotin Hnd]%NoDup_cons. simpl.
  destruct (existsb _ rs) eqn:Hex.
  - exfalso. apply Hnotin.
    apply existsb_exists in Hex as (r' & Hin & Heq%bool_decide_eq_true).
    rewrite <- Heq. apply list_elem_of_fmap. exists r'. split; [done|].
    by apply list_elem_of_In.
  - by rewrite IH.
Qed.

Lemma deduplicate_spec (df : DataFrame) (con : Console) :
  has_column df "id" = true →
  ∃ con',
    silver.deduplicate df con
    = (Ok (mkDF (columns df) (keep_last "id" (rows df))), con').
Proof.
  intros Hid. unfold silver.deduplicate, mbind, Py_bind, lift.
  destruct (drop_duplicates_last_rows df "id" Hid) as (df1 & -> & Hcols & Hrows).
  simpl. eexists. do 2 f_equal. destruct df1. simpl in *. by subst.
Qed.

Lemma clean_strings_spec (df : DataFrame) (con : Console) :
  NoDup (column_names df) →
  ∃ con',
    silver.clean_strings df con
    = (Ok (mkDF (columns df) (strip_fields (select_dtypes_str df) <$> rows df)),
       con').
Proof.
  intros Hnd. unfold silver.clean_strings, mbind, Py_bind, lift.
  rewrite for_each_strip_ok; [by eexists|done|].
  intros c Hc. by apply select_dtypes_str_elem.
Qed.

Ltac by_singleton := intros ?%list_elem_of_singleton; congruence.

(** The first two steps keep a column convertible: [deduplicate] drops
    rows, [clean_strings] turns texts into texts. *)
Lemma convertible_cleaned (c : string) (df : DataFrame) :
  NoDup (column_names df) →
  convertible df c →
  convertible
    (mkDF (columns df)
       (strip_fields (select_dtypes_str df) <$> keep_last "id" (rows df))) c.
Proof.
  intros Hnd Hconv Hc. destruct (Hconv Hc) as [Hd Hall]. split; [done|].
  unfold column_all in *. cbn [rows]. rewrite Forall_fmap.
  apply Forall_forall. intros r Hin.
  assert (r ∈ rows df) as Hin'
    by (eapply elem_of_sublist; [exact Hin|apply keep_last_sublist]).
  eapply Forall_forall in Hall; [|exact Hin']. simpl.
  destruct (decide (c ∈ select_dtypes_str df)) as [Hstr|Hnotin].
  - rewrite strip_fields_elem by auto using select_dtypes_str_NoDup.
    by destruct (cell r c).
  - unfold cell in *. by rewrite strip_fields_other.
Qed.

Lemma transform_chain
    (parse_number : string → option Qc) (str_of_number : Qc → string)
    (now : string) (df : DataFrame) (con : Console) :
  has_column df "id" = true →
  NoDup (column_names df) →
  text_or_absent df "postal_code" →
  text_or_absent df "brewery_type" →
  convertible df "longitude" →
  convertible df "latitude" →
  ∃ df' con',
    silver.transform parse_number str_of_number now df con = (Ok df', con')
    ∧ (len df' ≤ len df)%nat
    ∧ (distinct_ids (rows df) → len df' = len df)
    ∧ (∀ c, has_column df' c
            = has_column df c && bool_decide (c ∉ redundant_columns)
              || bool_decide (c = "processed_at"))
    ∧ column_all (λ v, v = VStr now) "processed_at" df'
    ∧ (has_column df "brewery_type" = true →
       column_all known_or_unknown "brewery_type" df')
    ∧ (has_column df "phone" = true → column_all digits_or_null "phone" df')
    ∧ (has_column df "longitude" = true →
       column_all (null_or_within (-180) 180) "longitude" df')
    ∧ (has_column df "latitude" = true →
       column_all (null_or_within (-90) 90) "latitude" df')
    ∧ (∀ c, c ∉ ["phone"; "postal_code"; "longitude"; "latitude"; "brewery_type";
                 "processed_at"] ++ redundant_columns →
            (λ r, cell r c) <$> rows df'
            = (λ r, cell (strip_fields (select_dtypes_str df) r) c)
                <$> keep_last "id" (rows df)).
Proof.
  intros Hid Hnd Hpostal Htype Hlon0 Hlat0. unfold silver.transform.
  destruct (deduplicate_spec df con Hid) as (con1 & H1).
  rewrite (bind_ok _ _ _ _ _ H1).
  set (df1 := mkDF (columns df) (keep_last "id" (rows df))).
  destruct (clean_strings_spec df1 con1 Hnd) as (con2 & H2).
  rewrite (bind_ok _ _ _ _ _ H2).
  set (df2 := mkDF (columns df1) (strip_fields (select_dtypes_str df1) <$> rows df1)).
  assert (columns df2 = columns df) as Hcols2 by done.
  assert (∀ c, has_column df2 c = has_column df c) as Hhas2 by done.
  destruct (normalize_phone_spec str_of_number df2 con2) as (df3 & con3 & H3 & Hr3).
  rewrite (bind_ok _ _ _ _ _ H3).
  apply rewrites_or_same in Hr3 as (Hn3 & Hk3 & Hall3).
  destruct (normalize_postal_code_spec df3 con3) as (df4 & con4 & H4 & Hr4).
  { eapply text_or_absent_agree; [apply Hk3; by_names|].
    by eapply text_or_absent_columns. }
  rewrite (bind_ok _ _ _ _ _ H4).
  apply rewrites_or_same in Hr4 as (Hn4 & Hk4 & _).
  assert (∀ c, c ≠ "phone" → c ≠ "postal_code" → convertible df c →
               convertible df4 c) as Hconv4.
  { intros c Hphone Hpostal' Hconv.
    eapply convertible_agree; [apply Hk4; by_singleton|done|].
    eapply convertible_agree; [apply Hk3; by_singleton|done|].
    by apply convertible_cleaned. }
  destruct (validate_coordinates_spec parse_number df4 con4)
    as (df5 & con5 & H5 & Hn5 & Hk5 & Hlon & Hlat);
    [by apply Hconv4..|].
  rewrite (bind_ok _ _ _ _ _ H5).
  destruct (standardize_brewery_type_spec df5 con5) as (df6 & con6 & H6 & Hr6).
  { eapply text_or_absent_agree; [apply Hk5; by_names|].
    eapply text_or_absent_agree; [apply Hk4; by_names|].
    eapply text_or_absent_agree; [apply Hk3; by_names|].
    by eapply text_or_absent_columns. }
  rewrite (bind_ok _ _ _ _ _ H6).
  apply rewrites_or_same in Hr6 as (Hn6 & Hk6 & Hall6).
  destruct (drop_redundant_columns_spec df6 con6) as (df7 & con7 & H7 & Hn7 & Hk7).
  rewrite (bind_ok _ _ _ _ _ H7).
  destruct (add_metadata_spec now df7 con7) as (df8 & con8 & H8 & Hn8 & Hk8 & Hnow).
  rewrite (bind_ok _ _ _ _ _ H8).
  eexists _, _. split; [reflexivity|].
  assert (∀ c, has_column df6 c = has_column df c) as Hhas6.
  { intros c. rewrite <- Hhas2. unfold has_column. by rewrite Hn6, Hn5, Hn4, Hn3. }
  assert (∀ cs, "processed_at" ∉ cs → (∀ c, c ∈ cs → c ∉ redundant_columns) →
                frames_agree cs df6 df8) as Hk68.
  { intros cs Hp Hcs. eapply frames_agree_trans; [by apply Hk7|by apply Hk8]. }
  assert (len df8 = length (keep_last "id" (rows df))) as Hlen.
  { rewrite (frames_agree_len [] df6 df8) by (apply Hk68; [by_names|by intros ? ?%elem_of_nil]).
    rewrite (frames_agree_len [] df5 df6) by (apply Hk6; by_names).
    rewrite (frames_agree_len [] df4 df5) by (apply Hk5; by_names).
    rewrite (frames_agree_len [] df3 df4) by (apply Hk4; by_names).
    rewrite (frames_agree_len [] df2 df3) by (apply Hk3; by_names).
    unfold len, df2, df1. simpl. by rewrite length_fmap. }
  split; [rewrite Hlen; apply keep_last_length|].
  split; [intros Hids%distinct_ids_NoDup; by rewrite Hlen, keep_last_NoDup_id|].
  split.
  { intros c. rewrite Hn8. f_equal. rewrite <- Hhas6.
    apply eq_true_iff_eq. rewrite andb_true_iff, bool_decide_eq_true.
    unfold has_column. rewrite !bool_decide_eq_true, Hn7, list_elem_of_filter.
    tauto. }
  split; [exact Hnow|].
  split.
  { intros Hc. eapply (column_all_agree _ _ df6).
    - apply Hk68; [by_names|]. intros c ->%list_elem_of_singleton. by_names.
    - apply Hall6; [apply standard_type_known|].
      unfold has_column. by rewrite Hn5, Hn4, Hn3. }
  split.
  { intros Hc. eapply (column_all_agree _ _ df6).
    - apply Hk68; [by_names|]. intros c ->%list_elem_of_singleton. by_names.
    - eapply (column_all_agree _ _ df5); [apply Hk6; by_names|].
      eapply (column_all_agree _ _ df4); [apply Hk5; by_names|].
      eapply (column_all_agree _ _ df3); [apply Hk4; by_names|].
      apply Hall3; [apply phone_digits_digits|by rewrite Hhas2]. }
  assert (∀ c, has_column df4 c = has_column df c) as Hhas4.
  { intros c. rewrite <- Hhas2. unfold has_column. by rewrite Hn4, Hn3. }
  split.
  { intros Hc. eapply (column_all_agree _ _ df6).
    - apply Hk68; [by_names|]. intros c ->%list_elem_of_singleton. by_names.
    - eapply (column_all_agree _ _ df5); [apply Hk6; by_names|].
      apply Hlon. by rewrite Hhas4. }
  split.
  { intros Hc. eapply (column_all_agree _ _ df6).
    - apply Hk68; [by_names|]. intros c ->%list_elem_of_singleton. by_names.
    - eapply (column_all_agree _ _ df5); [apply Hk6; by_names|].
      apply Hlat. by rewrite Hhas4. }
  intros c Hc. rewrite !not_elem_of_app, !not_elem_of_cons in Hc.
  destruct Hc as [(? & ? & ? & ? & ? & ? & _) Hred].
  assert (frames_agree [c] df2 df8) as [_ Hrows].
  { eapply frames_agree_trans; [|apply Hk68].
    - eapply frames_agree_trans; [apply Hk3|].
      { intros ?%list_elem_of_singleton. congruence. }
      eapply frames_agree_trans; [apply Hk4|].
      { intros ?%list_elem_of_singleton. congruence. }
      eapply frames_agree_trans; [apply Hk5|apply Hk6];
        intros ?%list_elem_of_singleton; congruence.
    - intros ?%list_elem_of_singleton. congruence.
    - intros ? ->%list_elem_of_singleton. exact Hred. }
  rewrite (cells_agree [c] _ _ c Hrows) by apply list_elem_of_here.
  unfold df2, df1. simpl. by rewrite <- list_fmap_compose.
Qed.

(** [transform] on a frame with an [id] column, distinct column names,
    [postal_code] and [brewery_type] columns that, where it has them, are of
    the text dtype, and [longitude] and [latitude] columns that, where it has
    them, are not of the [bool] dtype and hold nothing but nulls, texts and
    numbers that a float can hold: it returns (it does not raise).  The frame
    it returns has no more rows than the input, and as many when no two rows
    have equal ids; it has the columns of the input without [address_2],
    [address_3] and [street], and the column [processed_at], which holds the
    clock reading in every row.  What the earlier steps established is still
    there at the end: every [brewery_type] is a known type or [unknown],
    every [phone] is null or a text of digits, every [longitude] and
    [latitude] is null or a number of its range. *)
Theorem transform_returns_cleaned_frame
    (parse_number : string → option Qc) (str_of_number : Qc → string)
    (now : string) (df : DataFrame) (con : Console) :
  has_column df "id" = true →
  NoDup (column_names df) →
  text_or_absent df "postal_code" →
  text_or_absent df "brewery_type" →
  convertible df "longitude" →
  convertible df "latitude" →
  ∃ df' con',
    silver.transform parse_number str_of_number now df con = (Ok df', con')
    ∧ (len df' ≤ len df)%nat
    ∧ (distinct_ids (rows df) → len df' = len df)
    ∧ (∀ c, has_column df' c
            = has_column df c && bool_decide (c ∉ redundant_columns)
              || bool_decide (c = "processed_at"))
    ∧ column_all (λ v, v = VStr now) "processed_at" df'
    ∧ (has_column df "brewery_type" = true →
       column_all known_or_unknown "brewery_type" df')
    ∧ (has_column df "phone" = true → column_all digits_or_null "phone" df')
    ∧ (has_column df "longitude" = true →
       column_all (null_or_within (-180) 180) "longitude" df')
    ∧ (has_column df "latitude" = true →
       column_all (null_or_within (-90) 90) "latitude" df').
Proof.
  intros Hid Hnd Hpostal Htype Hlon0 Hlat0.
  destruct (transform_chain parse_number str_of_number now df con
              Hid Hnd Hpostal Htype Hlon0 Hlat0)
    as (df' & con' & Hrun & Hle & Hlen & Hcols & Hnow & Htypes & Hphone
        & Hlon & Hlat & _).
  exists df', con'. by repeat split.
Qed.

Lemma transform_returns_cleaned_frame_witness :
  has_column scenario_record "id" = true
  ∧ NoDup (column_names scenario_record)
  ∧ convertible scenario_record "longitude"
  ∧ convertible scenario_record "latitude"
  ∧ ∃ df',
      (silver.transform decimal_of_string string_of_number "2026-01-01 00:00:00"
         scenario_record console0).1 = Ok df'
      ∧ len df' = len scenario_record
      ∧ (λ r, (cell r "brewery_type", cell r "phone", cell r "latitude"))
          <$> rows df'
        = [(VStr "micro", VStr "5551234567", VNull)].
Proof.
  assert (NoDup (column_names scenario_record)) as Hnd by by_names.
  assert (convertible scenario_record "longitude") as Hlon by done.
  assert (convertible scenario_record "latitude") as Hlat.
  { intros _. split; [done|]. by repeat constructor. }
  split; [reflexivity|]. split; [exact Hnd|].
  split; [exact Hlon|]. split; [exact Hlat|].
  destruct (transform_returns_cleaned_frame decimal_of_string string_of_number
              "2026-01-01 00:00:00" scenario_record console0 eq_refl Hnd
              (or_introl eq_refl) (or_intror eq_refl) Hlon Hlat)
    as (df' & con' & Hrun & _ & Hlen & _).
  exists df'. rewrite Hrun. split; [reflexivity|]. split.
  - apply Hlen, distinct_ids_NoDup. by_names.
  - assert (Ok df' = (silver.transform decimal_of_string string_of_number
                        "2026-01-01 00:00:00" scenario_record console0).1) as Hdf
      by (by rewrite Hrun).
    vm_compute in Hdf. injection Hdf as ->. vm_compute. reflexivity.
Defined.

(** [normalize_phone] returns on every frame.  A frame without a [phone]
    column comes back as it is.  Otherwise every phone is replaced by the
    text of its digits, or by null when it is null or has no digit; so every
    phone is afterwards null or a text of one or more digits, and nothing
    else changes: the same column names, the same values and dtypes under the
    other columns. *)
Theorem normalize_phone_leaves_digits (str_of_number : Qc → string)
    (df : DataFrame) (con : Console) :
  ∃ df' con',
    silver.normalize_phone str_of_number df con = (Ok df', con')
    ∧ (has_column df "phone" = false → df' = df)
    ∧ (has_column df "phone" = true →
       rewrites_column "phone" (phone_digits str_of_number) df df'
       ∧ column_all digits_or_null "phone" df').
Proof.
  destruct (normalize_phone_spec str_of_number df con) as (df' & con' & Hrun & Hr).
  exists df', con'. split; [done|].
  destruct (has_column df "phone"); split; try done.
  intros _. split; [done|].
  eapply rewrites_column_all; [exact Hr|]. apply phone_digits_digits.
Qed.

Lemma str_accessor_numeric (d : dtype) (vs : list value) :
  d = DNum ∨ d = DBool →
  str_accessor (mkSeries d vs)
  = Raise (AttributeError "Can only use .str accessor with string values!").
Proof. by intros [-> | ->]. Qed.

Lemma normalize_postal_code_numeric (df : DataFrame) (con : Console) :
  column_dtype df "postal_code" = Some DNum
  ∨ column_dtype df "postal_code" = Some DBool →
  ∃ msg, silver.normalize_postal_code df con = (Raise (AttributeError msg), con).
Proof.
  intros Hd. unfold silver.normalize_postal_code.
  assert (∃ d, column_dtype df "postal_code" = Some d ∧ (d = DNum ∨ d = DBool))
    as (d & Hcol & Hnum) by (destruct Hd; eauto).
  rewrite (column_dtype_has _ _ _ Hcol).
  unfold mbind, Py_bind, lift, getitem. rewrite Hcol.
  rewrite str_accessor_numeric by done. by eexists.
Qed.

(** [normalize_postal_code] on a frame without the column returns it as it
    is.  On a [postal_code] column of the text dtype it returns the frame
    with every code stripped and then upper-cased, a null staying null, and
    nothing else changed.  On a column of a numeric or boolean dtype the
    [.str] accessor raises [AttributeError], and nothing is logged. *)
Theorem normalize_postal_code_text_or_error (df : DataFrame) (con : Console) :
  (has_column df "postal_code" = false →
   ∃ con', silver.normalize_postal_code df con = (Ok df, con'))
  ∧ (column_dtype df "postal_code" = Some DStr →
     ∃ df' con',
       silver.normalize_postal_code df con = (Ok df', con')
       ∧ rewrites_column "postal_code" (str_method upper ∘ str_method strip) df df')
  ∧ (column_dtype df "postal_code" = Some DNum
     ∨ column_dtype df "postal_code" = Some DBool →
     ∃ msg, silver.normalize_postal_code df con = (Raise (AttributeError msg), con)).
Proof.
  split; [|split].
  - intros Hc. unfold silver.normalize_postal_code. rewrite Hc. by eexists.
  - intros Hd.
    destruct (normalize_postal_code_spec df con (or_intror Hd))
      as (df' & con' & Hrun & Hr).
    rewrite (column_dtype_has _ _ _ Hd) in Hr. by exists df', con'.
  - apply normalize_postal_code_numeric.
Qed.

(** A frame whose [postal_code] column has a numeric dtype (codes that the
    feed gives as numbers) makes [transform] raise [AttributeError]: the
    first three steps return, [normalize_postal_code] raises. *)
Theorem transform_raises_on_numeric_postal_code
    (parse_number : string → option Qc) (str_of_number : Qc → string)
    (now : string) (df : DataFrame) (con : Console) :
  has_column df "id" = true →
  NoDup (column_names df) →
  column_dtype df "postal_code" = Some DNum →
  ∃ msg con',
    silver.transform parse_number str_of_number now df con
    = (Raise (AttributeError msg), con').
Proof.
  intros Hid Hnd Hpostal. unfold silver.transform.
  destruct (deduplicate_spec df con Hid) as (con1 & H1).
  rewrite (bind_ok _ _ _ _ _ H1).
  set (df1 := mkDF (columns df) (keep_last "id" (rows df))).
  destruct (clean_strings_spec df1 con1 Hnd) as (con2 & H2).
  rewrite (bind_ok _ _ _ _ _ H2).
  set (df2 := mkDF (columns df1) (strip_fields (select_dtypes_str df1) <$> rows df1)).
  destruct (normalize_phone_spec str_of_number df2 con2) as (df3 & con3 & H3 & Hr3).
  rewrite (bind_ok _ _ _ _ _ H3).
  apply rewrites_or_same in Hr3 as (Hn3 & Hk3 & Hall3).
  destruct (normalize_postal_code_numeric df3 con3) as (msg & H4).
  { left. destruct (Hk3 ["postal_code"]) as [Hd _]; [by_names|].
    rewrite Hd by apply list_elem_of_here. exact Hpostal. }
  rewrite (bind_raise _ _ _ _ _ H4). by eexists _, _.
Qed.

Lemma transform_raises_on_numeric_postal_code_witness :
  has_column numeric_postal_codes "id" = true
  ∧ NoDup (column_names numeric_postal_codes)
  ∧ column_dtype numeric_postal_codes "postal_code" = Some DNum
  ∧ ∃ msg,
      (silver.transform decimal_of_string string_of_number "2026-01-01 00:00:00"
         numeric_postal_codes console0).1 = Raise (AttributeError msg).
Proof.
  assert (NoDup (column_names numeric_postal_codes)) as Hnd by by_names.
  split; [reflexivity|]. split; [exact Hnd|]. split; [reflexivity|].
  destruct (transform_raises_on_numeric_postal_code decimal_of_string
              string_of_number "2026-01-01 00:00:00" numeric_postal_codes console0
              eq_refl Hnd eq_refl) as (msg & con' & Hrun).
  exists msg. by rewrite Hrun.
Defined.

(** [drop_redundant_columns] returns on every frame, whichever of the three
    columns it has: the frame it returns has the columns of the input other
    than [address_2], [address_3] and [street], in the same order, and under
    every other column the same dtype and, row by row, the same values. *)
Theorem drop_redundant_columns_drops_only_those (df : DataFrame) (con : Console) :
  ∃ df' con',
    silver.drop_redundant_columns df con = (Ok df', con')
    ∧ column_names df'
      = filter (λ c, c ∉ ["address_2"; "address_3"; "street"]) (column_names df)
    ∧ ∀ c, c ∉ ["address_2"; "address_3"; "street"] → frames_agree [c] df df'.
Proof.
  destruct (drop_redundant_columns_spec df con) as (df' & con' & Hrun & Hn & Hk).
  exists df', con'. split; [done|]. split; [done|].
  intros c Hc. apply Hk. by intros ? ->%list_elem_of_singleton.
Qed.

(** Without an [id] column [deduplicate] returns an empty frame (no rows, or
    no columns) as it is, and raises [KeyError] on any other frame, logging
    nothing; [transform] then raises the same error. *)
Theorem deduplicate_without_id_column
    (parse_number : string → option Qc) (str_of_number : Qc → string)
    (now : string) (df : DataFrame) (con : Console) :
  has_column df "id" = false →
  (df_empty df = true → ∃ con', silver.deduplicate df con = (Ok df, con'))
  ∧ (df_empty df = false →
     ∃ key,
       silver.deduplicate df con = (Raise (KeyError key), con)
       ∧ silver.transform parse_number str_of_number now df con
         = (Raise (KeyError key), con)).
Proof.
  intros Hid.
  assert (df_empty df = false →
          ∃ key, silver.deduplicate df con = (Raise (KeyError key), con))
    as Hraise.
  { intros He. eexists. unfold silver.deduplicate, mbind, Py_bind, lift,
      drop_duplicates_last. by rewrite He, Hid. }
  split.
  - intros He. unfold silver.deduplicate, mbind, Py_bind, lift,
      drop_duplicates_last. rewrite He. by eexists.
  - intros He. destruct (Hraise He) as (key & Hrun). exists key.
    split; [exact Hrun|].
    unfold silver.transform. by rewrite (bind_raise _ _ _ _ _ Hrun).
Qed.

Lemma deduplicate_without_id_column_witness :
  has_column no_id_column "id" = false
  ∧ df_empty no_id_column = false
  ∧ ∃ key,
      (silver.transform decimal_of_string string_of_number "2026-01-01 00:00:00"
         no_id_column console0).1 = Raise (KeyError key).
Proof.
  split; [reflexivity|]. split; [reflexivity|].
  destruct (deduplicate_without_id_column decimal_of_string string_of_number
              "2026-01-01 00:00:00" no_id_column console0 eq_refl) as [_ Hraise].
  destruct (Hraise eq_refl) as (key & _ & Hrun). exists key. by rewrite Hrun.
Defined.

(** [deduplicate] runs before [clean_strings].  Two records whose ids are
    different texts but equal once stripped are therefore both kept, and
    leave [transform] with the same id. *)
Theorem transform_keeps_ids_equal_after_stripping
    (parse_number : string → option Qc) (str_of_number : Qc → string)
    (now : string) (s t : string) (con : Console) :
  s ≠ t → strip s = strip t →
  ∃ df' con',
    silver.transform parse_number str_of_number now (two_ids s t) con
    = (Ok df', con')
    ∧ (λ r, cell r "id") <$> rows df' = [VStr (strip s); VStr (strip s)].
Proof.
  intros Hne Hstrip.
  assert (NoDup (column_names (two_ids s t))) as Hnd by by_names.
  destruct (transform_chain parse_number str_of_number now (two_ids s t) con
              eq_refl Hnd (or_introl eq_refl) (or_introl eq_refl))
    as (df' & con' & Hrun & _ & _ & _ & _ & _ & _ & _ & _ & Hcells);
    [done..|].
  exists df', con'. split; [exact Hrun|].
  rewrite (Hcells "id") by by_names.
  assert (select_dtypes_str (two_ids s t) = ["id"]) as -> by reflexivity.
  assert (rows (two_ids s t) = [ {["id" := VStr s]}; {["id" := VStr t]} ]) as ->
    by reflexivity.
  assert (∀ v : value, cell {["id" := v]} "id" = v) as Hcell
    by (intros; unfold cell; by rewrite lookup_singleton_eq).
  simpl. rewrite !Hcell. cbn [hash_key].
  rewrite bool_decide_eq_false_2 by congruence. simpl.
  rewrite !cell_insert, !Hcell. simpl. by rewrite Hstrip.
Qed.

Lemma transform_keeps_ids_equal_after_stripping_witness :
  " a" ≠ "a" ∧ strip " a" = strip "a"
  ∧ ∃ df',
      (silver.transform decimal_of_string string_of_number "2026-01-01 00:00:00"
         (two_ids " a" "a") console0).1 = Ok df'
      ∧ (λ r, cell r "id") <$> rows df' = [VStr "a"; VStr "a"].
Proof.
  assert (" a" ≠ "a") as Hne by discriminate.
  split; [exact Hne|]. split; [reflexivity|].
  destruct (transform_keeps_ids_equal_after_stripping decimal_of_string
              string_of_number "2026-01-01 00:00:00" " a" "a" console0 Hne eq_refl)
    as (df' & con' & Hrun & Hids).
  exists df'. rewrite Hrun. split; [reflexivity|exact Hids].
Defined.

Lemma agg_count_agree (cs : list string) (c : string) g g' :
  c ∈ cs → Forall2 (rows_agree cs) g g' → agg_count c g' = agg_count c g.
Proof.
  intros Hc Hg. unfold agg_count. symmetry.
  eapply Forall2_length, Forall2_filter_agree; [|exact Hg].
  intros r r' Hrr. simpl. by rewrite (Hrr c Hc).
Qed.

Lemma agg_sum_bool_agree (cs : list string) (c : string) g g' :
  c ∈ cs → Forall2 (rows_agree cs) g g' → agg_sum_bool c g' = agg_sum_bool c g.
Proof.
  intros Hc Hg. unfold agg_sum_bool. symmetry.
  eapply Forall2_length, Forall2_filter_agree; [|exact Hg].
  intros r r' Hrr. simpl. by rewrite (Hrr c Hc).
Qed.

Lemma agg_size_agree (cs : list string) g g' :
  Forall2 (rows_agree cs) g g' → agg_size g' = agg_size g.
Proof. intros Hg. unfold agg_size. symmetry. by eapply Forall2_length. Qed.

Lemma agg_nunique_agree (cs : list string) (c : string) g g' :
  c ∈ cs → Forall2 (rows_agree cs) g g' → agg_nunique c g' = agg_nunique c g.
Proof.
  intros Hc Hg. unfold agg_nunique. by rewrite (cells_agree cs g g' c Hg Hc).
Qed.

Lemma agg_mean_agree (cs : list string) (c : string) g g' :
  c ∈ cs → Forall2 (rows_agree cs) g g' → agg_mean c g' = agg_mean c g.
Proof.
  intros Hc Hg. unfold agg_mean. by rewrite (cells_agree cs g g' c Hg Hc).
Qed.

(** Aggregating two agreeing group-by results gives the same body. *)
Lemma body_agree (cs : list string)
    (f : list value * list (gmap string value) → list value * list value)
    (g g' : list (list value * list (gmap string value))) :
  (∀ x x', x'.1 = x.1 → Forall2 (rows_agree cs) x.2 x'.2 → f x' = f x) →
  groups_agree cs g g' → f <$> g' = f <$> g.
Proof.
  intros Hf Hg. induction Hg as [|x x' g g' [Hk Hr] _ IH]; [done|].
  rewrite !fmap_cons, IH. f_equal. by apply Hf.
Qed.

Lemma reset_index_agree (cs ks : list string) df df' aggregated body :
  ks ⊆ cs → frames_agree cs df df' →
  reset_index df' ks aggregated body = reset_index df ks aggregated body.
Proof.
  intros Hsub [Hd _]. unfold reset_index. f_equal. f_equal.
  apply list_fmap_ext. intros i c Hi. f_equal. f_equal.
  apply Hd, Hsub. by eapply list_elem_of_lookup_2.
Qed.

Lemma count_by_agree (cs ks : list string) df df' :
  ks ⊆ cs → "id" ∈ cs → frames_agree cs df df' →
  gold.count_by df' ks = gold.count_by df ks.
Proof.
  intros Hsub Hid Hagree. unfold gold.count_by.
  pose proof (groupby_agree cs ks df df' false Hsub Hagree) as Hg.
  destruct (groupby df ks false) as [g|e], (groupby df' ks false) as [g'|e'];
    simpl in *; try done; [|by subst].
  rewrite (has_column_agree cs df df' "id" Hagree Hid).
  destruct (has_column df "id"); [|done].
  rewrite (reset_index_agree cs ks df df') by done.
  do 2 f_equal. apply (body_agree cs); [|done].
  intros x x' Hk Hr. by rewrite Hk, (agg_count_agree cs "id" x.2 x'.2).
Qed.

(** The first component of a run: what the call returns or raises. *)
Lemma counting_aggregation_agree (cs ks : list string) (by_ : list (string * bool))
    (msg : DataFrame → string) (post : DataFrame → DataFrame) (w w' : gold.World) :
  ks ⊆ cs → "id" ∈ cs → frames_agree cs (gold.frame w) (gold.frame w') →
  ((df ← gold.get_frame;
    counted ← lift (gold.count_by df ks);
    let result := post (sort_values by_ counted) in
    gold.on_console (info (msg result));;
    mret result) w').1
  = ((df ← gold.get_frame;
      counted ← lift (gold.count_by df ks);
      let result := post (sort_values by_ counted) in
      gold.on_console (info (msg result));;
      mret result) w).1.
Proof.
  intros Hsub Hid Hagree. run_py.
  rewrite (count_by_agree cs ks _ _ Hsub Hid Hagree).
  by destruct (gold.count_by (gold.frame w) ks).
Qed.

(** *** Two runs on frames that agree *)

Lemma related_bind {A B} (cs cs1 cs2 : list string) (R : A → A → Prop)
    (R2 : B → B → Prop) (m m' : Py gold.World A) (f f' : A → Py gold.World B) :
  related cs cs1 R m m' →
  (∀ a a', R a a' → related cs1 cs2 R2 (f a) (f' a')) →
  related cs cs2 R2 (m ≫= f) (m' ≫= f').
Proof.
  intros Hm Hf w w' Hw. specialize (Hm w w' Hw).
  unfold mbind, Py_bind.
  destruct (m w) as [[a|e] w1], (m' w') as [[a'|e'] w1']; simpl in *; try done.
  destruct Hm as [Ha Hw1]. apply (Hf a a' Ha w1 w1' Hw1).
Qed.

Lemma related_ret {A} (cs : list string) (R : A → A → Prop) (a a' : A) :
  R a a' → related cs cs R (mret a) (mret a').
Proof. intros Ha w w' Hw. by split. Qed.

Lemma related_get_frame (cs : list string) :
  related cs cs (frames_agree cs) gold.get_frame gold.get_frame.
Proof. intros w w' Hw. by split. Qed.

Lemma related_lift {A} (cs : list string) (R : A → A → Prop) (r r' : result A) :
  results_agree R r r' → related cs cs R (lift r) (lift r').
Proof.
  intros Hr w w' Hw. unfold lift. simpl.
  destruct r, r'; simpl in *; done.
Qed.

Lemma related_raise {A} (cs cs' : list string) (R : A → A → Prop) (e : exn) :
  related cs cs' R (raise e) (raise e).
Proof. by intros w w' Hw. Qed.

Lemma related_info (cs : list string) (msg msg' : string) :
  related cs cs (λ _ _, True)
    (gold.on_console (info msg)) (gold.on_console (info msg')).
Proof. intros w w' Hw. by split. Qed.

Lemma related_weaken {A} (cs cs1 cs2 : list string) (R : A → A → Prop)
    (m m' : Py gold.World A) :
  cs2 ⊆ cs1 → related cs cs1 R m m' → related cs cs2 R m m'.
Proof.
  intros Hsub Hm w w' Hw. specialize (Hm w w' Hw).
  destruct (m w).1, (m' w').1; try done.
  destruct Hm as [? ?]. split; [done|]. by eapply frames_agree_mono.
Qed.

(** [df[c] = s] on two frames that agree gives frames that agree on [c]
    too. *)
Lemma setitem_agree (cs : list string) (df df' : DataFrame) (c : string)
    (s : Series) :
  frames_agree cs df df' →
  results_agree (frames_agree (c :: cs)) (setitem df c s) (setitem df' c s).
Proof.
  intros Hagree. pose proof (frames_agree_len _ _ _ Hagree) as Hlen.
  unfold setitem. rewrite Hlen.
  case_bool_decide as Hs; [|done]. simpl. destruct Hagree as [Hd Hr]. split.
  - intros c0 Hc0.
    rewrite (column_dtype_set_dtype _ _ _ _ _ (rows df')),
      (column_dtype_set_dtype (columns df) _ _ _ _ (rows df)).
    destruct (decide (c0 = c)) as [->|Hne]; [done|].
    apply elem_of_cons in Hc0 as [?|Hc0]; [done|].
    specialize (Hd c0 Hc0). by destruct df, df'.
  - simpl. clear Hs Hlen Hd. revert Hr. generalize (svalues s).
    generalize (rows df'). generalize (rows df).
    induction l as [|r rs IH]; intros [|r' rs'] vs Hr;
      try (by apply Forall2_length in Hr).
    apply Forall2_cons in Hr as [Hrr Hr].
    destruct vs as [|v vs]; [constructor|]. simpl. constructor; [|by apply IH].
    intros c0 Hc0. destruct (decide (c0 = c)) as [->|Hne].
    + by rewrite !cell_insert.
    + rewrite !cell_insert_ne by done.
      apply elem_of_cons in Hc0 as [?|Hc0]; [done|]. by apply Hrr.
Qed.

Lemma related_frame_setitem (cs : list string) (c : string) (s : Series) :
  related cs (c :: cs) (λ _ _, True)
    (gold.frame_setitem c s) (gold.frame_setitem c s).
Proof.
  intros w w' Hw. unfold gold.frame_setitem.
  pose proof (setitem_agree cs _ _ c s Hw) as Hset.
  destruct (setitem (gold.frame w) c s), (setitem (gold.frame w') c s);
    simpl in *; try done.
Qed.

Lemma related_eq {A} (cs cs' : list string) (m m' : Py gold.World A)
    (w w' : gold.World) :
  related cs cs' eq m m' →
  frames_agree cs (gold.frame w) (gold.frame w') →
  (m' w').1 = (m w).1.
Proof.
  intros Hm Hw. specialize (Hm w w' Hw).
  destruct (m w).1, (m' w').1; try done; [by destruct Hm as [-> _]|by subst].
Qed.

Lemma results_agree_refl {A} (r : result A) : results_agree eq r r.
Proof. by destruct r. Qed.

Lemma results_agree_eq {A} (r r' : result A) : r' = r → results_agree eq r r'.
Proof. intros ->. apply results_agree_refl. Qed.

Lemma agg_regional_diversity_agree (cs : list string) (w w' : gold.World) :
  "state_province" ∈ cs → "brewery_type" ∈ cs →
  frames_agree cs (gold.frame w) (gold.frame w') →
  (gold.agg_regional_diversity w').1 = (gold.agg_regional_diversity w).1.
Proof.
  intros Hs Hb Hagree. unfold gold.agg_regional_diversity. run_py.
  assert (["state_province"] ⊆ cs) as Hsub by (by intros c ->%list_elem_of_singleton).
  pose proof (groupby_agree cs ["state_province"] _ _ true Hsub Hagree) as Hg.
  destruct (groupby (gold.frame w) _ _) as [g|e],
    (groupby (gold.frame w') _ _) as [g'|e']; simpl in Hg; try done; [|by subst].
  rewrite (has_column_agree cs _ _ "brewery_type" Hagree Hb).
  destruct (has_column (gold.frame w) "brewery_type"); [|done]. simpl.
  rewrite (reset_index_agree cs ["state_province"] (gold.frame w) (gold.frame w'))
    by done.
  do 3 f_equal. apply (body_agree cs); [|done].
  intros x x' Hk Hr. by rewrite Hk, (agg_nunique_agree cs "brewery_type" x.2 x'.2).
Qed.

Lemma group_of_agree (cs : list string)
    (g g' : list (list value * list (gmap string value))) (k : list value) :
  groups_agree cs g g' →
  agg_size <$> gold.group_of g' k = agg_size <$> gold.group_of g k.
Proof.
  intros Hg. unfold gold.group_of.
  induction Hg as [|x x' g g' [Hk Hr] _ IH]; [done|].
  simpl. rewrite Hk. destruct (decide (x.1 = k)); simpl.
  - f_equal. by eapply agg_size_agree.
  - destruct (list_find _ g) as [[i y]|], (list_find _ g') as [[i' y']|];
      simpl in *; congruence.
Qed.

Lemma agg_market_specialization_agree (cs : list string) (w w' : gold.World) :
  "state_province" ∈ cs → "brewery_type" ∈ cs →
  frames_agree cs (gold.frame w) (gold.frame w') →
  (gold.agg_market_specialization w').1 = (gold.agg_market_specialization w).1.
Proof.
  intros Hs Hb Hagree. unfold gold.agg_market_specialization. run_py.
  assert (["state_province"] ⊆ cs) as Hsub by (by intros c ->%list_elem_of_singleton).
  rewrite (getitem_agree cs _ _ "brewery_type" Hagree Hb).
  destruct (getitem (gold.frame w) "brewery_type"); [|done].
  set (micro := mkDF (columns (gold.frame w)) _).
  set (micro' := mkDF (columns (gold.frame w')) _).
  assert (frames_agree cs micro micro') as Hmicro.
  { destruct Hagree as [Hd Hr]. split; [done|]. simpl.
    apply Forall2_filter_agree; [|done].
    intros r r' Hrr. by rewrite (Hrr "brewery_type" Hb). }
  pose proof (groupby_agree cs ["state_province"] _ _ true Hsub Hmicro) as Hgm.
  destruct (groupby micro _ _) as [gm|e], (groupby micro' _ _) as [gm'|e'];
    simpl in Hgm; try done; [|by subst].
  pose proof (groupby_agree cs ["state_province"] _ _ true Hsub Hagree) as Hg.
  destruct (groupby (gold.frame w) _ _) as [g|e],
    (groupby (gold.frame w') _ _) as [g'|e']; simpl in Hg; try done; [|by subst].
  simpl.
  rewrite (reset_index_agree cs ["state_province"] (gold.frame w) (gold.frame w'))
    by done.
  do 3 f_equal.
  trans ((λ x, (x.1, [of_nat (agg_size x.2);
                      of_nat (default 0 (agg_size <$> gold.group_of gm x.1))]))
           <$> g').
  - apply list_fmap_ext. intros i x _. simpl.
    by rewrite (group_of_agree cs gm gm').
  - apply (body_agree cs); [|done].
    intros x x' Hk Hr. by rewrite Hk, (agg_size_agree cs x.2 x'.2).
Qed.

Lemma missing_columns_agree (cs ks : list string) (df df' : DataFrame) :
  ks ⊆ cs → frames_agree cs df df' →
  filter (λ c, has_column df' c = false) ks
  = filter (λ c, has_column df c = false) ks.
Proof.
  intros Hsub Hagree. induction ks as [|k ks IH]; [done|].
  rewrite !filter_cons.
  rewrite (has_column_agree cs df df' k Hagree) by (apply Hsub; left).
  rewrite IH; [done|]. intros c Hc. apply Hsub. by right.
Qed.

Lemma fmap_agree {B} (cs : list string) (F : gmap string value → B)
    (rs rs' : list (gmap string value)) :
  (∀ r r', rows_agree cs r r' → F r' = F r) →
  Forall2 (rows_agree cs) rs rs' → F <$> rs' = F <$> rs.
Proof.
  intros HF Hr. induction Hr as [|r r' rs rs' Hrr _ IH]; [done|].
  rewrite !fmap_cons, IH. f_equal. by apply HF.
Qed.

Ltac subset_of_required :=
  let c := fresh "c" in
  let Hc := fresh "Hc" in
  intros c Hc;
  repeat (apply elem_of_cons in Hc as [->|Hc]; [required|]);
  by apply elem_of_nil in Hc.

Lemma agg_digital_maturity_related :
  related required_columns required_columns eq
    gold.agg_digital_maturity gold.agg_digital_maturity.
Proof.
  unfold gold.agg_digital_maturity.
  eapply related_weaken; cycle 1.
  - eapply related_bind; [apply related_get_frame|]. intros df df' Hdf.
    eapply related_bind.
    { apply related_lift, results_agree_eq, (getitem_agree _ _ _ _ Hdf). required. }
    intros s ? <-.
    eapply related_bind; [apply related_frame_setitem|]. intros _ _ _.
    eapply related_bind; [apply related_get_frame|]. intros df1 df1' Hdf1.
    eapply related_bind.
    { apply related_lift, results_agree_eq, (getitem_agree _ _ _ _ Hdf1). required. }
    intros p ? <-.
    eapply related_bind; [apply related_frame_setitem|]. intros _ _ _.
    eapply related_bind; [apply related_get_frame|]. intros df2 df2' Hdf2.
    eapply related_bind.
    { apply related_lift, results_agree_eq, (getitem_agree _ _ _ _ Hdf2). required. }
    intros hw ? <-.
    eapply related_bind.
    { apply related_lift, results_agree_eq, (getitem_agree _ _ _ _ Hdf2). required. }
    intros hp ? <-.
    eapply related_bind; [apply related_frame_setitem|]. intros _ _ _.
    eapply related_bind; [apply related_get_frame|]. intros df3 df3' Hdf3.
    eapply related_bind.
    { apply related_lift.
      eapply groupby_agree; [|exact Hdf3].
      subset_of_required. }
    intros g g' Hg.
    eapply related_bind.
    { rewrite (has_column_agree _ _ _ "id" Hdf3) by required.
      destruct (has_column df3 "id");
        [by apply (related_ret _ (λ _ _ : unit, True))|apply related_raise]. }
    intros _ _ _. cbv zeta.
    eapply related_bind; [apply related_info|]. intros _ _ _.
    apply related_ret. symmetry.
    rewrite (λ a b H, reset_index_agree _ ["state_province"] df3 df3' a b H Hdf3)
      by subset_of_required.
    do 2 f_equal. eapply body_agree; [|exact Hg].
    intros x x' Hk Hr. rewrite Hk.
    rewrite (λ H, agg_count_agree _ "id" x.2 x'.2 H Hr) by required.
    by rewrite (λ H, agg_sum_bool_agree _ "digitally_ready" x.2 x'.2 H Hr)
      by required.
  - intros c Hc. by do 3 apply list_elem_of_further.
Qed.

Lemma agg_data_trust_score_related :
  related required_columns required_columns eq
    gold.agg_data_trust_score gold.agg_data_trust_score.
Proof.
  unfold gold.agg_data_trust_score. cbv zeta.
  eapply related_weaken; cycle 1.
  - eapply related_bind; [apply related_get_frame|]. intros df df' Hdf.
    eapply related_bind.
    { rewrite (λ H, missing_columns_agree required_columns _ df df' H Hdf)
        by subset_of_required.
      destruct (filter _ _);
        [by apply (related_ret _ (λ _ _ : unit, True))|apply related_raise]. }
    intros _ _ _.
    rewrite (fmap_agree required_columns _ (rows df) (rows df')); cycle 1.
    { intros r r' Hrr. do 5 f_equal.
      apply filter_ext_elem. intros c Hc.
      rewrite (Hrr c); [done|]. revert c Hc. subset_of_required. }
    { apply Hdf. }
    eapply related_bind; [apply related_frame_setitem|]. intros _ _ _.
    eapply related_bind; [apply related_get_frame|]. intros df1 df1' Hdf1.
    eapply related_bind.
    { apply related_lift.
      eapply groupby_agree; [|exact Hdf1].
      subset_of_required. }
    intros g g' Hg.
    eapply related_bind; [apply related_info|]. intros _ _ _.
    apply related_ret. symmetry.
    rewrite (λ a b H, reset_index_agree _ ["state_province"] df1 df1' a b H Hdf1)
      by subset_of_required.
    do 2 f_equal. eapply body_agree; [|exact Hg].
    intros x x' Hk Hr. rewrite Hk.
    by rewrite (λ H, agg_mean_agree _ "completeness" x.2 x'.2 H Hr) by required.
  - intros c Hc. by apply list_elem_of_further.
Qed.

(** *** What a run leaves of the frame *)

Lemma keeps_bind {A B} (cs : list string) (m : Py gold.World A)
    (f : A → Py gold.World B) :
  keeps cs m → (∀ a, keeps cs (f a)) → keeps cs (m ≫= f).
Proof.
  intros Hm Hf w. specialize (Hm w). unfold mbind, Py_bind.
  destruct (m w) as [[a|e] w1]; simpl in *; [|done].
  eapply frames_agree_trans; [exact Hm|apply Hf].
Qed.

Lemma keeps_ret {A} (cs : list string) (a : A) : keeps cs (mret a).
Proof. intros w. apply frames_agree_refl. Qed.

Lemma keeps_raise {A} (cs : list string) (e : exn) : keeps cs (@raise _ A e).
Proof. intros w. apply frames_agree_refl. Qed.

Lemma keeps_lift {A} (cs : list string) (r : result A) : keeps cs (lift r).
Proof. intros w. apply frames_agree_refl. Qed.

Lemma keeps_get_frame (cs : list string) : keeps cs gold.get_frame.
Proof. intros w. apply frames_agree_refl. Qed.

Lemma keeps_on_console {A} (cs : list string) (m : Py Console A) :
  keeps cs (gold.on_console m).
Proof.
  intros w. unfold gold.on_console. destruct (m (gold.console w)).
  apply frames_agree_refl.
Qed.

Lemma keeps_frame_setitem (cs : list string) (c : string) (s : Series) :
  c ∉ cs → keeps cs (gold.frame_setitem c s).
Proof.
  intros Hc w. unfold gold.frame_setitem.
  destruct (setitem (gold.frame w) c s) as [df'|e] eqn:Hset; simpl.
  - by eapply setitem_keeps.
  - apply frames_agree_refl.
Qed.

Ltac keeps_step :=
  first
    [ apply keeps_get_frame
    | apply keeps_lift
    | apply keeps_ret
    | apply keeps_raise
    | apply keeps_on_console
    | apply keeps_frame_setitem; by_names
    | apply keeps_bind; [|intros ?]
    | match goal with
      | |- keeps _ (if ?b then _ else _) => destruct b
      | |- keeps _ (match ?l with [] => _ | _ :: _ => _ end) => destruct l
      end
    | progress cbv zeta ].

(** Each of the eight aggregations leaves the columns it and the others
    read as they were: the two that write into the frame only add or
    replace their helper columns. *)
Lemma aggregations_keep_required_columns (top_n : Z) :
  Forall (keeps required_columns)
    [gold.agg_breweries_by_type_and_state;
     gold.agg_breweries_by_country_and_type;
     gold.agg_top_cities top_n;
     gold.agg_geo_coverage;
     gold.agg_digital_maturity;
     gold.agg_regional_diversity;
     gold.agg_market_specialization;
     gold.agg_data_trust_score].
Proof.
  repeat apply Forall_cons_2; [..|apply Forall_nil_2].
  - unfold gold.agg_breweries_by_type_and_state. repeat keeps_step.
  - unfold gold.agg_breweries_by_country_and_type. repeat keeps_step.
  - unfold gold.agg_top_cities. repeat keeps_step.
  - unfold gold.agg_geo_coverage. repeat keeps_step.
  - unfold gold.agg_digital_maturity. repeat keeps_step.
  - unfold gold.agg_regional_diversity. repeat keeps_step.
  - unfold gold.agg_market_specialization. repeat keeps_step.
  - unfold gold.agg_data_trust_score. repeat keeps_step.
Qed.

Lemma aggregations_agree (w w' : gold.World) (top_n : Z) :
  frames_agree required_columns (gold.frame w) (gold.frame w') →
  Forall (λ agg : Py gold.World DataFrame, (agg w').1 = (agg w).1)
    [gold.agg_breweries_by_type_and_state;
     gold.agg_breweries_by_country_and_type;
     gold.agg_top_cities top_n;
     gold.agg_geo_coverage;
     gold.agg_digital_maturity;
     gold.agg_regional_diversity;
     gold.agg_market_specialization;
     gold.agg_data_trust_score].
Proof.
  intros Hagree.
  repeat apply Forall_cons_2; [..|apply Forall_nil_2].
  - apply (counting_aggregation_agree required_columns
             ["brewery_type"; "state_province"] _
             (λ result, "[agg_by_type_and_state] Produzidas "
                        +:+ pretty (len result) +:+ " linhas.") id);
      [subset_of_required|required|done].
  - apply (counting_aggregation_agree required_columns
             ["country"; "brewery_type"] _
             (λ result, "[agg_by_country_and_type] Produzidas "
                        +:+ pretty (len result) +:+ " linhas.") id);
      [subset_of_required|required|done].
  - apply (counting_aggregation_agree required_columns
             ["city"; "state_province"; "country"] _
             (λ _, "[agg_top_cities] Top " +:+ pretty top_n
                   +:+ " cidades calculadas.") (head_rows top_n));
      [subset_of_required|required|done].
  - apply (counting_aggregation_agree required_columns
             ["country"; "state_province"; "city"] _
             (λ result, "[agg_per_location] Produzidas "
                        +:+ pretty (len result) +:+ " linhas.") id);
      [subset_of_required|required|done].
  - by apply (related_eq _ _ _ _ _ _ agg_digital_maturity_related).
  - apply (agg_regional_diversity_agree required_columns); [required..|done].
  - apply (agg_market_specialization_agree required_columns); [required..|done].
  - by apply (related_eq _ _ _ _ _ _ agg_data_trust_score_related).
Qed.

(** The eight aggregations read nothing but the eight columns [id],
    [brewery_type], [state_province], [country], [city], [website_url],
    [phone] and [address_1]: on two frames with the same dtypes and, row by
    row, the same values under these columns, each aggregation returns the
    same table or raises the same exception. *)
Theorem aggregations_read_required_columns_only (w w' : gold.World) (top_n : Z) :
  frames_agree required_columns (gold.frame w) (gold.frame w') →
  Forall (λ agg : Py gold.World DataFrame, (agg w').1 = (agg w).1)
    [gold.agg_breweries_by_type_and_state;
     gold.agg_breweries_by_country_and_type;
     gold.agg_top_cities top_n;
     gold.agg_geo_coverage;
     gold.agg_digital_maturity;
     gold.agg_regional_diversity;
     gold.agg_market_specialization;
     gold.agg_data_trust_score].
Proof. apply aggregations_agree. Qed.

Lemma two_breweries_after_maturity :
  frames_agree required_columns two_breweries
    (frame_after gold.agg_digital_maturity two_breweries).
Proof.
  pose proof (aggregations_keep_required_columns 20) as Hkeep.
  do 4 apply Forall_cons in Hkeep as [_ Hkeep].
  apply Forall_cons in Hkeep as [Hkeep _].
  apply (Hkeep (gold_world two_breweries)).
Qed.

Lemma aggregations_read_required_columns_only_witness :
  frames_agree required_columns two_breweries
    (frame_after gold.agg_digital_maturity two_breweries)
  ∧ (gold.agg_data_trust_score
       (gold.agg_digital_maturity (gold_world two_breweries)).2).1
    = (gold.agg_data_trust_score (gold_world two_breweries)).1.
Proof.
  split; [exact two_breweries_after_maturity|].
  pose proof (aggregations_read_required_columns_only (gold_world two_breweries)
                (gold.agg_digital_maturity (gold_world two_breweries)).2 20
                two_breweries_after_maturity) as Hall.
  do 7 apply Forall_cons in Hall as [_ Hall].
  by apply Forall_cons in Hall as [Hlast _].
Defined.

(** The table an aggregation returns does not depend on which aggregation
    ran before it on the same frame: the helper columns that
    [agg_digital_maturity] and [agg_data_trust_score] leave in the frame are
    read by no other aggregation, and each of the two writes its own before
    it reads them. *)
Theorem aggregation_results_independent_of_order (w : gold.World) (top_n : Z) :
  let aggregations : list (Py gold.World DataFrame) :=
    [gold.agg_breweries_by_type_and_state;
     gold.agg_breweries_by_country_and_type;
     gold.agg_top_cities top_n;
     gold.agg_geo_coverage;
     gold.agg_digital_maturity;
     gold.agg_regional_diversity;
     gold.agg_market_specialization;
     gold.agg_data_trust_score] in
  Forall (λ first,
            Forall (λ agg, (agg (first w).2).1 = (agg w).1) aggregations)
    aggregations.
Proof.
  intros aggregations.
  eapply Forall_impl; [apply (aggregations_keep_required_columns top_n)|].
  intros first Hkeep. apply aggregations_agree, Hkeep.
Qed.

(** ** The quality gate of the Gold layer *)

Lemma check_volume_one (t : DataFrame) (con : Console) :
  ∃ c con', dq.check_volume t 1 None con = (Ok c, con')
            ∧ (dq.passed c = true ↔ rows t ≠ []).
Proof.
  unfold dq.check_volume. eexists _, _. split; [reflexivity|].
  cbn [dq.passed]. unfold len.
  rewrite bool_decide_eq_true, length_zero_iff_nil.
  case_bool_decide as Hlt.
  - split; [done|]. intros Hne. destruct (rows t); [done|].
    rewrite length_cons in Hlt. lia.
  - split; [|done]. intros _ Hnil. rewrite Hnil in Hlt. simpl in Hlt. lia.
Qed.

Lemma check_nulls_no_null format_percent (t : DataFrame) (c : string)
    (con : Console) :
  has_column t c = true →
  ∃ res con',
    dq.check_nulls format_percent t [c] (num 0) con = (Ok res, con')
    ∧ (dq.passed res = true ↔ ∀ r, r ∈ rows t → cell r c ≠ VNull).
Proof.
  intros Hc. unfold dq.check_nulls, mbind, Py_bind, lift.
  destruct (check_nulls_loop_spec format_percent t (num 0) [c] [])
    as (more & -> & Hmore).
  simpl. eexists _, _. split; [reflexivity|]. simpl.
  rewrite bool_decide_eq_true, length_zero_iff_nil, Hmore, Forall_singleton.
  unfold nulls_within, column_cells. rewrite Hc.
  destruct (dq.null_rate ((λ r, cell r c) <$> rows t)) as [rate|] eqn:Hrate.
  - pose proof (null_rate_zero _ _ Hrate) as Hzero.
    rewrite Forall_fmap, Forall_forall in Hzero. simpl in Hzero.
    rewrite <- Hzero. split; [intros [_ H]; by apply H|].
    intros H. split; [done|]. by intros ? [= <-].
  - unfold dq.null_rate in Hrate. destruct (rows t) as [|r rs]; [|done].
    split; [by intros _ ? ?%elem_of_nil|done].
Qed.

(** The checks [run_gold_dq] collects all pass exactly when every table
    passes. *)
Lemma gold_checks_spec format_percent (aggregations : list (string * DataFrame))
    (acc : list dq.CheckResult) (con : Console) :
  ∃ more con',
    gold.gold_checks format_percent aggregations acc con = (Ok (acc ++ more), con')
    ∧ (forallb dq.passed more = true
       ↔ Forall (λ nt, table_passes nt.2) aggregations).
Proof.
  revert acc con. induction aggregations as [|[name t] rest IH]; intros acc con.
  - exists [], con. split; [simpl; by rewrite app_nil_r|].
    split; [constructor|done].
  - simpl. unfold mbind at 1, Py_bind at 1.
    destruct (check_volume_one t con) as (c & con1 & -> & Hc).
    unfold mbind at 1, Py_bind at 1.
    destruct (has_column t "brewery_count") eqn:Hcol.
    + unfold mbind at 1, Py_bind at 1.
      destruct (check_nulls_no_null format_percent t "brewery_count" con1 Hcol)
        as (c2 & con2 & -> & Hc2).
      unfold mret, Py_ret.
      destruct (IH ((acc ++ [c]) ++ [c2]) con2) as (more & con' & -> & Hmore).
      exists (c :: c2 :: more), con'. split; [by rewrite <- !app_assoc|].
      simpl. rewrite !andb_true_iff, Hc, Hc2, Hmore, Forall_cons.
      unfold table_passes. simpl. rewrite Hcol. tauto.
    + unfold mret, Py_ret.
      destruct (IH (acc ++ [c]) con1) as (more & con' & -> & Hmore).
      exists (c :: more), con'. split; [by rewrite <- !app_assoc|].
      simpl. rewrite !andb_true_iff, Hc, Hmore, Forall_cons.
      unfold table_passes. simpl. rewrite Hcol. intuition congruence.
Qed.

Lemma run_gold_dq_outcome format_percent (aggregations : list (string * DataFrame))
    (con : Console) :
  ∃ passed : bool,
    (gold.run_gold_dq format_percent aggregations con).1
    = (if passed then Ok tt
       else Raise (ValueError
                     "A suíte de qualidade de dados falhou. Veja o relatório acima."))
    ∧ (passed = true ↔ Forall (λ nt, table_passes nt.2) aggregations).
Proof.
  unfold gold.run_gold_dq.
  unfold mbind at 1, Py_bind at 1, info, log.
  unfold mbind at 1, Py_bind at 1.
  match goal with
  | |- context [gold.gold_checks _ _ [] ?c] =>
    destruct (gold_checks_spec format_percent aggregations [] c)
      as (more & con1 & -> & Hmore)
  end.
  unfold mbind, Py_bind. cbn [app].
  pose proof (run_suite_outcome more true con1) as Hout.
  destruct (dq.run_suite more true con1) as [r con2]. simpl in Hout. subst r.
  exists (forallb dq.passed more). split; [|exact Hmore].
  by destruct (forallb dq.passed more).
Qed.

(** [run_gold_dq] returns exactly when every table has at least one row
    and, where it has a [brewery_count] column, no null in it; in every
    other case it raises the [ValueError] of the suite.  So one table
    without rows is enough to stop the Gold layer. *)
Theorem run_gold_dq_blocks_exactly format_percent
    (aggregations : list (string * DataFrame)) (con : Console) :
  ((gold.run_gold_dq format_percent aggregations con).1 = Ok tt
   ↔ Forall (λ nt, table_passes nt.2) aggregations)
  ∧ ((gold.run_gold_dq format_percent aggregations con).1
     = Raise (ValueError
                "A suíte de qualidade de dados falhou. Veja o relatório acima.")
     ↔ ¬ Forall (λ nt, table_passes nt.2) aggregations).
Proof.
  destruct (run_gold_dq_outcome format_percent aggregations con)
    as (passed & -> & Hpassed).
  rewrite <- Hpassed.
  destruct passed; split; split; done.
Qed.

(** ** process_gold and the Gold files *)


















(** ** load_silver *)









(** The value of a partition named [brewery_type=t] is [t], also when [t]
    holds an equals sign. *)
Lemma partition_value_brewery_type (t : string) :
  gold.partition_value ("brewery_type=" +:+ t) = t.
Proof.
  unfold gold.partition_value. rewrite bool_decide_eq_true_2; [done|].
  unfold string_to_list. simpl.
  do 12 apply list_elem_of_further. apply list_elem_of_here.
Qed.


(** ** The tables of the counting aggregations *)

Lemma lookup_after_keys (ks : list string) (k : list value)
    (rest : list (string * value)) (c : string) :
  c ∉ ks →
  (list_to_map (zip ks k ++ rest) : gmap string value) !! c
  = (list_to_map rest : gmap string value) !! c.
Proof.
  intros Hc. rewrite list_to_map_app. apply lookup_union_r.
  apply not_elem_of_list_to_map_1. intros Hin.
  apply list_elem_of_fmap in Hin as ([c' v] & -> & Hin).
  apply elem_of_zip_l in Hin. done.
Qed.

(** The one aggregated cell of a row of a counting table. *)
Lemma count_cell (ks : list string) (k : list value) (c : string) (v : value) :
  c ∉ ks → cell (list_to_map (zip ks k ++ [(c, v)])) c = v.
Proof.
  intros Hc. unfold cell. rewrite lookup_after_keys by done. simpl.
  by rewrite lookup_insert_eq.
Qed.

Lemma sum_list_cons (x : nat) (l : list nat) : sum_list (x :: l) = x + sum_list l.
Proof. done. Qed.

Lemma sum_list_fmap_add {A} (f g : A → nat) (l : list A) :
  sum_list ((λ x, f x + g x) <$> l) = sum_list (f <$> l) + sum_list (g <$> l).
Proof.
  induction l as [|x l IH]; [done|].
  rewrite !fmap_cons, !sum_list_cons, IH. lia.
Qed.

Lemma sum_list_zero {A} (l : list A) : sum_list ((λ _, 0) <$> l) = 0.
Proof. by induction l. Qed.

Lemma sum_list_not_in {A} `{EqDecision A} (K : list A) (x : A) (n : nat) :
  x ∉ K → sum_list ((λ k, if decide (x = k) then n else 0) <$> K) = 0.
Proof.
  induction K as [|k K IH]; [done|]. intros [Hne Hnotin]%not_elem_of_cons.
  rewrite fmap_cons, sum_list_cons, decide_False by done. by rewrite IH.
Qed.

Lemma sum_list_indicator {A} `{EqDecision A} (K : list A) (x : A) (n : nat) :
  NoDup K → x ∈ K →
  sum_list ((λ k, if decide (x = k) then n else 0) <$> K) = n.
Proof.
  induction K as [|k K IH]; [by intros _ ?%elem_of_nil|].
  intros [Hnotin Hnd]%NoDup_cons Hin.
  rewrite fmap_cons, sum_list_cons.
  destruct (decide (x = k)) as [->|Hne].
  - rewrite sum_list_not_in by done. lia.
  - apply elem_of_cons in Hin as [?|Hin]; [done|]. by rewrite IH.
Qed.

(** Over keys that are pairwise different and cover the rows, the groups
    split the rows: their counts add up to the count of the whole. *)
Lemma groups_partition {K} `{EqDecision K} (key : gmap string value → K)
    (P : gmap string value → Prop) `{∀ r, Decision (P r)}
    (keys : list K) (rs : list (gmap string value)) :
  NoDup keys → (∀ r, r ∈ rs → key r ∈ keys) →
  sum_list ((λ k, length (filter P (filter (λ r, key r = k) rs))) <$> keys)
  = length (filter P rs).
Proof.
  intros Hnd. induction rs as [|r rs IH]; intros Hcover.
  - simpl. apply sum_list_zero.
  - assert (∀ k, length (filter P (filter (λ r0, key r0 = k) (r :: rs)))
                 = (if decide (key r = k)
                    then (if decide (P r) then 1 else 0) else 0)
                   + length (filter P (filter (λ r0, key r0 = k) rs))) as Hk.
    { intros k. rewrite filter_cons. destruct (decide (key r = k)); [|done].
      rewrite filter_cons. by destruct (decide (P r)). }
    rewrite (list_fmap_ext _ _ keys (λ _ k _, Hk k)).
    rewrite (sum_list_fmap_add
               (λ k, if decide (key r = k) then (if decide (P r) then 1 else 0)
                     else 0)).
    rewrite sum_list_indicator;
      [|done|apply Hcover, list_elem_of_here].
    rewrite IH by (intros r' Hr'; by apply Hcover, list_elem_of_further).
    rewrite filter_cons. by destruct (decide (P r)).
Qed.

Lemma first_appearance_spec `{EqDecision A} (l acc : list A) :
  NoDup acc →
  NoDup (foldl (λ acc k, if decide (k ∈ acc) then acc else acc ++ [k]) acc l)
  ∧ ∀ x, x ∈ foldl (λ acc k, if decide (k ∈ acc) then acc else acc ++ [k]) acc l
         ↔ x ∈ acc ∨ x ∈ l.
Proof.
  revert acc. induction l as [|y l IH]; intros acc Hnd; simpl.
  - split; [done|]. intros x. split; [by left|].
    by intros [?|?%elem_of_nil].
  - destruct (decide (y ∈ acc)) as [Hy|Hy].
    + destruct (IH acc Hnd) as [Hnd' Hin]. split; [done|].
      intros x. rewrite Hin, elem_of_cons. split; [tauto|].
      intros [?|[->|?]]; tauto.
    + destruct (IH (acc ++ [y])) as [Hnd' Hin].
      { apply NoDup_app. split; [done|]. split; [|apply NoDup_singleton].
        by intros x Hx ->%list_elem_of_singleton. }
      split; [done|]. intros x.
      rewrite Hin, elem_of_app, list_elem_of_singleton, elem_of_cons. tauto.
Qed.

Lemma first_appearance_NoDup `{EqDecision A} (l : list A) :
  NoDup (first_appearance l).
Proof. apply first_appearance_spec, NoDup_nil_2. Qed.

Lemma first_appearance_iff `{EqDecision A} (l : list A) (x : A) :
  x ∈ first_appearance l ↔ x ∈ l.
Proof.
  unfold first_appearance.
  destruct (first_appearance_spec l [] (NoDup_nil_2)) as [_ Hin].
  rewrite Hin. split; [by intros [?%elem_of_nil|?]|by right].
Qed.

(** The keys of the groups are pairwise different, and are the keys of the
    rows that are grouped. *)
Lemma group_keys_NoDup (ks : list string) (rs : list (gmap string value)) :
  NoDup (merge_sort (keys_le ks) (first_appearance (key_of ks <$> rs))).
Proof. rewrite merge_sort_Permutation. apply first_appearance_NoDup. Qed.

Lemma group_keys_elem (ks : list string) (rs : list (gmap string value))
    (k : list value) :
  k ∈ merge_sort (keys_le ks) (first_appearance (key_of ks <$> rs))
  ↔ ∃ r, r ∈ rs ∧ key_of ks r = k.
Proof.
  rewrite merge_sort_Permutation, first_appearance_iff, list_elem_of_fmap.
  split; intros (r & ? & ?); by exists r.
Qed.

(** The counts of a counting table, before it is sorted: they add up to the
    number of rows with an [id]. *)
Lemma count_by_counts (df : DataFrame) (ks : list string) (t : DataFrame) :
  "brewery_count" ∉ ks → gold.count_by df ks = Ok t →
  ∃ ns, (λ r, cell r "brewery_count") <$> rows t = of_nat <$> ns
        ∧ sum_list ns = agg_count "id" (rows df).
Proof.
  intros Hc Hrun. unfold gold.count_by, groupby in Hrun.
  destruct (filter _ ks); [|done]. simpl in Hrun.
  destruct (has_column df "id"); [|done]. injection Hrun as <-.
  set (keys := merge_sort (keys_le ks) (first_appearance (key_of ks <$> rows df))).
  exists ((λ k, agg_count "id" (filter (λ r, key_of ks r = k) (rows df))) <$> keys).
  split.
  - unfold reset_index. simpl. rewrite <- !list_fmap_compose.
    apply list_fmap_ext. intros i k _. simpl. by apply count_cell.
  - unfold agg_count.
    apply (groups_partition (key_of ks) (λ r, notna (cell r "id") = true)).
    + apply group_keys_NoDup.
    + intros r Hr. apply group_keys_elem. by exists r.
Qed.

Lemma cells_permutation (c : string) (rs rs' : list (gmap string value))
    (ns : list nat) :
  rs' ≡ₚ rs → (λ r, cell r c) <$> rs = of_nat <$> ns →
  ∃ ns', (λ r, cell r c) <$> rs' = of_nat <$> ns' ∧ ns' ≡ₚ ns.
Proof.
  intros Hperm Hcells.
  assert ((λ r, cell r c) <$> rs' ≡ₚ of_nat <$> ns) as Hp
    by (by rewrite <- Hcells, Hperm).
  apply Permutation_map_inv in Hp as (ns' & Heq & Hp').
  exists ns'. split; [done|]. by symmetry.
Qed.

Lemma counting_aggregation_counts (ks : list string) (by_ : list (string * bool))
    (msg : DataFrame → string) (w : gold.World) :
  "brewery_count" ∉ ks →
  Forall (λ k, has_column (gold.frame w) k = true) ks →
  has_column (gold.frame w) "id" = true →
  ∃ t w' ns,
    (df ← gold.get_frame;
     counted ← lift (gold.count_by df ks);
     let result := sort_values by_ counted in
     gold.on_console (info (msg result));;
     mret result) w = (Ok t, w')
    ∧ (λ r, cell r "brewery_count") <$> rows t = of_nat <$> ns
    ∧ sum_list ns = agg_count "id" (rows (gold.frame w)).
Proof.
  intros Hc Hks Hid.
  destruct (count_by_total (gold.frame w) ks Hks Hid) as (counted & Hrun).
  destruct (count_by_counts _ _ _ Hc Hrun) as (ns & Hcells & Hsum).
  destruct (cells_permutation "brewery_count" (rows counted)
              (rows (sort_values by_ counted)) ns) as (ns' & Hcells' & Hperm).
  { unfold sort_values. simpl. apply merge_sort_Permutation. }
  { done. }
  run_py. rewrite Hrun. eexists _, _, ns'. split; [reflexivity|].
  split; [done|]. by rewrite Hperm.
Qed.

(** On a frame that has their columns, the three counting aggregations that
    keep all their groups (by type and state, by country and type, by
    location) count every record once: the counts of the table add up to the
    number of rows of the frame that have an [id], a row with a null key
    included. *)
Theorem counting_aggregations_count_every_record (w : gold.World) :
  Forall (λ c, has_column (gold.frame w) c = true)
    ["id"; "brewery_type"; "state_province"; "country"; "city"] →
  Forall (λ agg : Py gold.World DataFrame,
            ∃ t w', agg w = (Ok t, w') ∧ counts_every_id (gold.frame w) t)
    [gold.agg_breweries_by_type_and_state;
     gold.agg_breweries_by_country_and_type;
     gold.agg_geo_coverage].
Proof.
  intros Hcols.
  repeat (apply Forall_cons in Hcols as [? Hcols]).
  repeat apply Forall_cons_2; [..|apply Forall_nil_2].
  - destruct (counting_aggregation_counts ["brewery_type"; "state_province"]
                [("state_province", true); ("brewery_count", false)]
                (λ result, "[agg_by_type_and_state] Produzidas "
                           +:+ pretty (len result) +:+ " linhas.") w)
      as (t & w' & ns & Hrun & Hcells & Hsum);
      [by_names|by repeat constructor|done|].
    exists t, w'. split; [exact Hrun|]. by exists ns.
  - destruct (counting_aggregation_counts ["country"; "brewery_type"]
                [("country", true); ("brewery_count", false)]
                (λ result, "[agg_by_country_and_type] Produzidas "
                           +:+ pretty (len result) +:+ " linhas.") w)
      as (t & w' & ns & Hrun & Hcells & Hsum);
      [by_names|by repeat constructor|done|].
    exists t, w'. split; [exact Hrun|]. by exists ns.
  - destruct (counting_aggregation_counts ["country"; "state_province"; "city"]
                [("country", true); ("state_province", true);
                 ("brewery_count", false)]
                (λ result, "[agg_per_location] Produzidas "
                           +:+ pretty (len result) +:+ " linhas.") w)
      as (t & w' & ns & Hrun & Hcells & Hsum);
      [by_names|by repeat constructor|done|].
    exists t, w'. split; [exact Hrun|]. by exists ns.
Qed.

Lemma counting_aggregations_count_every_record_witness :
  Forall (λ c, has_column two_breweries c = true)
    ["id"; "brewery_type"; "state_province"; "country"; "city"]
  ∧ ∃ t, (gold.agg_geo_coverage (gold_world two_breweries)).1 = Ok t
         ∧ counts_every_id two_breweries t.
Proof.
  assert (Forall (λ c, has_column two_breweries c = true)
            ["id"; "brewery_type"; "state_province"; "country"; "city"]) as Hcols
    by repeat constructor.
  split; [exact Hcols|].
  pose proof (counting_aggregations_count_every_record
                (gold_world two_breweries) Hcols) as Hall.
  do 2 apply Forall_cons in Hall as [_ Hall].
  apply Forall_cons in Hall as [(t & w' & Hrun & Hcount) _].
  exists t. rewrite Hrun. by split.
Defined.

(** ** Sorting *)

Lemma value_compare_antisym (a b : value) :
  value_compare a b = CompOpp (value_compare b a).
Proof.
  destruct a as [|s|x|[]], b as [|t|y|[]]; simpl; try done;
    try apply Stdlib.Strings.String.compare_antisym;
    unfold Qccompare; by rewrite <- Qcompare_antisym.
Qed.

Lemma directed_compare_antisym (ascending : bool) (a b : value) :
  directed_compare ascending a b = CompOpp (directed_compare ascending b a).
Proof.
  unfold directed_compare.
  destruct a, b, ascending; try apply value_compare_antisym.
Qed.

Lemma rows_compare_antisym (ks : list (string * bool)) (r1 r2 : gmap string value) :
  rows_compare ks r1 r2 = CompOpp (rows_compare ks r2 r1).
Proof.
  induction ks as [|[c ascending] ks IH]; [done|]. simpl.
  rewrite (directed_compare_antisym ascending (cell r1 c) (cell r2 c)).
  by destruct (directed_compare ascending (cell r2 c) (cell r1 c)).
Qed.

Lemma rows_le_total (ks : list (string * bool)) : Total (rows_le ks).
Proof.
  intros r1 r2. unfold rows_le. rewrite (rows_compare_antisym ks r2 r1).
  destruct (rows_compare ks r1 r2); [by left|by left|by right].
Qed.

(** [sort_values] leaves the rows in the order of its keys. *)
Lemma sort_values_sorted (ks : list (string * bool)) (df : DataFrame) :
  Sorted (rows_le ks) (rows (sort_values ks df)).
Proof.
  unfold sort_values. simpl. apply Sorted_merge_sort, rows_le_total.
Qed.

Lemma Sorted_take {A} (R : relation A) (n : nat) (l : list A) :
  Sorted R l → Sorted R (take n l).
Proof.
  intros Hs. revert n. induction Hs as [|x l Hs IH Hhd]; intros [|n]; simpl;
    try constructor.
  - apply IH.
  - destruct Hhd as [|y l Hxy]; destruct n; simpl; by constructor.
Qed.

Lemma Sorted_fmap_inv {A B} (f : A → B) (R : relation B) (R' : relation A)
    (l : list A) :
  (∀ x y, R (f x) (f y) → R' x y) → Sorted R (f <$> l) → Sorted R' l.
Proof.
  intros HR. induction l as [|x l IH]; [constructor|].
  rewrite fmap_cons. intros [Hs Hhd]%Sorted_inv. constructor; [by apply IH|].
  destruct l as [|y l]; [constructor|].
  rewrite fmap_cons in Hhd. apply HdRel_inv in Hhd. constructor. by apply HR.
Qed.

Lemma num_compare (a b : Z) : (num a ?= num b)%Qc = (a ?= b)%Z.
Proof.
  unfold Qccompare, num. simpl. rewrite !Qred_correct.
  unfold Qcompare. simpl. by rewrite !Z.mul_1_r.
Qed.

(** Two counts in descending order. *)
Lemma descending_counts (a b : nat) :
  directed_compare false (of_nat a) (of_nat b) ≠ Gt ↔ b ≤ a.
Proof.
  unfold directed_compare, of_nat, value_compare, numeric.
  rewrite num_compare.
  destruct (Z.compare_spec (Z.of_nat b) (Z.of_nat a)); split; (done || lia).
Qed.

Lemma sum_list_take (n : nat) (l : list nat) : sum_list (take n l) ≤ sum_list l.
Proof.
  revert n. induction l as [|x l IH]; intros [|n]; simpl; try lia.
  specialize (IH n). lia.
Qed.

(** On a frame that has its columns, [agg_top_cities] returns a table whose
    counts do not grow from one row to the next and add up to no more than
    the number of rows of the frame with an [id]; with [top_n] zero or more
    the table has at most [top_n] rows. *)
Theorem agg_top_cities_largest_first (w : gold.World) (top_n : Z) :
  Forall (λ c, has_column (gold.frame w) c = true)
    ["id"; "city"; "state_province"; "country"] →
  ∃ t w' ns,
    gold.agg_top_cities top_n w = (Ok t, w')
    ∧ (λ r, cell r "brewery_count") <$> rows t = of_nat <$> ns
    ∧ descending ns
    ∧ sum_list ns ≤ agg_count "id" (rows (gold.frame w))
    ∧ ((0 ≤ top_n)%Z → len t ≤ Z.to_nat top_n).
Proof.
  intros Hcols. repeat (apply Forall_cons in Hcols as [? Hcols]).
  destruct (count_by_total (gold.frame w) ["city"; "state_province"; "country"])
    as (counted & Hrun); [by repeat constructor|done|].
  assert ("brewery_count" ∉ ["city"; "state_province"; "country"]) as Hc
    by by_names.
  destruct (count_by_counts _ _ _ Hc Hrun) as (ns & Hcells & Hsum).
  set (sorted := sort_values [("brewery_count", false)] counted).
  destruct (cells_permutation "brewery_count" (rows counted) (rows sorted) ns)
    as (ns' & Hcells' & Hperm);
    [unfold sorted, sort_values; simpl; apply merge_sort_Permutation|done|].
  assert (∃ m, rows (head_rows top_n sorted) = take m (rows sorted)
               ∧ ((0 ≤ top_n)%Z → m = Z.to_nat top_n)) as (m & Hrows & Hm).
  { unfold head_rows. simpl. case_bool_decide; eexists; split; done || lia. }
  unfold gold.agg_top_cities. run_py. rewrite Hrun.
  exists (head_rows top_n sorted), (gold.mkWorld (gold.frame w)
    (mkConsole (logged (gold.console w) ++
                [(INFO, "[agg_top_cities] Top " +:+ pretty top_n
                        +:+ " cidades calculadas.")])
               (printed (gold.console w))) (gold.gold_files w)), (take m ns').
  split; [done|].
  assert ((λ r, cell r "brewery_count") <$> rows (head_rows top_n sorted)
          = of_nat <$> take m ns') as Hhead.
  { by rewrite Hrows, fmap_take, Hcells', <- fmap_take. }
  split; [exact Hhead|]. split; [|split].
  - pose proof (sort_values_sorted [("brewery_count", false)] counted) as Hs.
    fold sorted in Hs. apply (Sorted_take _ m) in Hs. rewrite <- Hrows in Hs.
    apply (Sorted_fmap (λ r, cell r "brewery_count")
             (rows_le [("brewery_count", false)])
             (λ a b, directed_compare false a b ≠ Gt)) in Hs.
    + rewrite Hhead in Hs. eapply Sorted_fmap_inv; [|exact Hs].
      intros a b. apply descending_counts.
    + intros r1 r2. unfold rows_le. simpl.
      by destruct (directed_compare false _ _).
  - rewrite <- Hsum, <- Hperm. apply sum_list_take.
  - intros Hn. unfold len. rewrite Hrows, length_take, (Hm Hn). lia.
Qed.

Lemma agg_top_cities_largest_first_witness :
  Forall (λ c, has_column two_breweries c = true)
    ["id"; "city"; "state_province"; "country"]
  ∧ ∃ t, (gold.agg_top_cities 1 (gold_world two_breweries)).1 = Ok t
         ∧ len t ≤ 1.
Proof.
  assert (Forall (λ c, has_column two_breweries c = true)
            ["id"; "city"; "state_province"; "country"]) as Hcols
    by repeat constructor.
  split; [exact Hcols|].
  destruct (agg_top_cities_largest_first (gold_world two_breweries) 1 Hcols)
    as (t & w' & ns & Hrun & _ & _ & _ & Hlen).
  exists t. rewrite Hrun. split; [reflexivity|]. apply Hlen. lia.
Defined.

(** ** The per-state tables *)

Lemma grouped_by_state_rows (df t : DataFrame) :
  grouped_by_state df t → one_row_per_state df t.
Proof.
  intros (df' & groups & by_ & aggregated & F & Hagree & Hgroups & ->).
  unfold one_row_per_state. cbv zeta.
  assert ((λ r, cell r "state_province") <$> rows df
          = (λ r, cell r "state_province") <$> rows df') as ->.
  { destruct Hagree as [_ Hr]. symmetry.
    apply (cells_agree ["state_province"]); [done|apply list_elem_of_here]. }
  set (rs := filter (λ r, forallb notna (key_of ["state_province"] r) = true)
               (rows df')).
  set (keys := merge_sort (keys_le ["state_province"])
                 (first_appearance (key_of ["state_province"] <$> rs))).
  assert (groups = (λ k, (k, filter (λ r, key_of ["state_province"] r = k) rs))
                     <$> keys) as ->.
  { unfold groupby in Hgroups.
    destruct (filter (λ c, has_column df' c = false) ["state_province"]);
      [|done].
    by injection Hgroups as <-. }
  clear Hgroups.
  assert (∀ k, k ∈ keys ↔ ∃ r, r ∈ rs ∧ k = [cell r "state_province"]) as Hkeys.
  { intros k. unfold keys. rewrite group_keys_elem.
    split; intros (r & Hr & Hk); exists r; by split. }
  set (unsorted := reset_index _ _ _ _).
  assert ((λ r, cell r "state_province") <$> rows unsorted
          = (λ k, default VNull (head k)) <$> keys) as Hstates.
  { unfold unsorted, reset_index. simpl. rewrite <- !list_fmap_compose.
    apply list_fmap_ext. intros i k Hi. simpl.
    assert (k ∈ keys) as (r & _ & ->)%Hkeys by by eapply list_elem_of_lookup_2.
    unfold cell. simpl. by rewrite lookup_insert_eq. }
  assert ((λ r, cell r "state_province") <$> rows (sort_values by_ unsorted)
          ≡ₚ (λ k, default VNull (head k)) <$> keys) as Hperm.
  { rewrite <- Hstates. unfold sort_values. simpl.
    by rewrite merge_sort_Permutation. }
  split.
  - rewrite Hperm. apply NoDup_fmap_2_strong; [|apply group_keys_NoDup].
    intros k1 k2 (r1 & _ & ->)%Hkeys (r2 & _ & ->)%Hkeys. simpl. by intros ->.
  - intros v. rewrite Hperm, list_elem_of_fmap. split.
    + intros (k & -> & (r & Hr & ->)%Hkeys). simpl.
      apply list_elem_of_filter in Hr as [Hnn Hr].
      simpl in Hnn. rewrite andb_true_r in Hnn. split.
      * intros Hv. by rewrite Hv in Hnn.
      * apply list_elem_of_fmap. by exists r.
    + intros [Hv (r & -> & Hr)%list_elem_of_fmap].
      exists [cell r "state_province"]. split; [done|].
      apply Hkeys. exists r. split; [|done].
      apply list_elem_of_filter. split; [|done].
      simpl. rewrite andb_true_r. by destruct (cell r "state_province").
Qed.

Lemma groupby_total (df : DataFrame) (ks : list string) (dropna : bool) :
  Forall (λ k, has_column df k = true) ks →
  ∃ groups, groupby df ks dropna = Ok groups.
Proof.
  intros Hks. unfold groupby.
  assert (filter (λ c, has_column df c = false) ks = []) as ->.
  { apply filter_nil_iff. eapply Forall_impl; [exact Hks|].
    simpl. by intros c ->. }
  by eexists.
Qed.

(** Setting a column to as many values as the frame has rows. *)
Lemma setitem_column_ok (df : DataFrame) (c : string) (vs : list value) (d : dtype) :
  length vs = len df →
  ∃ df1,
    setitem df c (mkSeries d vs) = Ok df1
    ∧ (∀ c', has_column df c' = true → has_column df1 c' = true)
    ∧ has_column df1 c = true
    ∧ (∀ cs, c ∉ cs → frames_agree cs df df1)
    ∧ (λ r, cell r c) <$> rows df1 = vs.
Proof.
  intros Hlen. eexists. split; [by apply setitem_total|].
  split; [|split; [|split]].
  - intros c' Hc'. rewrite has_column_setitem, Hc'. done.
  - apply has_column_added.
  - intros cs Hcs. eapply setitem_keeps; [done|]. by apply setitem_total.
  - eapply (setitem_rows df _ c (mkSeries d vs)). by apply setitem_total.
Qed.

Ltac next_getitem H :=
  match goal with
  | |- context [getitem ?d ?c] =>
    destruct (getitem_ok d c H) as (? & _ & ->); cbn [svalues sdtype]
  end.

Ltac next_setitem df1 Hkeep Hnew Hagree Hcells :=
  match goal with
  | |- context [setitem ?d ?c (mkSeries ?dt ?vs)] =>
    destruct (setitem_column_ok d c vs dt) as (df1 & -> & Hkeep & Hnew & Hagree & Hcells);
    [unfold len; by rewrite ?length_zip_with_l_eq, ?length_fmap
       by (by rewrite ?length_fmap)|]
  end.

Lemma agg_digital_maturity_grouped (w : gold.World) :
  Forall (λ c, has_column (gold.frame w) c = true)
    ["id"; "state_province"; "website_url"; "phone"] →
  ∃ t w', gold.agg_digital_maturity w = (Ok t, w')
          ∧ grouped_by_state (gold.frame w) t.
Proof.
  intros Hcols. repeat (apply Forall_cons in Hcols as [? Hcols]).
  unfold gold.agg_digital_maturity. run_py.
  next_getitem H1. next_setitem df1 Hk1 Hn1 Ha1 Hc1. simpl.
  next_getitem (Hk1 _ H2). next_setitem df2 Hk2 Hn2 Ha2 Hc2. simpl.
  next_getitem (Hk2 _ Hn1). next_getitem Hn2.
  next_setitem df3 Hk3 Hn3 Ha3 Hc3. simpl.
  destruct (groupby_total df3 ["state_province"] true) as (groups & Hg).
  { repeat constructor. by apply Hk3, Hk2, Hk1. }
  rewrite Hg. simpl.
  rewrite (Hk3 _ (Hk2 _ (Hk1 _ H))). simpl.
  eexists _, _. split; [reflexivity|].
  exists df3, groups. eexists _, _, (λ g, _). split; [|split; [exact Hg|reflexivity]].
  eapply frames_agree_trans; [apply Ha1; by_names|].
  eapply frames_agree_trans; [apply Ha2; by_names|apply Ha3; by_names].
Qed.

Lemma agg_regional_diversity_grouped (w : gold.World) :
  Forall (λ c, has_column (gold.frame w) c = true)
    ["state_province"; "brewery_type"] →
  ∃ t w', gold.agg_regional_diversity w = (Ok t, w')
          ∧ grouped_by_state (gold.frame w) t.
Proof.
  intros Hcols. repeat (apply Forall_cons in Hcols as [? Hcols]).
  unfold gold.agg_regional_diversity. run_py.
  destruct (groupby_total (gold.frame w) ["state_province"] true) as (groups & Hg);
    [by repeat constructor|].
  rewrite Hg. simpl. rewrite H0. simpl.
  eexists _, _. split; [reflexivity|].
  exists (gold.frame w), groups. eexists _, _, (λ g, _).
  split; [apply frames_agree_refl|]. split; [exact Hg|reflexivity].
Qed.

Lemma agg_market_specialization_grouped (w : gold.World) :
  Forall (λ c, has_column (gold.frame w) c = true)
    ["state_province"; "brewery_type"] →
  ∃ t w', gold.agg_market_specialization w = (Ok t, w')
          ∧ grouped_by_state (gold.frame w) t.
Proof.
  intros Hcols. repeat (apply Forall_cons in Hcols as [? Hcols]).
  unfold gold.agg_market_specialization. run_py.
  next_getitem H0.
  match goal with |- context [groupby ?micro ["state_province"] true] =>
    destruct (groupby_total micro ["state_province"] true) as (gm & ->);
      [by repeat constructor|]
  end.
  destruct (groupby_total (gold.frame w) ["state_province"] true) as (groups & Hg);
    [by repeat constructor|].
  rewrite Hg. simpl.
  eexists _, _. split; [reflexivity|].
  exists (gold.frame w), groups. eexists _, _, (λ g, _).
  split; [apply frames_agree_refl|]. split; [exact Hg|reflexivity].
Qed.

Lemma agg_data_trust_score_grouped (w : gold.World) :
  Forall (λ c, has_column (gold.frame w) c = true)
    ["state_province"; "address_1"; "phone"; "website_url"] →
  ∃ t w', gold.agg_data_trust_score w = (Ok t, w')
          ∧ grouped_by_state (gold.frame w) t.
Proof.
  intros Hcols. repeat (apply Forall_cons in Hcols as [? Hcols]).
  unfold gold.agg_data_trust_score. run_py.
  assert (filter (λ c, has_column (gold.frame w) c = false)
            ["address_1"; "phone"; "website_url"] = []) as ->.
  { apply filter_nil_iff. repeat constructor; congruence. }
  simpl.
  next_setitem df1 Hk1 Hn1 Ha1 Hc1. simpl.
  destruct (groupby_total df1 ["state_province"] true) as (groups & Hg).
  { repeat constructor. by apply Hk1. }
  rewrite Hg. simpl.
  eexists _, _. split; [reflexivity|].
  exists df1, groups. eexists _, _, (λ g, _).
  split; [apply Ha1; by_names|]. split; [exact Hg|reflexivity].
Qed.

(** On a frame that has the columns the aggregations read, each of the
    four per-state aggregations returns a table with exactly one row for
    each state of the frame that is not null: no state twice, no row for the
    null state, no state left out. *)
Theorem per_state_tables_have_one_row_per_state (w : gold.World) :
  Forall (λ c, has_column (gold.frame w) c = true) required_columns →
  Forall (λ agg : Py gold.World DataFrame,
            ∃ t w', agg w = (Ok t, w') ∧ one_row_per_state (gold.frame w) t)
    [gold.agg_digital_maturity;
     gold.agg_regional_diversity;
     gold.agg_market_specialization;
     gold.agg_data_trust_score].
Proof.
  intros Hcols. unfold required_columns in Hcols.
  repeat (apply Forall_cons in Hcols as [? Hcols]).
  repeat apply Forall_cons_2; [..|apply Forall_nil_2].
  - destruct (agg_digital_maturity_grouped w) as (t & w' & Hrun & Hshape);
      [by repeat constructor|].
    exists t, w'. split; [done|]. by apply grouped_by_state_rows.
  - destruct (agg_regional_diversity_grouped w) as (t & w' & Hrun & Hshape);
      [by repeat constructor|].
    exists t, w'. split; [done|]. by apply grouped_by_state_rows.
  - destruct (agg_market_specialization_grouped w) as (t & w' & Hrun & Hshape);
      [by repeat constructor|].
    exists t, w'. split; [done|]. by apply grouped_by_state_rows.
  - destruct (agg_data_trust_score_grouped w) as (t & w' & Hrun & Hshape);
      [by repeat constructor|].
    exists t, w'. split; [done|]. by apply grouped_by_state_rows.
Qed.

Lemma per_state_tables_have_one_row_per_state_witness :
  Forall (λ c, has_column two_breweries c = true) required_columns
  ∧ ∃ t, (gold.agg_regional_diversity (gold_world two_breweries)).1 = Ok t
         ∧ one_row_per_state two_breweries t.
Proof.
  assert (Forall (λ c, has_column two_breweries c = true) required_columns)
    as Hcols by repeat constructor.
  split; [exact Hcols|].
  pose proof (per_state_tables_have_one_row_per_state
                (gold_world two_breweries) Hcols) as Hall.
  apply Forall_cons in Hall as [_ Hall].
  apply Forall_cons in Hall as [(t & w' & Hrun & Hrows) _].
  exists t. rewrite Hrun. by split.
Defined.

(** *** Market specialization *)

Lemma grouped_table_rows (df : DataFrame) (ks : list string)
    (by_ : list (string * bool)) (aggregated : list (string * dtype))
    (body : list (list value * list value)) (row : gmap string value) :
  row ∈ rows (sort_values by_ (reset_index df ks aggregated body))
  ↔ ∃ kv, kv ∈ body
          ∧ row = list_to_map (zip ks kv.1 ++ zip aggregated.*1 kv.2).
Proof.
  rewrite sort_values_elem. unfold reset_index. simpl.
  rewrite list_elem_of_fmap. split; intros (kv & ? & ?); by exists kv.
Qed.

Lemma group_of_groupby (G : list value → list (gmap string value))
    (keys : list (list value)) (k : list value) :
  gold.group_of ((λ k, (k, G k)) <$> keys) k
  = if decide (k ∈ keys) then Some (G k) else None.
Proof.
  unfold gold.group_of. induction keys as [|k0 keys IH]; [done|].
  rewrite fmap_cons. simpl. destruct (decide (k0 = k)) as [->|Hne]; simpl.
  - rewrite decide_True; [done|apply list_elem_of_here].
  - destruct (list_find _ _) as [[i g]|] eqn:Hfind; simpl in *.
    + destruct (decide (k ∈ keys)) as [Hin|Hnotin]; [|done].
      rewrite decide_True; [done|by apply list_elem_of_further].
    + destruct (decide (k ∈ keys)) as [Hin|Hnotin]; [done|].
      rewrite decide_False; [done|]. by intros [?|?]%elem_of_cons.
Qed.

Lemma state_group (v : value) (rs : list (gmap string value)) :
  v ≠ VNull →
  filter (λ r, key_of ["state_province"] r = [v])
    (filter (λ r, forallb notna (key_of ["state_province"] r) = true) rs)
  = filter (λ r, cell r "state_province" = v) rs.
Proof.
  intros Hv. rewrite list_filter_filter. apply list_filter_iff.
  intros r. simpl. rewrite andb_true_r. split.
  - by intros [[= ?] _].
  - intros <-. split; [done|]. by destruct (cell r "state_province").
Qed.

Lemma groupby_state_inv (d : DataFrame)
    (groups : list (list value * list (gmap string value))) :
  groupby d ["state_province"] true = Ok groups →
  groups
  = (λ k, (k, filter (λ r, key_of ["state_province"] r = k)
                (filter (λ r, forallb notna (key_of ["state_province"] r) = true)
                   (rows d))))
      <$> merge_sort (keys_le ["state_province"])
            (first_appearance
               (key_of ["state_province"]
                  <$> filter (λ r, forallb notna (key_of ["state_province"] r)
                                   = true) (rows d))).
Proof.
  unfold groupby.
  destruct (filter (λ c, has_column d c = false) ["state_province"]); [|done].
  by intros [= <-].
Qed.

(** A group of a frame grouped by state: its key is a state other than
    null, its rows are the rows of the frame in that state, and there is at
    least one. *)
Lemma groupby_state_group (d : DataFrame)
    (groups : list (list value * list (gmap string value)))
    (g : list value * list (gmap string value)) :
  groupby d ["state_province"] true = Ok groups → g ∈ groups →
  ∃ v, v ≠ VNull ∧ g.1 = [v] ∧ g.2 = in_state v d ∧ g.2 ≠ [].
Proof.
  intros ->%groupby_state_inv (k & -> & Hk)%list_elem_of_fmap.
  apply group_keys_elem in Hk as (r & Hr & <-).
  pose proof Hr as [Hnn Hin]%list_elem_of_filter.
  exists (cell r "state_province").
  assert (cell r "state_province" ≠ VNull) as Hv.
  { simpl in Hnn. rewrite andb_true_r in Hnn. intros Heq. by rewrite Heq in Hnn. }
  split; [done|]. split; [done|]. split.
  - apply (state_group _ (rows d) Hv).
  - cbn [snd]. intros Hnil.
    assert (r ∈ filter (λ r0, key_of ["state_province"] r0
                              = key_of ["state_province"] r)
                  (filter (λ r, forallb notna (key_of ["state_province"] r) = true)
                     (rows d))) as Hr'
      by (by apply list_elem_of_filter).
    rewrite Hnil in Hr'. by apply elem_of_nil in Hr'.
Qed.

(** The size of the group of a state, zero when the state has no group. *)
Lemma group_of_state_size (d : DataFrame)
    (groups : list (list value * list (gmap string value))) (v : value) :
  groupby d ["state_province"] true = Ok groups → v ≠ VNull →
  default 0 (agg_size <$> gold.group_of groups [v]) = length (in_state v d).
Proof.
  intros ->%groupby_state_inv Hv.
  rewrite (group_of_groupby
             (λ k, filter (λ r, key_of ["state_province"] r = k)
                     (filter (λ r, forallb notna (key_of ["state_province"] r)
                                   = true) (rows d)))).
  unfold in_state. rewrite <- (state_group v (rows d) Hv).
  destruct (decide _) as [Hin|Hnotin]; [done|]. cbn [fmap option_fmap option_map default].
  match goal with |- 0 = length ?l => destruct l as [|r rest] eqn:Hf end; [done|].
  exfalso. apply Hnotin, group_keys_elem. exists r.
  assert (r ∈ r :: rest) as Hr by apply list_elem_of_here.
  rewrite <- Hf in Hr. apply list_elem_of_filter in Hr as [Hk Hr]. by split.
Qed.

Lemma market_row (v a b : value) :
  let row : gmap string value :=
    list_to_map (zip ["state_province"] [v]
                 ++ zip ["total_brewery_count"; "micro_brewery_count"] [a; b]) in
  cell row "state_province" = v
  ∧ cell row "total_brewery_count" = a
  ∧ cell row "micro_brewery_count" = b.
Proof.
  unfold cell. simpl. by repeat split.
Qed.

(** On a frame that has the two columns, [agg_market_specialization]
    returns a table in which every row gives, for its state, the number of
    rows of the frame in that state and the number of those whose type is
    [micro]: at least one brewery, and no more micro breweries than
    breweries. *)
Theorem agg_market_specialization_counts (w : gold.World) :
  Forall (λ c, has_column (gold.frame w) c = true)
    ["state_province"; "brewery_type"] →
  ∃ t w',
    gold.agg_market_specialization w = (Ok t, w')
    ∧ ∀ row, row ∈ rows t →
        let breweries := in_state (cell row "state_province") (gold.frame w) in
        cell row "total_brewery_count" = of_nat (length breweries)
        ∧ cell row "micro_brewery_count" = of_nat (length (of_type "micro" breweries))
        ∧ 1 ≤ length breweries
        ∧ length (of_type "micro" breweries) ≤ length breweries.
Proof.
  intros Hcols. repeat (apply Forall_cons in Hcols as [? Hcols]).
  unfold gold.agg_market_specialization. run_py.
  next_getitem H0.
  set (df := gold.frame w).
  set (micro := mkDF (columns df)
                  (filter (λ r, cell r "brewery_type" = VStr "micro") (rows df))).
  destruct (groupby_total micro ["state_province"] true) as (gm & Hgm);
    [by repeat constructor|].
  destruct (groupby_total df ["state_province"] true) as (groups & Hg);
    [by repeat constructor|].
  rewrite Hgm, Hg. simpl.
  eexists _, _. split; [reflexivity|].
  intros row (kv & Hkv & ->)%grouped_table_rows.
  apply list_elem_of_fmap in Hkv as (g & -> & Hin).
  destruct (groupby_state_group df groups g Hg Hin) as (v & Hv & Hkey & Hrows & Hne).
  cbn [fst snd fmap list_fmap]. rewrite Hkey.
  destruct (market_row v (of_nat (agg_size g.2))
              (of_nat (default 0 (agg_size <$> gold.group_of gm [v]))))
    as (-> & -> & ->).
  cbv zeta. rewrite (group_of_state_size micro gm v Hgm Hv), Hrows.
  assert (in_state v micro = of_type "micro" (in_state v df)) as ->.
  { unfold in_state, of_type, micro. simpl. rewrite !list_filter_filter.
    apply list_filter_iff. intros r. tauto. }
  unfold agg_size. split; [done|]. split; [done|]. split.
  - rewrite Hrows in Hne. destruct (in_state v df); [done|simpl; lia].
  - apply length_filter.
Qed.

Lemma agg_market_specialization_counts_witness :
  Forall (λ c, has_column two_breweries c = true)
    ["state_province"; "brewery_type"]
  ∧ ∃ t, (gold.agg_market_specialization (gold_world two_breweries)).1 = Ok t
         ∧ ∀ row, row ∈ rows t →
             1 ≤ length (in_state (cell row "state_province") two_breweries).
Proof.
  assert (Forall (λ c, has_column two_breweries c = true)
            ["state_province"; "brewery_type"]) as Hcols by repeat constructor.
  split; [exact Hcols|].
  destruct (agg_market_specialization_counts (gold_world two_breweries) Hcols)
    as (t & w' & Hrun & Hrows).
  exists t. rewrite Hrun. split; [reflexivity|].
  intros row Hrow. by destruct (Hrows row Hrow) as (_ & _ & ? & _).
Defined.

(** ** save_silver *)

Lemma filter_all {A} (l : list A) : filter (λ _, True) l = l.
Proof. induction l as [|x l IH]; [done|]. by rewrite filter_cons_True, IH. Qed.








(** With an engine that refuses a mixed [object] column, the types are
    written in the order of their names until one is refused: of the three
    types below the first is written, the second raises, the third is never
    reached. *)
Example save_silver_stops_at_refused_part :
  let '(res, st') :=
    silver.save_silver string_of_number refuses_mixed_object "20260101_000000"
      mixed_codes "silver" (silver.mkStore console0 ∅) in
  res = Raise (ArrowInvalid "Could not convert value")
  ∧ (map_to_list (silver.silver_files st')).*1
    ≡ₚ ["silver/brewery_type=bar/breweries_20260101_000000.parquet";
        "silver/brewery_type=bar/breweries_20260101_000000.csv"].
Proof. vm_compute. split; [reflexivity|]. apply Permutation_swap. Qed.



(** ** agg_digital_maturity, state by state *)

Lemma length_filter_Forall2 {A B} (R : A → B → Prop) (P : A → Prop) (Q : B → Prop)
    `{!∀ x, Decision (P x)} `{!∀ y, Decision (Q y)} (l : list A) (l' : list B) :
  Forall2 R l l' → (∀ x y, R x y → P x ↔ Q y) →
  length (filter P l) = length (filter Q l').
Proof.
  intros HR HPQ. induction HR as [|x y l l' Hxy _ IH]; [done|].
  rewrite !filter_cons. specialize (HPQ x y Hxy).
  destruct (decide (P x)), (decide (Q y)); simpl; (lia || tauto).
Qed.

Lemma Forall2_with_cells {A B C} (R : A → B → Prop) (f : B → C) (g : A → C)
    (l : list A) (l' : list B) :
  Forall2 R l l' → f <$> l' = g <$> l →
  Forall2 (λ x y, R x y ∧ f y = g x) l l'.
Proof.
  intros HR. induction HR as [|x y l l' Hxy _ IH]; [constructor|].
  rewrite !fmap_cons. intros [= Hhead Htail]. constructor; [done|by apply IH].
Qed.

Lemma maturity_row (v a b c : value) :
  let row : gmap string value :=
    list_to_map (zip ["state_province"] [v]
                 ++ zip ["total_breweries"; "digitally_ready_count";
                         "maturity_score"] [a; b; c]) in
  cell row "state_province" = v
  ∧ cell row "total_breweries" = a
  ∧ cell row "digitally_ready_count" = b
  ∧ cell row "maturity_score" = c.
Proof.
  unfold cell. simpl. by repeat split.
Qed.

(** On a frame that has the four columns it reads, [agg_digital_maturity]
    returns a table in which every row gives, for its state,
    [total_breweries]: the number of rows of the frame in that state that
    have an id, and [digitally_ready_count]: the number of rows in that state
    that have both a website and a phone, with or without an id.  The state
    has at least one row; where every row of the state has an id, the first
    count is the number of rows of the state and the second does not exceed
    it. *)
Theorem agg_digital_maturity_counts (w : gold.World) :
  Forall (λ c, has_column (gold.frame w) c = true)
    ["id"; "state_province"; "website_url"; "phone"] →
  ∃ t w',
    gold.agg_digital_maturity w = (Ok t, w')
    ∧ ∀ row, row ∈ rows t →
        let breweries := in_state (cell row "state_province") (gold.frame w) in
        let total := length (with_value "id" breweries) in
        let ready := length (with_website_and_phone breweries) in
        cell row "total_breweries" = of_nat total
        ∧ cell row "digitally_ready_count" = of_nat ready
        ∧ (1 ≤ length breweries)%nat
        ∧ (Forall (λ r, cell r "id" ≠ VNull) breweries →
           total = length breweries ∧ (ready ≤ total)%nat).
Proof.
  intros Hcols. repeat (apply Forall_cons in Hcols as [? Hcols]).
  unfold gold.agg_digital_maturity. run_py.
  set (df := gold.frame w) in *.
  next_getitem H1. next_setitem df1 Hk1 Hn1 Ha1 Hc1. simpl.
  next_getitem (Hk1 _ H2). next_setitem df2 Hk2 Hn2 Ha2 Hc2. simpl.
  next_getitem (Hk2 _ Hn1). next_getitem Hn2.
  next_setitem df3 Hk3 Hn3 Ha3 Hc3. simpl.
  destruct (groupby_total df3 ["state_province"] true) as (groups & Hg).
  { repeat constructor. by apply Hk3, Hk2, Hk1. }
  rewrite Hg. simpl.
  rewrite (Hk3 _ (Hk2 _ (Hk1 _ H))). simpl.
  eexists _, _. split; [reflexivity|].
  (* the rows of the frame that is grouped, against those of the frame given *)
  set (cs := ["id"; "state_province"; "website_url"; "phone"]).
  assert ("has_website" ∉ cs) as Hw by by_names.
  assert ("has_phone" ∉ cs) as Hp by by_names.
  assert ("digitally_ready" ∉ cs) as Hr by by_names.
  assert (frames_agree cs df df3) as [_ Hrows].
  { eapply frames_agree_trans; [apply Ha1, Hw|].
    eapply frames_agree_trans; [apply Ha2, Hp|apply Ha3, Hr]. }
  assert ("has_phone" ∉ ["has_website"]) as Hp' by by_names.
  assert ("has_website" ∉ ["phone"]) as Hw' by by_names.
  destruct (Ha2 _ Hp') as [_ Hrows2]. destruct (Ha1 _ Hw') as [_ Hrows1].
  rewrite (cells_agree ["has_website"] _ _ "has_website" Hrows2) in Hc3
    by apply list_elem_of_here.
  rewrite Hc1, Hc2 in Hc3.
  rewrite (cells_agree ["phone"] _ _ "phone" Hrows1) in Hc3
    by apply list_elem_of_here.
  rewrite <- !list_fmap_compose, zip_with_fmap_l, zip_with_fmap_r,
    zip_with_diag in Hc3.
  pose proof (Forall2_with_cells _ _ _ _ _ Hrows Hc3) as Hpairs.
  clear Hc1 Hc2 Hc3 Hrows Hrows1 Hrows2.
  intros row (kv & Hkv & ->)%grouped_table_rows.
  apply list_elem_of_fmap in Hkv as (g & -> & Hin).
  destruct (groupby_state_group df3 groups g Hg Hin) as (v & Hv & Hkey & Hgrows & Hne).
  cbn [fst snd fmap list_fmap]. rewrite Hkey.
  match goal with |- context [list_to_map (zip _ [v] ++ zip _ [?a; ?b; ?c])] =>
    destruct (maturity_row v a b c) as (-> & -> & -> & _)
  end.
  cbv zeta. rewrite Hgrows.
  assert (agg_count "id" (in_state v df3) = length (with_value "id" (in_state v df)))
    as ->.
  { unfold agg_count, with_value, in_state. rewrite !list_filter_filter. symmetry.
    eapply length_filter_Forall2; [exact Hpairs|].
    intros r r3 [Hagree _]. simpl.
    rewrite (Hagree "id") by by_names.
    rewrite (Hagree "state_province") by by_names.
    destruct (cell r "id"); simpl; split; intros [? ?]; by split. }
  assert (agg_sum_bool "digitally_ready" (in_state v df3)
          = length (with_website_and_phone (in_state v df))) as ->.
  { unfold agg_sum_bool, with_website_and_phone, in_state.
    rewrite !list_filter_filter. symmetry.
    eapply length_filter_Forall2; [exact Hpairs|].
    intros r r3 [Hagree Hflag]. simpl in Hflag. rewrite Hflag.
    rewrite (Hagree "state_province") by by_names.
    destruct (cell r "website_url"), (cell r "phone"); simpl;
      split; intros [Hl Hs]; split;
      first [done | by destruct Hl | by split]. }
  assert (length (in_state v df3) = length (in_state v df)) as Hsize.
  { unfold in_state. symmetry.
    eapply length_filter_Forall2; [exact Hpairs|].
    intros r r3 [Hagree _]. by rewrite (Hagree "state_province") by by_names. }
  split; [done|]. split; [done|]. split.
  { rewrite <- Hsize. rewrite Hgrows in Hne.
    destruct (in_state v df3); [done|simpl; lia]. }
  intros Hids.
  assert (with_value "id" (in_state v df) = in_state v df) as Hall.
  { unfold with_value. rewrite <- (filter_all (in_state v df)) at 2.
    apply filter_ext_elem. intros r Hr'. split; [done|]. intros _.
    eapply Forall_forall in Hids; [exact Hids|exact Hr']. }
  rewrite Hall. split; [done|]. apply length_filter.
Qed.

Lemma agg_digital_maturity_counts_witness :
  Forall (λ c, has_column two_breweries c = true)
    ["id"; "state_province"; "website_url"; "phone"]
  ∧ ∃ t, (gold.agg_digital_maturity (gold_world two_breweries)).1 = Ok t
         ∧ (∀ row, row ∈ rows t →
              cell row "total_breweries"
              = of_nat (length (with_value "id"
                                  (in_state (cell row "state_province")
                                     two_breweries))))
         ∧ (λ r, (cell r "state_province", cell r "total_breweries",
                  cell r "digitally_ready_count")) <$> rows t
           = [(VStr "CA", of_nat 1, of_nat 1)].
Proof.
  assert (Forall (λ c, has_column two_breweries c = true)
            ["id"; "state_province"; "website_url"; "phone"]) as Hcols
    by repeat constructor.
  split; [exact Hcols|].
  destruct (agg_digital_maturity_counts (gold_world two_breweries) Hcols)
    as (t & w' & Hrun & Hrows).
  exists t. rewrite Hrun. split; [reflexivity|]. split.
  - intros row Hrow. by destruct (Hrows row Hrow) as (? & _).
  - assert (Ok t = (gold.agg_digital_maturity (gold_world two_breweries)).1) as Ht
      by (by rewrite Hrun).
    vm_compute in Ht. injection Ht as ->. vm_compute. reflexivity.
Defined.

(** ** agg_regional_diversity, state by state *)

Lemma diversity_row (v a : value) :
  let row : gmap string value :=
    list_to_map (zip ["state_province"] [v] ++ zip ["unique_brewery_types"] [a]) in
  cell row "state_province" = v ∧ cell row "unique_brewery_types" = a.
Proof.
  unfold cell. simpl. by split.
Qed.

(** On a frame that has the two columns, [agg_regional_diversity] returns a
    table in which every row gives, for its state, the number of different
    values of [brewery_type] among the rows of the frame in that state, null
    not counted. *)
Theorem agg_regional_diversity_counts_types (w : gold.World) :
  Forall (λ c, has_column (gold.frame w) c = true)
    ["state_province"; "brewery_type"] →
  ∃ t w',
    gold.agg_regional_diversity w = (Ok t, w')
    ∧ ∀ row, row ∈ rows t →
        ∃ types : list value,
          NoDup types
          ∧ (∀ ty, ty ∈ types
                   ↔ ty ≠ VNull
                     ∧ ∃ r, r ∈ in_state (cell row "state_province") (gold.frame w)
                            ∧ cell r "brewery_type" = ty)
          ∧ cell row "unique_brewery_types" = of_nat (length types).
Proof.
  intros Hcols. repeat (apply Forall_cons in Hcols as [? Hcols]).
  unfold gold.agg_regional_diversity. run_py.
  destruct (groupby_total (gold.frame w) ["state_province"] true) as (groups & Hg);
    [by repeat constructor|].
  rewrite Hg. simpl. rewrite H0. simpl.
  eexists _, _. split; [reflexivity|].
  intros row (kv & Hkv & ->)%grouped_table_rows.
  apply list_elem_of_fmap in Hkv as (g & -> & Hin).
  destruct (groupby_state_group _ groups g Hg Hin) as (v & Hv & Hkey & Hrows & Hne).
  cbn [fst snd fmap list_fmap]. rewrite Hkey.
  match goal with |- context [list_to_map (zip _ [v] ++ zip _ [?a])] =>
    destruct (diversity_row v a) as (-> & ->)
  end.
  rewrite Hrows. unfold agg_nunique.
  eexists. split; [apply first_appearance_NoDup|]. split; [|reflexivity].
  intros ty. rewrite first_appearance_iff, list_elem_of_filter, list_elem_of_fmap.
  split.
  - intros [Hnn (r & -> & Hr)]. split; [|by exists r].
    intros Heq. by rewrite Heq in Hnn.
  - intros [Hnn (r & Hr & <-)]. split; [|by exists r].
    by destruct (cell r "brewery_type").
Qed.

Lemma agg_regional_diversity_counts_types_witness :
  Forall (λ c, has_column two_breweries c = true)
    ["state_province"; "brewery_type"]
  ∧ ∃ t, (gold.agg_regional_diversity (gold_world two_breweries)).1 = Ok t
         ∧ ∀ row, row ∈ rows t →
             ∃ n, cell row "unique_brewery_types" = of_nat n.
Proof.
  assert (Forall (λ c, has_column two_breweries c = true)
            ["state_province"; "brewery_type"]) as Hcols by repeat constructor.
  split; [exact Hcols|].
  destruct (agg_regional_diversity_counts_types (gold_world two_breweries) Hcols)
    as (t & w' & Hrun & Hrows).
  exists t. rewrite Hrun. split; [reflexivity|].
  intros row Hrow. destruct (Hrows row Hrow) as (types & _ & _ & Hcell).
  by exists (length types).
Defined.

(** ** agg_data_trust_score, state by state *)

Lemma fmap_filter_Forall2 {A B C} (R : A → B → Prop) (P : A → Prop) (Q : B → Prop)
    `{!∀ x, Decision (P x)} `{!∀ y, Decision (Q y)} (f : B → C) (g : A → C)
    (l : list A) (l' : list B) :
  Forall2 R l l' → (∀ x y, R x y → (P x ↔ Q y) ∧ f y = g x) →
  f <$> filter Q l' = g <$> filter P l.
Proof.
  intros HR HPQ. induction HR as [|x y l l' Hxy _ IH]; [done|].
  rewrite !filter_cons. destruct (HPQ x y Hxy) as [Hiff Hfg].
  destruct (decide (P x)), (decide (Q y)); try tauto.
  by rewrite !fmap_cons, IH, Hfg.
Qed.

Lemma num_add (a b : Z) : num (a + b) = (num a + num b)%Qc.
Proof.
  apply Qc_is_canon. unfold num, Qcplus. cbn [this Q2Qc].
  rewrite !Qred_correct, inject_Z_plus. reflexivity.
Qed.

Lemma num_mul (a b : Z) : num (a * b) = (num a * num b)%Qc.
Proof.
  apply Qc_is_canon. unfold num, Qcmult. cbn [this Q2Qc].
  rewrite !Qred_correct, inject_Z_mult. reflexivity.
Qed.

Lemma sum_of_shares {A} (k : A → nat) (d : Z) (l : list A) :
  foldr (λ v acc, numeric v + acc)%Qc (num 0)
    ((λ x, VNum (num (Z.of_nat (k x)) / num d)%Qc) <$> l)
  = (num (Z.of_nat (sum_list (k <$> l))) / num d)%Qc.
Proof.
  induction l as [|x l IH].
  - rewrite !fmap_nil. cbn [foldr]. change (sum_list []) with 0.
    change (num (Z.of_nat 0)) with 0%Qc. change (num 0) with 0%Qc.
    unfold Qcdiv. ring.
  - rewrite !fmap_cons, sum_list_cons. cbn [foldr numeric]. rewrite IH.
    rewrite Nat2Z.inj_add, num_add. unfold Qcdiv. ring.
Qed.

Lemma filter_notna_numbers {A} (f : A → Qc) (l : list A) :
  filter (λ v, notna v = true) ((λ x, VNum (f x)) <$> l) = (λ x, VNum (f x)) <$> l.
Proof.
  induction l as [|x l IH]; [done|].
  by rewrite fmap_cons, filter_cons_True, IH.
Qed.

Lemma critical_fields_filled_le (r : gmap string value) :
  critical_fields_filled r ≤ 3.
Proof. apply (length_filter _ ["address_1"; "phone"; "website_url"]). Qed.

Lemma sum_list_le {A} (k : A → nat) (n : nat) (l : list A) :
  (∀ x, k x ≤ n) → sum_list (k <$> l) ≤ n * length l.
Proof.
  intros Hk. induction l as [|x l IH]; [simpl; lia|].
  rewrite fmap_cons, sum_list_cons, length_cons. specialize (Hk x). lia.
Qed.

Lemma trust_row (v a : value) :
  let row : gmap string value :=
    list_to_map (zip ["state_province"] [v] ++ zip ["trust_score"] [a]) in
  cell row "state_province" = v ∧ cell row "trust_score" = a.
Proof.
  unfold cell. simpl. by split.
Qed.

(** The score of the model, which computes on exact rationals: the share
    of the critical fields that the rows of the state have, as a percentage
    rounded to two decimals. *)
Lemma trust_score_of_state (w : gold.World) :
  Forall (λ c, has_column (gold.frame w) c = true)
    ["state_province"; "address_1"; "phone"; "website_url"] →
  ∃ t w',
    gold.agg_data_trust_score w = (Ok t, w')
    ∧ ∀ row, row ∈ rows t →
        let breweries := in_state (cell row "state_province") (gold.frame w) in
        let filled := sum_list (critical_fields_filled <$> breweries) in
        (1 ≤ length breweries)%nat
        ∧ cell row "trust_score"
          = VNum (round2 (num (Z.of_nat filled)
                          / num (Z.of_nat (3 * length breweries))
                          * num 100)%Qc).
Proof.
  intros Hcols. repeat (apply Forall_cons in Hcols as [? Hcols]).
  unfold gold.agg_data_trust_score. run_py.
  set (df := gold.frame w) in *.
  assert (filter (λ c, has_column df c = false)
            ["address_1"; "phone"; "website_url"] = []) as ->.
  { apply filter_nil_iff. repeat constructor; congruence. }
  simpl.
  next_setitem df1 Hk1 Hn1 Ha1 Hc1. simpl.
  destruct (groupby_total df1 ["state_province"] true) as (groups & Hg).
  { repeat constructor. by apply Hk1. }
  rewrite Hg. simpl.
  eexists _, _. split; [reflexivity|].
  assert ("completeness" ∉ ["state_province"]) as Hc by by_names.
  destruct (Ha1 _ Hc) as [_ Hrows].
  pose proof (Forall2_with_cells _ _ _ _ _ Hrows Hc1) as Hpairs.
  clear Hc1 Hrows.
  intros row (kv & Hkv & ->)%grouped_table_rows.
  apply list_elem_of_fmap in Hkv as (g & -> & Hin).
  destruct (groupby_state_group df1 groups g Hg Hin) as (v & Hv & Hkey & Hgrows & Hne).
  cbn [fst snd fmap list_fmap]. rewrite Hkey.
  match goal with |- context [list_to_map (zip _ [v] ++ zip _ [?a])] =>
    destruct (trust_row v a) as (-> & ->)
  end.
  cbv zeta. rewrite Hgrows.
  assert ((λ r, cell r "completeness") <$> in_state v df1
          = (λ r, VNum (num (Z.of_nat (critical_fields_filled r)) / num 3)%Qc)
              <$> in_state v df) as Hcells.
  { unfold in_state.
    eapply fmap_filter_Forall2; [exact Hpairs|].
    intros r r1 [Hagree Hcell]. simpl in Hcell.
    rewrite (Hagree "state_province") by apply list_elem_of_here.
    split; [done|]. rewrite Hcell. unfold critical_fields_filled.
    assert (filter (λ c, notna (cell r c) = true)
              ["address_1"; "phone"; "website_url"]
            = filter (λ c, cell r c ≠ VNull)
                ["address_1"; "phone"; "website_url"]) as ->; [|done].
    apply list_filter_iff. intros c. by destruct (cell r c). }
  assert (in_state v df ≠ []) as Hne'.
  { intros Hnil. rewrite Hnil in Hcells. apply fmap_nil_inv in Hcells.
    rewrite Hgrows in Hne. done. }
  unfold agg_mean. rewrite Hcells, filter_notna_numbers.
  destruct (in_state v df) as [|r rs] eqn:Hstate; [done|].
  rewrite <- Hstate in *. clear Hstate.
  assert (0 < length (in_state v df)) as Hpos
    by (destruct (in_state v df); [done|simpl; lia]).
  destruct ((λ r0, VNum (num (Z.of_nat (critical_fields_filled r0)) / num 3)%Qc)
              <$> in_state v df) as [|x xs] eqn:Hshares.
  { apply fmap_nil_inv in Hshares. done. }
  rewrite <- Hshares. clear Hshares.
  rewrite sum_of_shares, length_fmap.
  split; [lia|].
  assert ((num (Z.of_nat (sum_list (critical_fields_filled <$> in_state v df)))
           / num 3 / num (Z.of_nat (length (in_state v df))) * num 100)%Qc
          = (num (Z.of_nat (sum_list (critical_fields_filled <$> in_state v df)))
             / num (Z.of_nat (3 * length (in_state v df))) * num 100)%Qc) as ->.
  { rewrite Nat2Z.inj_mul, num_mul. change (Z.of_nat 3) with 3%Z. unfold Qcdiv.
    rewrite Qcinv_mult_distr. ring. }
  done.
Qed.

Lemma sum_list_const {A} (k : A → nat) (n : nat) (l : list A) :
  Forall (λ x, k x = n) l → sum_list (k <$> l) = (n * length l)%nat.
Proof.
  induction 1 as [|x l Hx _ IH]; [simpl; lia|].
  rewrite fmap_cons, sum_list_cons, length_cons, IH, Hx. lia.
Qed.

Lemma round2_integer (z : Z) : round2 (num z) = num z.
Proof.
  assert (Qred (inject_Z z) = inject_Z z) as Hred
    by apply Qred_identity, Z.gcd_1_r.
  apply Qc_is_canon. unfold round2, num. cbn [this Q2Qc].
  rewrite !Hred, Qred_correct.
  assert (round_half_even (inject_Z z * 100) = (z * 100)%Z) as ->.
  { unfold round_half_even.
    assert ((inject_Z z * 100 == inject_Z (z * 100))%Q) as Heq
      by (rewrite inject_Z_mult; reflexivity).
    assert (Qfloor (inject_Z z * 100) = (z * 100)%Z) as ->
      by (rewrite Heq; apply Qfloor_Z).
    assert ((inject_Z z * 100 - inject_Z (z * 100) ?= 1 # 2)%Q = Lt) as ->; [|done].
    rewrite <- Qlt_alt, Heq. unfold Qminus. rewrite Qplus_opp_r. done. }
  unfold Qeq, inject_Z. cbn [Qnum Qden]. lia.
Qed.

(** The two ends of the trust score.  On a frame that has the four columns
    it reads, [agg_data_trust_score] returns a table in which a state whose
    rows all have an address, a phone and a website scores 100, and a state
    none of whose rows has any of the three scores 0. *)
Theorem agg_data_trust_score_extremes (w : gold.World) :
  Forall (λ c, has_column (gold.frame w) c = true)
    ["state_province"; "address_1"; "phone"; "website_url"] →
  ∃ t w',
    gold.agg_data_trust_score w = (Ok t, w')
    ∧ ∀ row, row ∈ rows t →
        let breweries := in_state (cell row "state_province") (gold.frame w) in
        (Forall (λ r, critical_fields_filled r = 3%nat) breweries →
         cell row "trust_score" = VNum (num 100))
        ∧ (Forall (λ r, critical_fields_filled r = 0%nat) breweries →
           cell row "trust_score" = VNum (num 0)).
Proof.
  intros Hcols.
  destruct (trust_score_of_state w Hcols) as (t & w' & Hrun & Hrows).
  exists t, w'. split; [exact Hrun|]. intros row Hrow.
  destruct (Hrows row Hrow) as [Hpos ->]. cbv zeta. split; intros Hall.
  - rewrite (sum_list_const _ 3 _ Hall).
    assert (num (Z.of_nat (3 * length (in_state (cell row "state_province")
                                         (gold.frame w)))) ≠ num 0) as Hne.
    { intros Heq%Qceq_alt. rewrite num_compare in Heq.
      apply Z.compare_eq in Heq. lia. }
    unfold Qcdiv. rewrite Qcmult_inv_r by exact Hne.
    rewrite Qcmult_1_l. by rewrite round2_integer.
  - rewrite (sum_list_const _ 0 _ Hall). rewrite Nat.mul_0_l.
    assert ((num (Z.of_nat 0)
             / num (Z.of_nat (3 * length (in_state (cell row "state_province")
                                            (gold.frame w))))
             * num 100)%Qc = num 0) as ->.
    { change (num (Z.of_nat 0)) with 0%Qc. change (num 0) with 0%Qc.
      unfold Qcdiv. ring. }
    by rewrite round2_integer.
Qed.

Lemma agg_data_trust_score_extremes_witness :
  Forall (λ c, has_column complete_and_bare c = true)
    ["state_province"; "address_1"; "phone"; "website_url"]
  ∧ ∃ t, (gold.agg_data_trust_score (gold_world complete_and_bare)).1 = Ok t
         ∧ (λ r, cell r "state_province") <$> rows t = [VStr "CA"; VStr "NV"]
         ∧ Forall2 (λ r q, cell r "trust_score" = VNum (num q)) (rows t)
             [100%Z; 0%Z].
Proof.
  assert (Forall (λ c, has_column complete_and_bare c = true)
            ["state_province"; "address_1"; "phone"; "website_url"]) as Hcols
    by repeat constructor.
  split; [exact Hcols|].
  destruct (agg_data_trust_score_extremes (gold_world complete_and_bare) Hcols)
    as (t & w' & Hrun & Hrows).
  exists t. rewrite Hrun. split; [reflexivity|].
  assert (Ok t = (gold.agg_data_trust_score (gold_world complete_and_bare)).1) as Ht
    by (by rewrite Hrun).
  vm_compute in Ht. injection Ht as ->. split; [vm_compute; reflexivity|].
  repeat constructor; unfold cell; cbn [rows]; apply (bool_decide_unpack _);
    vm_compute; exact I.
Defined.
